(** * Companion: browser-side frame handler, recovery paths and push manager

    A shallow embedding of
    - [web/src/ws.ts] (the browser-side handler of frames relayed by the
      bridge, with the task derivation of [extractTasksFromBlocks]),
    - the two recovery paths of the server entry point (the on-demand
      relaunch callback and the reconnection watchdog),
    - [web/server/push-manager.ts] (push subscriptions kept in a JSON file),
    - the access checks of [web/server/cf-access-middleware.ts] and the
      socket routes of the request handler of the server entry point,
    together with the store actions of [web/src/store.ts] that the handler
    calls. *)

From Stdlib Require SpecFloat.
From stdpp Require Import gmap strings list fin_maps pretty.

Open Scope Z_scope.

Set Warnings "-clear-no-such-hyp".

(** ** JavaScript values used by the code *)

(** An integer as a JavaScript number, which is a binary64 float: the
    nearest one, ties to even. *)
Definition double (z : Z) : SpecFloat.spec_float :=
  SpecFloat.binary_normalize 53 1024 z 0 false.

(** [Math.round] of a finite number: the nearest integer, a half going up.
    A zero of either sign gives 0; an infinity or a NaN, which integer
    counts within the range of a double do not produce, has no integer and
    is not modelled. *)
Definition Math_round (x : SpecFloat.spec_float) : Z :=
  match x with
  | SpecFloat.S754_finite s m e =>
      let v := if s then Z.neg m else Z.pos m in
      if bool_decide (0 ≤ e) then v * 2 ^ e
      else (2 * v + 2 ^ (- e)) `div` 2 ^ (1 - e)
  | _ => 0
  end.

(** Truthiness of an optional string: [undefined] and the empty string are
    falsy. *)
Definition truthy (s : option string) : bool :=
  match s with
  | Some s => bool_decide (s ≠ "")
  | None => false
  end.

(** [a || b] on optional strings. *)
Definition or_else (s : option string) (d : string) : string :=
  match s with
  | Some s => if bool_decide (s ≠ "") then s else d
  | None => d
  end.

(** Completion of a call that may throw. *)
Inductive Completion (A : Type) : Type :=
  | Normal (a : A)
  | Throws.
Arguments Normal {A} a.
Arguments Throws {A}.

(** ** Types shared by the store and the handler ([types.ts]) *)

Record TodoEntry := {
  todo_content : option string;
  todo_status : option string;
  todo_activeForm : option string;
}.

(** The [input] record of a tool invocation, with the properties the task
    derivation reads; [None] is [undefined]. *)
Record ToolInput := {
  in_todos : option (list TodoEntry);
  in_subject : option string;
  in_description : option string;
  in_activeForm : option string;
  in_taskId : option string;
  in_status : option string;
  in_owner : option string;
  in_addBlockedBy : option (list string);
}.

Inductive ContentBlock :=
  | BText (text : string)
  | BThinking (thinking : string)
  | BToolUse (id : option string) (name : option string) (input : option ToolInput)
  | BToolResult (tool_use_id : string) (content : string).

Inductive Role := RUser | RAssistant | RSystem.

Record ChatMessage := {
  msg_id : option string;
  msg_role : Role;
  msg_content : string;
  msg_contentBlocks : option (list ContentBlock);
  msg_timestamp : Z;
  msg_parentToolUseId : option string;
  msg_model : option string;
  msg_stopReason : option string;
}.

Record TaskItem := {
  task_id : string;
  task_subject : string;
  task_description : string;
  task_activeForm : option string;
  task_status : string;
  task_owner : option string;
  task_blockedBy : option (list string);
}.

(** [Partial<TaskItem>] as built by the [TaskUpdate] branch. *)
Record TaskPatch := {
  up_status : option string;
  up_owner : option string;
  up_activeForm : option string;
  up_blockedBy : option (list string);
}.

Record PermissionRequest := {
  request_id : string;
  tool_name : option string;
  perm_input : option ToolInput;
  perm_timestamp : Z;
  tool_use_id : option string;
}.

Record SessionState := {
  session_id : string;
  model : string;
  cwd : string;
  total_cost_usd : Z;
  num_turns : Z;
  context_used_percent : Z;
  total_lines_added : Z;
  total_lines_removed : Z;
}.

(** [Partial<SessionState>]. *)
Record SessionPatch := {
  pt_model : option string;
  pt_cwd : option string;
  pt_total_cost_usd : option Z;
  pt_num_turns : option Z;
  pt_context_used_percent : option Z;
  pt_total_lines_added : option Z;
  pt_total_lines_removed : option Z;
}.

Inductive SessionStatus := Idle | Running | Compacting.

Record StreamingStats := {
  startedAt : option Z;
  outputTokens : option Z;
}.

(** ** The store ([web/src/store.ts]) *)

Module Store.

(** Modelled from the spec: the state of the store of [web/src/store.ts],
    which is missing; one map per aspect of a session, keyed by session id,
    as the store's tests read it back. *)
Record AppState := {
  sessions : gmap string SessionState;
  messages : gmap string (list ChatMessage);
  streaming : gmap string string;
  streamingStartedAt : gmap string Z;
  streamingOutputTokens : gmap string Z;
  pendingPermissions : gmap string (gmap string PermissionRequest);
  cliConnected : gmap string bool;
  sessionStatus : gmap string (option SessionStatus);
  sessionTasks : gmap string (list TaskItem);
  sessionNames : gmap string string;
}.

Definition empty : AppState :=
  {| sessions := ∅; messages := ∅; streaming := ∅; streamingStartedAt := ∅;
     streamingOutputTokens := ∅; pendingPermissions := ∅; cliConnected := ∅;
     sessionStatus := ∅; sessionTasks := ∅; sessionNames := ∅ |}.

Definition with_sessions (v : gmap string SessionState) (s : AppState) : AppState :=
  {| sessions := v; messages := messages s; streaming := streaming s;
     streamingStartedAt := streamingStartedAt s;
     streamingOutputTokens := streamingOutputTokens s;
     pendingPermissions := pendingPermissions s; cliConnected := cliConnected s;
     sessionStatus := sessionStatus s; sessionTasks := sessionTasks s;
     sessionNames := sessionNames s |}.

Definition with_messages (v : gmap string (list ChatMessage)) (s : AppState) : AppState :=
  {| sessions := sessions s; messages := v; streaming := streaming s;
     streamingStartedAt := streamingStartedAt s;
     streamingOutputTokens := streamingOutputTokens s;
     pendingPermissions := pendingPermissions s; cliConnected := cliConnected s;
     sessionStatus := sessionStatus s; sessionTasks := sessionTasks s;
     sessionNames := sessionNames s |}.

Definition with_streaming (v : gmap string string) (s : AppState) : AppState :=
  {| sessions := sessions s; messages := messages s; streaming := v;
     streamingStartedAt := streamingStartedAt s;
     streamingOutputTokens := streamingOutputTokens s;
     pendingPermissions := pendingPermissions s; cliConnected := cliConnected s;
     sessionStatus := sessionStatus s; sessionTasks := sessionTasks s;
     sessionNames := sessionNames s |}.

Definition with_stats (a o : gmap string Z) (s : AppState) : AppState :=
  {| sessions := sessions s; messages := messages s; streaming := streaming s;
     streamingStartedAt := a; streamingOutputTokens := o;
     pendingPermissions := pendingPermissions s; cliConnected := cliConnected s;
     sessionStatus := sessionStatus s; sessionTasks := sessionTasks s;
     sessionNames := sessionNames s |}.

Definition with_pendingPermissions
    (v : gmap string (gmap string PermissionRequest)) (s : AppState) : AppState :=
  {| sessions := sessions s; messages := messages s; streaming := streaming s;
     streamingStartedAt := streamingStartedAt s;
     streamingOutputTokens := streamingOutputTokens s;
     pendingPermissions := v; cliConnected := cliConnected s;
     sessionStatus := sessionStatus s; sessionTasks := sessionTasks s;
     sessionNames := sessionNames s |}.

Definition with_cliConnected (v : gmap string bool) (s : AppState) : AppState :=
  {| sessions := sessions s; messages := messages s; streaming := streaming s;
     streamingStartedAt := streamingStartedAt s;
     streamingOutputTokens := streamingOutputTokens s;
     pendingPermissions := pendingPermissions s; cliConnected := v;
     sessionStatus := sessionStatus s; sessionTasks := sessionTasks s;
     sessionNames := sessionNames s |}.

Definition with_sessionStatus (v : gmap string (option SessionStatus)) (s : AppState)
    : AppState :=
  {| sessions := sessions s; messages := messages s; streaming := streaming s;
     streamingStartedAt := streamingStartedAt s;
     streamingOutputTokens := streamingOutputTokens s;
     pendingPermissions := pendingPermissions s; cliConnected := cliConnected s;
     sessionStatus := v; sessionTasks := sessionTasks s;
     sessionNames := sessionNames s |}.

Definition with_sessionTasks (v : gmap string (list TaskItem)) (s : AppState) : AppState :=
  {| sessions := sessions s; messages := messages s; streaming := streaming s;
     streamingStartedAt := streamingStartedAt s;
     streamingOutputTokens := streamingOutputTokens s;
     pendingPermissions := pendingPermissions s; cliConnected := cliConnected s;
     sessionStatus := sessionStatus s; sessionTasks := v;
     sessionNames := sessionNames s |}.

Definition with_sessionNames (v : gmap string string) (s : AppState) : AppState :=
  {| sessions := sessions s; messages := messages s; streaming := streaming s;
     streamingStartedAt := streamingStartedAt s;
     streamingOutputTokens := streamingOutputTokens s;
     pendingPermissions := pendingPermissions s; cliConnected := cliConnected s;
     sessionStatus := sessionStatus s; sessionTasks := sessionTasks s;
     sessionNames := v |}.

(** Modelled from the spec: [addSession] of the missing store; it records the
    session under its own id and starts an empty message list unless one is
    already there (store tests, "does not overwrite existing messages"). *)
Definition addSession (session : SessionState) (s : AppState) : AppState :=
  let s := with_sessions (<[session_id session := session]> (sessions s)) s in
  match messages s !! session_id session with
  | Some _ => s
  | None => with_messages (<[session_id session := []]> (messages s)) s
  end.

Definition applyPatch (p : SessionPatch) (x : SessionState) : SessionState :=
  {| session_id := session_id x;
     model := default (model x) (pt_model p);
     cwd := default (cwd x) (pt_cwd p);
     total_cost_usd := default (total_cost_usd x) (pt_total_cost_usd p);
     num_turns := default (num_turns x) (pt_num_turns p);
     context_used_percent := default (context_used_percent x) (pt_context_used_percent p);
     total_lines_added := default (total_lines_added x) (pt_total_lines_added p);
     total_lines_removed := default (total_lines_removed x) (pt_total_lines_removed p) |}.

(** Modelled from the spec: [updateSession] of the missing store; it merges a
    partial update into a known session and does nothing for an unknown one
    (store tests, "no-op for unknown session"). *)
Definition updateSession (sid : string) (p : SessionPatch) (s : AppState) : AppState :=
  match sessions s !! sid with
  | Some x => with_sessions (<[sid := applyPatch p x]> (sessions s)) s
  | None => s
  end.

(** Modelled from the spec: [setCliConnected], [setSessionStatus] and
    [setSessionName] of the missing store; each writes one entry. *)
Definition setCliConnected (sid : string) (b : bool) (s : AppState) : AppState :=
  with_cliConnected (<[sid := b]> (cliConnected s)) s.

Definition setSessionStatus (sid : string) (st : option SessionStatus) (s : AppState)
    : AppState :=
  with_sessionStatus (<[sid := st]> (sessionStatus s)) s.

Definition setSessionName (sid name : string) (s : AppState) : AppState :=
  with_sessionNames (<[sid := name]> (sessionNames s)) s.

(** Modelled from the spec: [appendMessage] of the missing store. The history
    is "deduplicated by message id when present (messages without an id are
    never deduplicated)"; the list is created when the session has none
    (store tests, "deduplicates by ID", "allows messages without IDs"). *)
Definition appendMessage (sid : string) (msg : ChatMessage) (s : AppState) : AppState :=
  let existing := default [] (messages s !! sid) in
  if truthy (msg_id msg)
     && existsb (λ m, bool_decide (msg_id m = msg_id msg)) existing
  then s
  else with_messages (<[sid := existing ++ [msg]]> (messages s)) s.

(** Modelled from the spec: [setMessages] of the missing store; it replaces
    the whole list of a session. *)
Definition setMessages (sid : string) (msgs : list ChatMessage) (s : AppState) : AppState :=
  with_messages (<[sid := msgs]> (messages s)) s.

(** Modelled from the spec: [setStreaming] of the missing store; a text is
    stored, [null] deletes the entry (store tests, "setStreaming(null):
    deletes entry"). *)
Definition setStreaming (sid : string) (text : option string) (s : AppState) : AppState :=
  match text with
  | Some t => with_streaming (<[sid := t]> (streaming s)) s
  | None => with_streaming (delete sid (streaming s)) s
  end.

(** Modelled from the spec: [setStreamingStats] of the missing store; [null]
    clears the start timestamp and the output-token counter, an object sets
    only the fields it provides (store tests, "sets only provided fields",
    "setStreamingStats(null): clears both fields"). *)
Definition setStreamingStats (sid : string) (stats : option StreamingStats) (s : AppState)
    : AppState :=
  match stats with
  | None =>
      with_stats (delete sid (streamingStartedAt s))
                 (delete sid (streamingOutputTokens s)) s
  | Some st =>
      with_stats
        (match startedAt st with
         | Some t => <[sid := t]> (streamingStartedAt s)
         | None => streamingStartedAt s
         end)
        (match outputTokens st with
         | Some n => <[sid := n]> (streamingOutputTokens s)
         | None => streamingOutputTokens s
         end) s
  end.

(** Modelled from the spec: [addPermission] of the missing store; the request
    is inserted under its request id in the session's pending map (store
    tests, "adds to nested map", "accumulates multiple permissions"). *)
Definition addPermission (sid : string) (perm : PermissionRequest) (s : AppState)
    : AppState :=
  let sessionPerms := default ∅ (pendingPermissions s !! sid) in
  with_pendingPermissions
    (<[sid := <[request_id perm := perm]> sessionPerms]> (pendingPermissions s)) s.

(** Modelled from the spec: [removePermission] of the missing store; it
    deletes one request id from the session's pending map (store tests,
    "removes specific request"). *)
Definition removePermission (sid rid : string) (s : AppState) : AppState :=
  match pendingPermissions s !! sid with
  | Some sessionPerms =>
      with_pendingPermissions
        (<[sid := delete rid sessionPerms]> (pendingPermissions s)) s
  | None => s
  end.

(** Modelled from the spec: [addTask], [setTasks] and [updateTask] of the
    missing store: incremental add, full replacement, and a merge into the
    tasks with the given id (store tests, section "Tasks"). *)
Definition addTask (sid : string) (task : TaskItem) (s : AppState) : AppState :=
  let tasks := default [] (sessionTasks s !! sid) in
  with_sessionTasks (<[sid := tasks ++ [task]]> (sessionTasks s)) s.

Definition setTasks (sid : string) (tasks : list TaskItem) (s : AppState) : AppState :=
  with_sessionTasks (<[sid := tasks]> (sessionTasks s)) s.

Definition applyTaskPatch (u : TaskPatch) (t : TaskItem) : TaskItem :=
  {| task_id := task_id t;
     task_subject := task_subject t;
     task_description := task_description t;
     task_activeForm :=
       match up_activeForm u with Some a => Some a | None => task_activeForm t end;
     task_status := default (task_status t) (up_status u);
     task_owner := match up_owner u with Some o => Some o | None => task_owner t end;
     task_blockedBy :=
       match up_blockedBy u with Some b => Some b | None => task_blockedBy t end |}.

Definition updateTask (sid taskId : string) (u : TaskPatch) (s : AppState) : AppState :=
  match sessionTasks s !! sid with
  | Some tasks =>
      with_sessionTasks
        (<[sid := (λ t, if bool_decide (task_id t = taskId) then applyTaskPatch u t else t)
                   <$> tasks]> (sessionTasks s)) s
  | None => s
  end.

End Store.

(** ** The frame handler ([web/src/ws.ts]) *)

Module Ws.

(** The message of an [assistant] frame. *)
Record AssistantMessage := {
  am_id : option string;
  am_content : list ContentBlock;
  am_model : option string;
  am_stop_reason : option string;
}.

Record Delta := {
  delta_type : string;
  delta_text : option string;   (* [Some] when [typeof delta.text === "string"] *)
}.

(** The [event] of a [stream_event] frame, by its [type]. *)
Inductive StreamEvent :=
  | SeNotObject
  | SeMessageStart
  | SeContentBlockDelta (delta : option Delta)
  | SeMessageDelta (output_tokens : option Z)
  | SeOther.

Record ModelUsage := {
  inputTokens : Z;
  mu_outputTokens : Z;
  contextWindow : Z;
}.

Record ResultData := {
  r_total_cost_usd : Z;
  r_num_turns : Z;
  r_total_lines_added : option Z;
  r_total_lines_removed : option Z;
  r_modelUsage : option (list ModelUsage);   (* [Object.values(r.modelUsage)] *)
  r_is_error : bool;
  r_errors : option (list string);
}.

Inductive HistoryEntry :=
  | HUserMessage (content : string) (timestamp : Z)
  | HAssistant (message : AssistantMessage) (parent_tool_use_id : option string)
  | HResult (data : ResultData)
  | HOther.

(** [BrowserIncomingMessage], by its [type]. *)
Inductive BrowserIncomingMessage :=
  | session_init (session : SessionState)
  | session_update (session : SessionPatch)
  | assistant (message : AssistantMessage) (parent_tool_use_id : option string)
  | stream_event (event : StreamEvent)
  | result (data : ResultData)
  | permission_request (request : PermissionRequest)
  | permission_cancelled (rid : string)
  | tool_progress
  | tool_use_summary
  | status_change (status : option SessionStatus)
  | auth_status (error : option string)
  | error (message : string)
  | cli_disconnected
  | cli_connected
  | message_history (messages : list HistoryEntry)
  | other_type.

(** The module-level state of [ws.ts] next to the store. *)
Record World := {
  store : Store.AppState;
  taskCounters : gmap string nat;
  processedToolUseIds : gmap string (gset string);
  idCounter : nat;
}.

Definition with_store (f : Store.AppState → Store.AppState) (w : World) : World :=
  {| store := f (store w); taskCounters := taskCounters w;
     processedToolUseIds := processedToolUseIds w; idCounter := idCounter w |}.

Definition with_taskCounters (v : gmap string nat) (w : World) : World :=
  {| store := store w; taskCounters := v;
     processedToolUseIds := processedToolUseIds w; idCounter := idCounter w |}.

Definition with_processed (v : gmap string (gset string)) (w : World) : World :=
  {| store := store w; taskCounters := taskCounters w;
     processedToolUseIds := v; idCounter := idCounter w |}.

(** [getProcessedSet]: the session's set, created empty when missing. *)
Definition getProcessedSet (sessionId : string) (w : World) : gset string * World :=
  match processedToolUseIds w !! sessionId with
  | Some set => (set, w)
  | None => (∅, with_processed (<[sessionId := ∅]> (processedToolUseIds w)) w)
  end.

(** The set behind the reference that [getProcessedSet] returned. *)
Definition processed (sessionId : string) (w : World) : gset string :=
  default ∅ (processedToolUseIds w !! sessionId).

Definition todoTasks (todos : list TodoEntry) : list TaskItem :=
  imap (λ i t,
    {| task_id := pretty (S i);
       task_subject := or_else (todo_content t) "Task";
       task_description := "";
       task_activeForm := todo_activeForm t;
       task_status := or_else (todo_status t) "pending";
       task_owner := None;
       task_blockedBy := None |}) todos.

Definition createdTask (count : nat) (input : ToolInput) : TaskItem :=
  {| task_id := pretty count;
     task_subject := or_else (in_subject input) "Task";
     task_description := or_else (in_description input) "";
     task_activeForm := in_activeForm input;
     task_status := "pending";
     task_owner := None;
     task_blockedBy := None |}.

Definition taskUpdates (input : ToolInput) : TaskPatch :=
  {| up_status := if truthy (in_status input) then in_status input else None;
     up_owner := if truthy (in_owner input) then in_owner input else None;
     up_activeForm := in_activeForm input;
     up_blockedBy := in_addBlockedBy input |}.

(** The three tool names of the loop body, after the deduplication. *)
Definition applyTool (sessionId : string) (name : string) (input : ToolInput) (w : World)
    : World :=
  if bool_decide (name = "TodoWrite") then
    match in_todos input with
    | Some todos =>
        let tasks := todoTasks todos in
        with_taskCounters (<[sessionId := length tasks]> (taskCounters w))
          (with_store (Store.setTasks sessionId tasks) w)
    | None => w
    end
  else if bool_decide (name = "TaskCreate") then
    let count := (default 0%nat (taskCounters w !! sessionId) + 1)%nat in
    let w := with_taskCounters (<[sessionId := count]> (taskCounters w)) w in
    with_store (Store.addTask sessionId (createdTask count input)) w
  else if bool_decide (name = "TaskUpdate") then
    if truthy (in_taskId input) then
      with_store
        (Store.updateTask sessionId (default "" (in_taskId input)) (taskUpdates input)) w
    else w
  else w.

(** One iteration of the loop of [extractTasksFromBlocks]. *)
Definition extractBlock (sessionId : string) (w : World) (block : ContentBlock) : World :=
  match block with
  | BToolUse toolUseId (Some name) (Some input) =>
      if bool_decide (name = "") then w
      else
        match toolUseId with
        | Some tid =>
            if bool_decide (tid = "") then applyTool sessionId name input w
            else if bool_decide (tid ∈ processed sessionId w) then w
            else
              applyTool sessionId name input
                (with_processed
                   (<[sessionId := {[tid]} ∪ processed sessionId w]>
                      (processedToolUseIds w)) w)
        | None => applyTool sessionId name input w
        end
  | _ => w
  end.

Definition extractTasksFromBlocks (sessionId : string) (blocks : list ContentBlock)
    (w : World) : World :=
  let '(_, w) := getProcessedSet sessionId w in
  foldl (extractBlock sessionId) w blocks.

(** [nextId]: the counter is incremented, the id carries the clock. *)
Definition nextId (now : Z) (w : World) : string * World :=
  let n := S (idCounter w) in
  ("msg-" +:+ pretty now +:+ "-" +:+ pretty n,
   {| store := store w; taskCounters := taskCounters w;
      processedToolUseIds := processedToolUseIds w; idCounter := n |}).

Definition blockText (b : ContentBlock) : string :=
  match b with
  | BText text => text
  | BThinking thinking => thinking
  | _ => ""
  end.

Definition extractTextFromBlocks (blocks : list ContentBlock) : string :=
  String.concat "
" (filter (λ s, s ≠ "") (blockText <$> blocks)).

Definition systemMessage (id content : string) (now : Z) : ChatMessage :=
  {| msg_id := Some id; msg_role := RSystem; msg_content := content;
     msg_contentBlocks := None; msg_timestamp := now;
     msg_parentToolUseId := None; msg_model := None; msg_stopReason := None |}.

Definition assistantChatMessage (msg : AssistantMessage) (parent : option string) (now : Z)
    : ChatMessage :=
  {| msg_id := am_id msg; msg_role := RAssistant;
     msg_content := extractTextFromBlocks (am_content msg);
     msg_contentBlocks := Some (am_content msg); msg_timestamp := now;
     msg_parentToolUseId := parent; msg_model := am_model msg;
     msg_stopReason := am_stop_reason msg |}.

(** [Math.round(((inputTokens + outputTokens) / contextWindow) * 100)]: the
    counts are integers, the sum, the quotient and the product are those of
    doubles. *)
Definition contextPercent (u : ModelUsage) : Z :=
  Math_round
    (SpecFloat.SFmul 53 1024
       (SpecFloat.SFdiv 53 1024
          (SpecFloat.SFadd 53 1024 (double (inputTokens u)) (double (mu_outputTokens u)))
          (double (contextWindow u)))
       (double 100)).

(** The loop over [Object.values(r.modelUsage)]: the last usage with a
    positive context window decides. *)
Definition contextUsed (usages : list ModelUsage) : option Z :=
  foldl (λ acc u, if bool_decide (0 < contextWindow u) then Some (contextPercent u) else acc)
        None usages.

Definition sessionUpdates (r : ResultData) : SessionPatch :=
  {| pt_model := None; pt_cwd := None;
     pt_total_cost_usd := Some (r_total_cost_usd r);
     pt_num_turns := Some (r_num_turns r);
     pt_context_used_percent := from_option contextUsed None (r_modelUsage r);
     pt_total_lines_added := r_total_lines_added r;
     pt_total_lines_removed := r_total_lines_removed r |}.

(** [r.is_error && r.errors?.length] *)
Definition turnErrors (r : ResultData) : option (list string) :=
  if r_is_error r then
    match r_errors r with
    | Some (e :: es) => Some (e :: es)
    | _ => None
    end
  else None.

(** One entry of the loop of the [message_history] case: the messages
    collected so far and the state. *)
Definition historyStep (sessionId : string) (now : Z)
    (acc : list ChatMessage * World) (histMsg : HistoryEntry) : list ChatMessage * World :=
  let '(chatMessages, w) := acc in
  match histMsg with
  | HUserMessage content timestamp =>
      let '(id, w) := nextId now w in
      (chatMessages ++
         [{| msg_id := Some id; msg_role := RUser; msg_content := content;
             msg_contentBlocks := None; msg_timestamp := timestamp;
             msg_parentToolUseId := None; msg_model := None; msg_stopReason := None |}],
       w)
  | HAssistant msg parent =>
      (chatMessages ++ [assistantChatMessage msg parent now],
       match am_content msg with
       | [] => w
       | _ :: _ => extractTasksFromBlocks sessionId (am_content msg) w
       end)
  | HResult r =>
      match turnErrors r with
      | Some errors =>
          let '(id, w) := nextId now w in
          (chatMessages ++ [systemMessage id ("Error: " +:+ String.concat ", " errors) now], w)
      | None => (chatMessages, w)
      end
  | HOther => (chatMessages, w)
  end.

Section Handler.

(** [JSON.parse] of the runtime on the lines of the protocol: the value of
    a line that is a frame, typed as the handler's annotation
    [BrowserIncomingMessage] types it; it throws on a line that is not JSON.
    A line that is JSON of another shape ([null], an [assistant] frame
    without content) is outside the protocol and has no value of this type:
    the property reads of the handler, which stand after its [try] block,
    can throw on it. *)
Variable JSON_parse : string → Completion BrowserIncomingMessage.

(** [generateUniqueSessionName] of [utils/names.ts], given the names in use. *)
Variable generateUniqueSessionName : list string → string.

(** [handleMessage(sessionId, event)]: [now] is the clock read by
    [Date.now()], [data] the text of the event. The reads through the
    [store] constant go to the state at entry. *)
Definition handleMessage (now : Z) (sessionId : string) (data : string) (w : World)
    : Completion World :=
  let store0 := store w in
  match JSON_parse data with
  | Throws => Normal w
  | Normal frame =>
      Normal
        match frame with
        | session_init session =>
            let w := with_store (Store.addSession session) w in
            let w := with_store (Store.setCliConnected sessionId true) w in
            let w := with_store (Store.setSessionStatus sessionId (Some Idle)) w in
            match Store.sessionNames store0 !! sessionId with
            | Some _ => w
            | None =>
                let existingNames := (map_to_list (Store.sessionNames store0)).*2 in
                with_store
                  (Store.setSessionName sessionId (generateUniqueSessionName existingNames)) w
            end
        | session_update session =>
            with_store (Store.updateSession sessionId session) w
        | assistant msg parent =>
            let chatMsg := assistantChatMessage msg parent now in
            let w := with_store (Store.appendMessage sessionId chatMsg) w in
            let w := with_store (Store.setStreaming sessionId None) w in
            let w := with_store (Store.setSessionStatus sessionId (Some Running)) w in
            let w :=
              match Store.streamingStartedAt store0 !! sessionId with
              | Some _ => w
              | None =>
                  with_store
                    (Store.setStreamingStats sessionId
                       (Some {| startedAt := Some now; outputTokens := None |})) w
              end in
            match am_content msg with
            | [] => w
            | _ :: _ => extractTasksFromBlocks sessionId (am_content msg) w
            end
        | stream_event evt =>
            match evt with
            | SeMessageStart =>
                match Store.streamingStartedAt store0 !! sessionId with
                | Some _ => w
                | None =>
                    with_store
                      (Store.setStreamingStats sessionId
                         (Some {| startedAt := Some now; outputTokens := Some 0 |})) w
                end
            | SeContentBlockDelta (Some delta) =>
                match delta_text delta with
                | Some text =>
                    if bool_decide (delta_type delta = "text_delta") then
                      let current := or_else (Store.streaming store0 !! sessionId) "" in
                      with_store (Store.setStreaming sessionId (Some (current +:+ text))) w
                    else w
                | None => w
                end
            | SeMessageDelta (Some n) =>
                if bool_decide (n = 0) then w
                else
                  with_store
                    (Store.setStreamingStats sessionId
                       (Some {| startedAt := None; outputTokens := Some n |})) w
            | _ => w
            end
        | result r =>
            let w := with_store (Store.updateSession sessionId (sessionUpdates r)) w in
            let w := with_store (Store.setStreaming sessionId None) w in
            let w := with_store (Store.setStreamingStats sessionId None) w in
            let w := with_store (Store.setSessionStatus sessionId (Some Idle)) w in
            match turnErrors r with
            | Some errors =>
                let '(id, w) := nextId now w in
                with_store
                  (Store.appendMessage sessionId
                     (systemMessage id ("Error: " +:+ String.concat ", " errors) now)) w
            | None => w
            end
        | permission_request req =>
            let w := with_store (Store.addPermission sessionId req) w in
            match tool_name req, perm_input req with
            | Some name, Some input =>
                if bool_decide (name = "") then w
                else
                  extractTasksFromBlocks sessionId
                    [BToolUse (tool_use_id req) (Some name) (Some input)] w
            | _, _ => w
            end
        | permission_cancelled rid =>
            with_store (Store.removePermission sessionId rid) w
        | tool_progress => w
        | tool_use_summary => w
        | status_change status =>
            with_store (Store.setSessionStatus sessionId status) w
        | auth_status err =>
            if truthy err then
              let '(id, w) := nextId now w in
              with_store
                (Store.appendMessage sessionId
                   (systemMessage id ("Auth error: " +:+ default "" err) now)) w
            else w
        | error message =>
            let '(id, w) := nextId now w in
            with_store (Store.appendMessage sessionId (systemMessage id message now)) w
        | cli_disconnected =>
            let w := with_store (Store.setCliConnected sessionId false) w in
            with_store (Store.setSessionStatus sessionId None) w
        | cli_connected =>
            with_store (Store.setCliConnected sessionId true) w
        | message_history msgs =>
            let '(chatMessages, w) := foldl (historyStep sessionId now) ([], w) msgs in
            match chatMessages with
            | [] => w
            | _ :: _ => with_store (Store.setMessages sessionId chatMessages) w
            end
        | other_type => w
        end
  end.

(** The handler run on the frames of a socket in arrival order, each with
    the clock at its arrival; it stops at the first frame whose handling
    throws. *)
Fixpoint handleAll (sessionId : string) (frames : list (Z * string)) (w : World)
    : Completion World :=
  match frames with
  | [] => Normal w
  | (now, data) :: rest =>
      match handleMessage now sessionId data w with
      | Normal w => handleAll sessionId rest w
      | Throws => Throws
      end
  end.

End Handler.

End Ws.

(** ** The recovery paths of the server entry point *)

Module Server.

(** The [state] of a launcher record. *)
Inductive ProcState := starting | connected | running | exited.

#[export] Instance ProcState_eq_dec : EqDecision ProcState.
Proof. solve_decision. Defined.

Record SdkSessionInfo := {
  sessionId : string;
  state : ProcState;
  archived : bool;
}.

(** A callback handed to [setTimeout]. *)
Inductive Timer :=
  | ClearRelaunching (sid : string)   (* [() => relaunchingSet.delete(sessionId)] *)
  | Watchdog.                         (* the reconnection watchdog *)

#[export] Instance Timer_eq_dec : EqDecision Timer.
Proof. solve_decision. Defined.

(** Which of the two recovery paths called [launcher.relaunch]. *)
Inductive Path := OnDemand | BootWatchdog.

#[export] Instance Path_eq_dec : EqDecision Path.
Proof. solve_decision. Defined.

Record RelaunchCall := {
  call_path : Path;
  call_sid : string;
  call_time : N;
}.

(** The state of the entry point: the launcher's table, the guard set, the
    pending timers (sorted by due time), the clock in milliseconds since
    boot, the callbacks suspended at an [await launcher.relaunch], and the
    calls of [launcher.relaunch] made so far. *)
Record State := {
  launcher : gmap string SdkSessionInfo;
  relaunchingSet : gset string;
  timers : list (N * Timer);
  now : N;
  inflight : gset string;
  watchdog : option (list string);
  relaunchCalls : list RelaunchCall;
}.

Definition RECONNECT_GRACE_MS : N := 10000.
Definition RELAUNCH_COOLDOWN_MS : N := 5000.

(** Modelled from the spec: [getSession] of the launcher ([cli-launcher.ts]
    is missing), "read-only introspection". *)
Definition getSession (sid : string) (l : gmap string SdkSessionInfo)
    : option SdkSessionInfo := l !! sid.

(** Modelled from the spec: [getStartingSessions] of the missing launcher,
    the ids of the records in state [starting]. *)
Definition getStartingSessions (l : gmap string SdkSessionInfo) : list string :=
  (filter (λ kv, state kv.2 = starting) (map_to_list l)).*1.

(** Modelled from the spec: [markConnected] of the missing launcher; the
    record of an agent that dialled back is in state [connected]. *)
Definition markConnected (sid : string) (l : gmap string SdkSessionInfo)
    : gmap string SdkSessionInfo :=
  alter (λ i, {| sessionId := sessionId i; state := connected; archived := archived i |}) sid l.

(** Modelled from the spec: crash detection in the missing launcher, "the
    Supervisor observes process exit independent of WebSocket close"; the
    record of a process that exited is in state [exited]. *)
Definition markExited (sid : string) (l : gmap string SdkSessionInfo)
    : gmap string SdkSessionInfo :=
  alter (λ i, {| sessionId := sessionId i; state := exited; archived := archived i |}) sid l.

(** Modelled from the spec: the launcher side of [relaunch] in the missing
    launcher; a spawned process has "initial state [starting]". *)
Definition relaunched (sid : string) (l : gmap string SdkSessionInfo)
    : gmap string SdkSessionInfo :=
  alter (λ i, {| sessionId := sessionId i; state := starting; archived := archived i |}) sid l.

(** Modelled from the spec: the archived flag of a record, set by the
    session-management interface ("archive(id)"). *)
Definition setArchived (sid : string) (b : bool) (l : gmap string SdkSessionInfo)
    : gmap string SdkSessionInfo :=
  alter (λ i, {| sessionId := sessionId i; state := state i; archived := b |}) sid l.

Definition isArchived (sid : string) (l : gmap string SdkSessionInfo) : bool :=
  match l !! sid with
  | Some i => archived i
  | None => false
  end.

(** A call [launcher.relaunch(sid)] by one of the paths: it is recorded, and
    the launcher starts the process again. *)
Definition relaunch (p : Path) (sid : string) (st : State) : State :=
  {| launcher := relaunched sid (launcher st);
     relaunchingSet := relaunchingSet st;
     timers := timers st;
     now := now st;
     inflight := inflight st;
     watchdog := watchdog st;
     relaunchCalls := relaunchCalls st ++ [{| call_path := p; call_sid := sid; call_time := now st |}] |}.

(** [setTimeout(cb, delay)]: the timer is queued behind those due no later. *)
Fixpoint addTimer (due : N) (cb : Timer) (ts : list (N * Timer)) : list (N * Timer) :=
  match ts with
  | [] => [(due, cb)]
  | (d, c) :: rest =>
      if bool_decide (d ≤ due)%N then (d, c) :: addTimer due cb rest
      else (due, cb) :: (d, c) :: rest
  end.

Definition with_launcher (l : gmap string SdkSessionInfo) (st : State) : State :=
  {| launcher := l; relaunchingSet := relaunchingSet st; timers := timers st;
     now := now st; inflight := inflight st; watchdog := watchdog st;
     relaunchCalls := relaunchCalls st |}.

Definition with_relaunchingSet (v : gset string) (st : State) : State :=
  {| launcher := launcher st; relaunchingSet := v; timers := timers st;
     now := now st; inflight := inflight st; watchdog := watchdog st;
     relaunchCalls := relaunchCalls st |}.

Definition with_timers (v : list (N * Timer)) (st : State) : State :=
  {| launcher := launcher st; relaunchingSet := relaunchingSet st; timers := v;
     now := now st; inflight := inflight st; watchdog := watchdog st;
     relaunchCalls := relaunchCalls st |}.

Definition with_now (v : N) (st : State) : State :=
  {| launcher := launcher st; relaunchingSet := relaunchingSet st; timers := timers st;
     now := v; inflight := inflight st; watchdog := watchdog st;
     relaunchCalls := relaunchCalls st |}.

Definition with_inflight (v : gset string) (st : State) : State :=
  {| launcher := launcher st; relaunchingSet := relaunchingSet st; timers := timers st;
     now := now st; inflight := v; watchdog := watchdog st;
     relaunchCalls := relaunchCalls st |}.

Definition with_watchdog (v : option (list string)) (st : State) : State :=
  {| launcher := launcher st; relaunchingSet := relaunchingSet st; timers := timers st;
     now := now st; inflight := inflight st; watchdog := v;
     relaunchCalls := relaunchCalls st |}.

(** The callback registered with [onCLIRelaunchNeededCallback], up to its
    [await]: the guards, then the call of [launcher.relaunch]. *)
Definition relaunchNeeded (sid : string) (st : State) : State :=
  if bool_decide (sid ∈ relaunchingSet st) then st
  else
    match getSession sid (launcher st) with
    | Some info =>
        if archived info then st
        else if bool_decide (state info ≠ starting) then
          let st := with_relaunchingSet ({[sid]} ∪ relaunchingSet st) st in
          let st := relaunch OnDemand sid st in
          with_inflight ({[sid]} ∪ inflight st) st
        else st
    | None => st
    end.

(** The [finally] of the callback, once the awaited relaunch has settled:
    the guard is dropped by a timer, 5000 ms later. *)
Definition relaunchSettled (sid : string) (st : State) : State :=
  if bool_decide (sid ∈ inflight st) then
    let st := with_inflight (inflight st ∖ {[sid]}) st in
    with_timers (addTimer (now st + RELAUNCH_COOLDOWN_MS)%N (ClearRelaunching sid) (timers st)) st
  else st.

(** The body of the watchdog's loop over the sessions still to visit, run
    up to its next [await]: archived ones are skipped, the first other one is
    relaunched and the loop is suspended with the rest. The [archived] flag
    is read from the launcher's record, which the loop holds by reference. *)
Fixpoint watchdogLoop (stale : list string) (st : State) : State :=
  match stale with
  | [] => with_watchdog None st
  | sid :: rest =>
      if isArchived sid (launcher st) then watchdogLoop rest st
      else with_watchdog (Some rest) (relaunch BootWatchdog sid st)
  end.

(** The watchdog's callback when the relaunch it awaits has settled: the
    loop goes on with the sessions still to visit when the promise is
    fulfilled; when it is rejected the [await] throws, nothing catches it and
    the loop is abandoned. *)
Definition watchdogResumed (ok : bool) (st : State) : State :=
  match watchdog st with
  | Some rest => if ok then watchdogLoop rest st else with_watchdog None st
  | None => st
  end.

(** The callback of a timer. *)
Definition runTimer (cb : Timer) (st : State) : State :=
  match cb with
  | ClearRelaunching sid => with_relaunchingSet (relaunchingSet st ∖ {[sid]}) st
  | Watchdog => watchdogLoop (getStartingSessions (launcher st)) st
  end.

(** The clock reaches [t]: the timers due by then run, in the order of
    their due times. *)
Definition advance (t : N) (st : State) : State :=
  let due := filter (λ x, (x.1 ≤ t)%N) (timers st) in
  let rest := filter (λ x, ¬ (x.1 ≤ t)%N) (timers st) in
  foldl (λ st x, runTimer x.2 st) (with_now (N.max (now st) t) (with_timers rest st)) due.

(** What can happen to the running server, as far as the recovery paths
    are concerned. *)
Inductive Event :=
  | CliOpen (sid : string)            (* an agent socket opens: [launcher.markConnected] *)
  | RelaunchNeeded (sid : string)     (* the bridge asks for a relaunch *)
  | RelaunchSettled (sid : string)    (* the relaunch awaited by the callback settles *)
  | WatchdogResumed (ok : bool)       (* the relaunch awaited by the watchdog is
                                         fulfilled ([true]) or rejected *)
  | Advance (t : N)                   (* time passes *)
  | SetArchived (sid : string) (b : bool)
  | ProcessExited (sid : string).     (* the launcher sees the process of a session exit *)

#[export] Instance Event_eq_dec : EqDecision Event.
Proof. solve_decision. Defined.

Definition step (st : State) (e : Event) : State :=
  match e with
  | CliOpen sid => with_launcher (markConnected sid (launcher st)) st
  | RelaunchNeeded sid => relaunchNeeded sid st
  | RelaunchSettled sid => relaunchSettled sid st
  | WatchdogResumed ok => watchdogResumed ok st
  | Advance t => advance t st
  | SetArchived sid b => with_launcher (setArchived sid b (launcher st)) st
  | ProcessExited sid => with_launcher (markExited sid (launcher st)) st
  end.

Definition run (st : State) (evs : list Event) : State := foldl step st evs.

(** The entry point after [restoreFromDisk], given the launcher's restored
    table: the watchdog is armed when some session is [starting]. *)
Definition boot (l : gmap string SdkSessionInfo) : State :=
  {| launcher := l;
     relaunchingSet := ∅;
     timers :=
       match getStartingSessions l with
       | [] => []
       | _ :: _ => [(RECONNECT_GRACE_MS, Watchdog)]
       end;
     now := 0%N;
     inflight := ∅;
     watchdog := None;
     relaunchCalls := [] |}.

(** The calls of [launcher.relaunch] for one session, all or by path. *)
Definition callsFor (sid : string) (st : State) : list RelaunchCall :=
  filter (λ c, call_sid c = sid) (relaunchCalls st).

Definition callsBy (p : Path) (sid : string) (st : State) : list RelaunchCall :=
  filter (λ c, call_path c = p ∧ call_sid c = sid) (relaunchCalls st).

End Server.

(** ** The push manager ([web/server/push-manager.ts]) *)

Module PushManager.

Record Keys := {
  p256dh : string;
  auth : string;
}.

Record PushSubscriptionData := {
  endpoint : string;
  keys : Keys;
}.

Record VapidKeys := {
  publicKey : string;
  privateKey : string;
}.

Record PushPayload := {
  title : string;
  body : string;
  data_sessionId : option string;
  data_type : option string;
}.

(** A file of the companion directory: missing, not JSON, or the JSON text
    of a value. *)
Inductive File (A : Type) : Type :=
  | Missing
  | Corrupt
  | Content (a : A).
Arguments Missing {A}.
Arguments Corrupt {A}.
Arguments Content {A} a.

(** The two files and the module's cache of the keys. *)
Record State := {
  vapidFile : File VapidKeys;
  subscriptionsFile : File (list PushSubscriptionData);
  vapidKeys : option VapidKeys;
}.

Definition loadSubscriptions (st : State) : list PushSubscriptionData :=
  match subscriptionsFile st with
  | Content subs => subs
  | _ => []
  end.

Definition saveSubscriptions (subs : list PushSubscriptionData) (st : State) : State :=
  {| vapidFile := vapidFile st; subscriptionsFile := Content subs;
     vapidKeys := vapidKeys st |}.

(** [subs.findIndex((s) => s.endpoint === endpoint)] *)
Definition findIndex (ep : string) (subs : list PushSubscriptionData) : option nat :=
  fst <$> list_find (λ s, endpoint s = ep) subs.

Definition addSubscription (sub : PushSubscriptionData) (st : State) : State :=
  let subs := loadSubscriptions st in
  match findIndex (endpoint sub) subs with
  | Some existing => saveSubscriptions (<[existing := sub]> subs) st
  | None => saveSubscriptions (subs ++ [sub]) st
  end.

Definition removeSubscription (ep : string) (st : State) : bool * State :=
  let subs := loadSubscriptions st in
  let filtered := filter (λ s, endpoint s ≠ ep) subs in
  if bool_decide (length filtered = length subs) then (false, st)
  else (true, saveSubscriptions filtered st).

Definition getAllSubscriptions (st : State) : list PushSubscriptionData :=
  loadSubscriptions st.

(** How one [webpush.sendNotification] settles: it resolves, or rejects
    with an error that may carry a [statusCode], or rejects with a value
    whose [statusCode] cannot be read. *)
Inductive SendOutcome :=
  | Resolved
  | Rejected (statusCode : option Z)
  | RejectedUnreadable.

Section Sending.

(** [webpush.generateVAPIDKeys()] *)
Variable generateVAPIDKeys : VapidKeys.

(** [webpush.setVapidDetails(subject, publicKey, privateKey)]: it returns,
    or throws when it does not accept the subject or the keys. *)
Variable setVapidDetails : string → string → string → Completion unit.

(** [webpush.sendNotification], by the position of the call, the
    subscription and the payload. *)
Variable sendNotification : nat → PushSubscriptionData → PushPayload → SendOutcome.

Definition loadVapidKeys (st : State) : Completion (VapidKeys * State) :=
  match vapidKeys st with
  | Some k => Normal (k, st)
  | None =>
      match vapidFile st with
      | Content k =>
          Normal (k, {| vapidFile := vapidFile st;
                        subscriptionsFile := subscriptionsFile st;
                        vapidKeys := Some k |})
      | Corrupt => Throws
      | Missing =>
          let k := generateVAPIDKeys in
          Normal (k, {| vapidFile := Content k;
                        subscriptionsFile := subscriptionsFile st;
                        vapidKeys := Some k |})
      end
  end.

(** The [catch] of one send: only 410 and 404 mark the endpoint expired. *)
Definition isExpired (o : SendOutcome) : bool :=
  match o with
  | Rejected (Some code) => bool_decide (code = 410) || bool_decide (code = 404)
  | _ => false
  end.

(** The endpoints pushed to [expired] by the sends to [subs]. *)
Definition expiredEndpoints (payload : PushPayload) (subs : list PushSubscriptionData)
    : list string :=
  omap (λ x, if isExpired (sendNotification x.1 x.2 payload) then Some (endpoint x.2) else None)
       (imap pair subs).

(** The clean-up after [Promise.allSettled], on the file as it then is. *)
Definition cleanUp (expired : list string) (st : State) : State :=
  match expired with
  | [] => st
  | _ :: _ =>
      saveSubscriptions
        (filter (λ s, endpoint s ∉ expired) (loadSubscriptions st)) st
  end.

(** [sendPushToAll]: how the call completes and the state it leaves. The
    keys are loaded and handed to [webpush.setVapidDetails] before any send,
    outside of any [try]: when either throws, no notification is sent and
    the call throws; the keys that were loaded stay cached. *)
Definition sendPushToAll (payload : PushPayload) (st : State) : Completion unit * State :=
  let subs := loadSubscriptions st in
  match subs with
  | [] => (Normal (), st)
  | _ :: _ =>
      match loadVapidKeys st with
      | Throws => (Throws, st)
      | Normal (keys, st) =>
          match setVapidDetails "mailto:companion@localhost"
                  (publicKey keys) (privateKey keys) with
          | Throws => (Throws, st)
          | Normal _ => (Normal (), cleanUp (expiredEndpoints payload subs) st)
          end
      end
  end.

End Sending.

End PushManager.

(** ** Closing the connections of the page ([web/src/ws.ts]) *)

Module Connections.
Import Ws.

(** The module-level state of [ws.ts]: the state that the frame handler
    works on, the socket and the pending reconnect timer of each session
    (as handles), and the handles that [close()] and [clearTimeout] were
    called on. *)
Record Page := {
  world : World;
  sockets : gmap string positive;
  reconnectTimers : gmap string positive;
  closed : gset positive;
  cleared : gset positive;
}.

Definition disconnectSession (sessionId : string) (p : Page) : Page :=
  let '(reconnectTimers, cleared) :=
    match reconnectTimers p !! sessionId with
    | Some timer => (delete sessionId (reconnectTimers p), {[timer]} ∪ cleared p)
    | None => (reconnectTimers p, cleared p)
    end in
  let '(sockets, closed) :=
    match sockets p !! sessionId with
    | Some ws => (delete sessionId (sockets p), {[ws]} ∪ closed p)
    | None => (sockets p, closed p)
    end in
  {| world :=
       with_taskCounters (delete sessionId (taskCounters (world p)))
         (with_processed (delete sessionId (processedToolUseIds (world p))) (world p));
     sockets := sockets;
     reconnectTimers := reconnectTimers;
     closed := closed;
     cleared := cleared |}.

(** [for (const [id] of sockets) disconnectSession(id)]: every session
    that has a socket when the loop starts is visited once, since a visit
    deletes the entry of the visited session only. *)
Definition disconnectAll (p : Page) : Page :=
  foldl (λ p id, disconnectSession id p) p (map_to_list (sockets p)).*1.

(** What happens on the page, as far as the maps of this module go: a
    frame arrives on the socket of a session ([ws.onmessage]), or the
    application closes connections. *)
Inductive PageEvent :=
  | Received (sessionId : string) (now : Z) (data : string)
  | Disconnect (sessionId : string)
  | DisconnectAll.

Definition with_world (w : World) (p : Page) : Page :=
  {| world := w; sockets := sockets p; reconnectTimers := reconnectTimers p;
     closed := closed p; cleared := cleared p |}.

Section Events.

Variable JSON_parse : string → Completion BrowserIncomingMessage.
Variable generateUniqueSessionName : list string → string.

Definition pageStep (p : Page) (e : PageEvent) : Completion Page :=
  match e with
  | Received sessionId now data =>
      match handleMessage JSON_parse generateUniqueSessionName now sessionId data (world p) with
      | Normal w => Normal (with_world w p)
      | Throws => Throws
      end
  | Disconnect sessionId => Normal (disconnectSession sessionId p)
  | DisconnectAll => Normal (disconnectAll p)
  end.

(** The events in order, up to the first one that throws. *)
Fixpoint pageRun (p : Page) (evs : list PageEvent) : Completion Page :=
  match evs with
  | [] => Normal p
  | e :: rest =>
      match pageStep p e with
      | Normal p => pageRun p rest
      | Throws => Throws
      end
  end.

End Events.

End Connections.

(** ** The tunnel configuration ([tunnel-config.ts]) *)

Module TunnelConfig.

(** [TunnelConfig]; the file is parsed without validation, so a field that
    the access checks test for truthiness may be missing. *)
Record TunnelConfig := {
  tunnelName : string;
  tunnelId : string;
  hostname : string;
  credentialsFile : string;
  teamDomain : option string;
  audienceTag : option string;
  createdAt : Z;
  updatedAt : Z;
}.

(** The file [tunnel.json]: missing, unreadable as JSON, or the JSON text of
    a configuration. *)
Inductive ConfigFile :=
  | NoFile
  | NotJson
  | Json (config : TunnelConfig).

(** [loadConfig]: [null] when reading or parsing throws. *)
Definition loadConfig (file : ConfigFile) : option TunnelConfig :=
  match file with
  | Json config => Some config
  | _ => None
  end.

End TunnelConfig.

(** ** Cloudflare Access verification ([cf-access-middleware.ts]) *)

Module CfAccess.

Import TunnelConfig.

Definition CACHE_TTL_MS : Z := 60 * 60 * 1000.

(** The object returned by [createRemoteJWKSet]: the URL it fetches the
    keys from, and which call of [createRemoteJWKSet] made it. *)
Record JWKS := {
  certsUrl : string;
  serial : nat;
}.

#[export] Instance JWKS_eq_dec : EqDecision JWKS.
Proof. solve_decision. Defined.

Record Cached := {
  jwks : JWKS;
  cachedAt : Z;       (* [createdAt] *)
}.

(** [jwksCache], and the number of key sets created so far. *)
Record Cache := {
  jwksCache : gmap string Cached;
  created : nat;
}.

Record VerifyOptions := {
  issuer : string;
  audience : option string;
}.

(** The outcome of the middleware: the next handler runs, with the
    [cfAccessEmail] variable set or not, or the request is answered 403. *)
Inductive Outcome :=
  | Next (cfAccessEmail : option string)
  | Denied.

Section Verify.

(** [new URL(text)]: the parsed URL, or a [TypeError]. *)
Variable newURL : string → Completion string.

(** [jwtVerify] of [jose]: the [email] claim of the verified payload, or a
    rejection. *)
Variable jwtVerify : string → JWKS → VerifyOptions → Completion (option string).

(** [getJWKS]: [now] and [now'] are the two readings of [Date.now()], for
    the freshness test and for the new entry. *)
Definition getJWKS (now now' : Z) (teamDomain : string) (c : Cache)
    : Completion (JWKS * Cache) :=
  let fresh :=
    match newURL ("https://" +:+ teamDomain
                  +:+ ".cloudflareaccess.com/cdn-cgi/access/certs") with
    | Normal url =>
        let j := {| certsUrl := url; serial := created c |} in
        Normal (j, {| jwksCache :=
                        <[teamDomain := {| jwks := j; cachedAt := now' |}]> (jwksCache c);
                      created := S (created c) |})
    | Throws => Throws
    end in
  match jwksCache c !! teamDomain with
  | Some cached =>
      if bool_decide (now - cachedAt cached < CACHE_TTL_MS) then Normal (jwks cached, c)
      else fresh
  | None => fresh
  end.

(** [verifyAccessJwt]: the [email] of the payload, or a rejection; the
    cache is left as [getJWKS] left it. *)
Definition verifyAccessJwt (now now' : Z) (token teamDomain : string)
    (audienceTag : option string) (c : Cache) : Completion (option string) * Cache :=
  match getJWKS now now' teamDomain c with
  | Throws => (Throws, c)
  | Normal (j, c') =>
      let verifyOptions :=
        {| issuer := "https://" +:+ teamDomain +:+ ".cloudflareaccess.com";
           audience := if truthy audienceTag then audienceTag else None |} in
      (jwtVerify token j verifyOptions, c')
  end.

(** The handler returned by [cfAccessMiddleware()], on a request with the
    given [Cf-Access-Jwt-Assertion] header. *)
Definition cfAccessMiddleware (now now' : Z) (file : ConfigFile) (header : option string)
    (c : Cache) : Outcome * Cache :=
  match loadConfig file with
  | None => (Next None, c)
  | Some config =>
      if truthy (teamDomain config) then
        if truthy header then
          match verifyAccessJwt now now' (default "" header) (default "" (teamDomain config))
                  (audienceTag config) c with
          | (Normal email, c') => (Next (if truthy email then email else None), c')
          | (Throws, c') => (Denied, c')
          end
        else (Next None, c)
      else (Next None, c)
  end.

End Verify.

End CfAccess.

(** ** The request handler of the server entry point *)

Module Fetch.

Import TunnelConfig CfAccess.

(** [SocketData], by its [kind]. *)
Inductive SocketData :=
  | CliData (sessionId : string)
  | BrowserData (sessionId : string)
  | TerminalData (terminalId : string).

(** What [fetch] answers. *)
Inductive Response :=
  | Forbidden                     (* 403, "Access denied" *)
  | Upgraded (data : SocketData)  (* [undefined], after [server.upgrade] succeeded *)
  | BadRequest                    (* 400, "WebSocket upgrade failed" *)
  | FromApp.                      (* [app.fetch(req, server)] *)

(** The character class [[a-f0-9-]]. *)
Definition idChar (c : Ascii.ascii) : bool :=
  let n := Ascii.N_of_ascii c in
  ((97 <=? n) && (n <=? 102) || (48 <=? n) && (n <=? 57) || (n =? 45))%N.

(** What follows [prefix] in [s], when [s] starts with it. *)
Fixpoint afterPrefix (prefix s : string) : option string :=
  match prefix with
  | EmptyString => Some s
  | String c prefix =>
      match s with
      | String d s => if bool_decide (c = d) then afterPrefix prefix s else None
      | EmptyString => None
      end
  end.

Fixpoint allIdChars (s : string) : bool :=
  match s with
  | EmptyString => true
  | String c s => idChar c && allIdChars s
  end.

(** [pathname.match(/^<prefix>([a-f0-9-]+)$/)]: the captured id. *)
Definition matchRoute (prefix pathname : string) : option string :=
  match afterPrefix prefix pathname with
  | Some rest => if bool_decide (rest ≠ "") && allIdChars rest then Some rest else None
  | None => None
  end.

Section Serve.

Variable newURL : string → Completion string.
Variable jwtVerify : string → JWKS → VerifyOptions → Completion (option string).

(** [server.upgrade(req, { data })] *)
Variable upgrade : SocketData → bool.

Definition tryUpgrade (data : SocketData) : Response :=
  if upgrade data then Upgraded data else BadRequest.

(** The three socket routes of [fetch], tried in order, and the
    application behind them. *)
Definition route (pathname : string) : Response :=
  match matchRoute "/ws/cli/" pathname with
  | Some sessionId => tryUpgrade (CliData sessionId)
  | None =>
      match matchRoute "/ws/browser/" pathname with
      | Some sessionId => tryUpgrade (BrowserData sessionId)
      | None =>
          match matchRoute "/ws/terminal/" pathname with
          | Some terminalId => tryUpgrade (TerminalData terminalId)
          | None => FromApp
          end
      end
  end.

(** [fetch(req, server)], on a request with the given path and
    [Cf-Access-Jwt-Assertion] header: the access check, then the routes. *)
Definition fetch (now now' : Z) (file : ConfigFile) (pathname : string)
    (jwt : option string) (c : Cache) : Response * Cache :=
  if truthy jwt then
    match loadConfig file with
    | Some tunnelCfg =>
        if truthy (teamDomain tunnelCfg) then
          match verifyAccessJwt newURL jwtVerify now now' (default "" jwt)
                  (default "" (teamDomain tunnelCfg)) (audienceTag tunnelCfg) c with
          | (Normal _, c') => (route pathname, c')
          | (Throws, c') => (Forbidden, c')
          end
        else (route pathname, c)
    | None => (route pathname, c)
    end
  else (route pathname, c).

End Serve.

End Fetch.

(** ** The exported functions of the push manager as calls *)

Module PushOps.

Import PushManager.

Section Calls.

Variable generateVAPIDKeys : VapidKeys.
Variable setVapidDetails : string → string → string → Completion unit.
Variable sendNotification : nat → PushSubscriptionData → PushPayload → SendOutcome.

(** [getVapidPublicKey] *)
Definition getVapidPublicKey (st : State) : Completion (string * State) :=
  match loadVapidKeys generateVAPIDKeys st with
  | Normal (k, st) => Normal (publicKey k, st)
  | Throws => Throws
  end.

(** A call of one of the exported functions. *)
Inductive Call :=
  | GetVapidPublicKey
  | AddSubscription (sub : PushSubscriptionData)
  | RemoveSubscription (ep : string)
  | GetAllSubscriptions
  | SendPushToAll (payload : PushPayload).

(** The state after a call, whether it returns or throws. *)
Definition call (st : State) (c : Call) : State :=
  match c with
  | GetVapidPublicKey =>
      match getVapidPublicKey st with Normal (_, st') => st' | Throws => st end
  | AddSubscription sub => addSubscription sub st
  | RemoveSubscription ep => (removeSubscription ep st).2
  | GetAllSubscriptions => st
  | SendPushToAll payload =>
      (sendPushToAll generateVAPIDKeys setVapidDetails sendNotification payload st).2
  end.

End Calls.

(** The module as a new process finds it: the files as they are, no keys
    cached. *)
Definition restart (st : State) : State :=
  {| vapidFile := vapidFile st; subscriptionsFile := subscriptionsFile st;
     vapidKeys := None |}.

(** The keys are in the file and in the cache. *)
Definition keyed (k : VapidKeys) (st : State) : Prop :=
  vapidFile st = Content k ∧ vapidKeys st = Some k.

(** A state without subscriptions whose key file cannot be read. *)
Definition brokenKeys : State :=
  {| vapidFile := Corrupt; subscriptionsFile := Missing; vapidKeys := None |}.

End PushOps.

(** ** Observations and sample data *)

Module Obs.

Import Ws.

(** The messages, tasks and pending requests of one session. *)
Definition stored (sid : string) (s : Store.AppState) : list ChatMessage :=
  default [] (Store.messages s !! sid).

Definition messagesOf (sid : string) (w : World) : list ChatMessage :=
  stored sid (store w).

Definition tasksOf (sid : string) (w : World) : list TaskItem :=
  default [] (Store.sessionTasks (store w) !! sid).

Definition pendingOf (sid : string) (w : World) : gmap string PermissionRequest :=
  default ∅ (Store.pendingPermissions (store w) !! sid).

(** [s'] differs from [s] in the task lists at most. *)
Definition tasksOnly (s s' : Store.AppState) : Prop :=
  Store.with_sessionTasks (Store.sessionTasks s) s' = s.

(** A message with the given id, or without one. *)
Definition sampleMessage (id : option string) (content : string) : ChatMessage :=
  {| msg_id := id; msg_role := RUser; msg_content := content;
     msg_contentBlocks := None; msg_timestamp := 0;
     msg_parentToolUseId := None; msg_model := None; msg_stopReason := None |}.

Definition emptyWorld : World :=
  {| store := Store.empty; taskCounters := ∅; processedToolUseIds := ∅; idCounter := 0 |}.

Definition sampleAssistant (id : string) (content : list ContentBlock) : AssistantMessage :=
  {| am_id := Some id; am_content := content; am_model := None; am_stop_reason := None |}.

Definition sampleInput (subject : string) : ToolInput :=
  {| in_todos := None; in_subject := Some subject; in_description := None;
     in_activeForm := None; in_taskId := None; in_status := None;
     in_owner := None; in_addBlockedBy := None |}.

Definition sampleResult : ResultData :=
  {| r_total_cost_usd := 0; r_num_turns := 1; r_total_lines_added := None;
     r_total_lines_removed := None; r_modelUsage := None; r_is_error := false;
     r_errors := None |}.

Definition sampleRequest (rid : string) : PermissionRequest :=
  {| request_id := rid; tool_name := Some "TaskCreate";
     perm_input := Some (sampleInput "Review"); perm_timestamp := 0;
     tool_use_id := Some "toolu_9" |}.

(** A stand-in for [JSON.parse] on the lines of the examples: the listed
    lines stand for the text of the frames next to them, any other line is
    not JSON. *)
Definition sampleFrames : list (string * BrowserIncomingMessage) :=
  [ ("<assistant m1>", assistant (sampleAssistant "m1" [BText "hello"]) None);
    ("<assistant m2 TaskCreate toolu_1>",
     assistant (sampleAssistant "m2"
                  [BToolUse (Some "toolu_1") (Some "TaskCreate") (Some (sampleInput "Plan"))])
               None);
    ("<assistant m3 TaskCreate toolu_1>",
     assistant (sampleAssistant "m3"
                  [BToolUse (Some "toolu_1") (Some "TaskCreate") (Some (sampleInput "Plan"))])
               None);
    ("<result>", result sampleResult);
    ("<delta>",
     stream_event (SeContentBlockDelta
                     (Some {| delta_type := "text_delta"; delta_text := Some "par" |})));
    ("<permission r1>", permission_request (sampleRequest "r1"));
    ("<cancel r1>", permission_cancelled "r1") ].

Definition sampleParse (line : string) : Completion BrowserIncomingMessage :=
  match (list_to_map sampleFrames : gmap string BrowserIncomingMessage) !! line with
  | Some frame => Normal frame
  | None => Throws
  end.

Definition sampleNames (existing : list string) : string := "session".

(** The tool-use block that a permission request stands for. *)
Definition permissionBlock (req : PermissionRequest) : ContentBlock :=
  BToolUse (tool_use_id req) (tool_name req) (perm_input req).

(** A state with the requests ["r1"] and ["r2"] of session ["s1"] pending. *)
Definition twoPending : World :=
  with_store (Store.addPermission "s1" (sampleRequest "r2"))
    (with_store (Store.addPermission "s1" (sampleRequest "r1")) emptyWorld).

(** The streaming scratch state of all sessions. *)
Definition streamingOf (s : Store.AppState) :=
  (Store.streaming s, Store.streamingStartedAt s, Store.streamingOutputTokens s).

(** A store, and a state, without the streaming scratch state: the
    in-progress texts, the start timestamps and the output-token counters
    of all sessions. *)
Definition scrubbed (s : Store.AppState) : Store.AppState :=
  Store.with_streaming ∅ (Store.with_stats ∅ ∅ s).

Definition withoutScratch (w : World) : World := with_store scrubbed w.

(** A state in the middle of a streamed turn of session ["s1"]. *)
Definition midStream : World :=
  with_store
    (Store.setStreamingStats "s1" (Some {| startedAt := Some 100; outputTokens := Some 42 |}))
    (with_store (Store.setStreaming "s1" (Some "par")) emptyWorld).

End Obs.

Module PushObs.

Import PushManager.

(** The endpoints stored, in order. *)
Definition endpoints (st : State) : list string := endpoint <$> loadSubscriptions st.

Definition sampleSub (ep key : string) : PushSubscriptionData :=
  {| endpoint := ep; keys := {| p256dh := key; auth := key |} |}.

Definition sampleKeys : VapidKeys := {| publicKey := "BPublic"; privateKey := "private" |}.

Definition samplePayload : PushPayload :=
  {| title := "Test"; body := "Hello"; data_sessionId := None; data_type := None |}.

(** A state with three subscriptions stored and no key file yet. *)
Definition threeSubs : State :=
  {| vapidFile := Missing;
     subscriptionsFile :=
       Content [sampleSub "https://push.example.com/sub" "k1";
                sampleSub "https://push.example.com/expired" "k2";
                sampleSub "https://push.example.com/flaky" "k3"];
     vapidKeys := None |}.

(** The first send succeeds, the second is rejected with 410, the others
    with 500. *)
(** A stand-in for the check of [webpush.setVapidDetails]: a public key
    that starts with [B], as the base64 text of an uncompressed point
    does, is accepted. *)
Definition sampleCheck (subject publicKey privateKey : string) : Completion unit :=
  match publicKey with
  | String c _ => if bool_decide (c = Ascii.Ascii false true false false false false true false)
                  then Normal () else Throws
  | EmptyString => Throws
  end.

(** Keys that [sampleCheck] does not accept. *)
Definition badKeys : VapidKeys := {| publicKey := "not-a-key"; privateKey := "private" |}.

(** The three subscriptions next to a key file that holds [badKeys]. *)
Definition threeSubsBadKeys : State :=
  {| vapidFile := Content badKeys;
     subscriptionsFile := subscriptionsFile threeSubs;
     vapidKeys := None |}.

Definition sampleSend (i : nat) (sub : PushSubscriptionData) (payload : PushPayload)
    : SendOutcome :=
  match i with
  | O => Resolved
  | S O => Rejected (Some 410)
  | _ => Rejected (Some 500)
  end.

End PushObs.

Module ServerObs.
Import Server.

(** The session ids with a cooldown timer pending. *)
Definition clears (ts : list (N * Timer)) : list string :=
  omap (λ x, match x.2 with ClearRelaunching s => Some s | Watchdog => None end) ts.

(** The pending watchdog timers. *)
Definition watchdogTimers (ts : list (N * Timer)) : list (N * Timer) :=
  filter (λ x, x.2 = Watchdog) ts.

(** The guard set covers the relaunches in flight and the cooldowns, and a
    session has at most one of them. *)
Definition guarded (st : State) : Prop :=
  (∀ s, s ∈ inflight st → s ∈ relaunchingSet st ∧ s ∉ clears (timers st))
  ∧ (∀ s, s ∈ clears (timers st) → s ∈ relaunchingSet st)
  ∧ NoDup (clears (timers st)).

(** The agent of [sid] does not dial back, its process is not seen to exit
    and its archived flag is not touched. *)
Definition quiet (sid : string) (e : Event) : Prop :=
  match e with
  | CliOpen s => s ≠ sid
  | SetArchived s _ => s ≠ sid
  | ProcessExited s => s ≠ sid
  | _ => True
  end.

(** Time stays before [T]. *)
Definition before (T : N) (e : Event) : Prop :=
  match e with
  | Advance t => (t < T)%N
  | _ => True
  end.

(** A relaunch of [sid] by the callback is in flight. *)
Definition inFlight (sid : string) (st : State) : Prop :=
  sid ∈ relaunchingSet st ∧ sid ∈ inflight st ∧ sid ∉ clears (timers st).

(** The relaunch of [sid] has settled and its cooldown runs until [T]. *)
Definition coolingDown (sid : string) (T : N) (st : State) : Prop :=
  sid ∈ relaunchingSet st ∧ (sid ∉ inflight st)
  ∧ (∀ d, (d, ClearRelaunching sid) ∈ timers st → (T ≤ d)%N).

(** A launcher table with one session whose agent is gone. *)
Definition oneExited : gmap string SdkSessionInfo :=
  {[ "s1" := {| sessionId := "s1"; state := exited; archived := false |} ]}.

(** The record of [sid] is [starting] and not archived. *)
Definition live (sid : string) (st : State) : Prop :=
  ∃ i, launcher st !! sid = Some i ∧ state i = starting ∧ archived i = false.

(** The watchdog's timer is pending. *)
Definition notFired (st : State) : Prop :=
  watchdogTimers (timers st) = [(RECONNECT_GRACE_MS, Watchdog)]
  ∧ (now st < RECONNECT_GRACE_MS)%N
  ∧ watchdog st = None.

(** The watchdog's timer has fired. *)
Definition fired (st : State) : Prop :=
  watchdogTimers (timers st) = [] ∧ (RECONNECT_GRACE_MS ≤ now st)%N.

(** No relaunch awaited by the watchdog is rejected and the archived flag
    of [sid] is not touched. *)
Definition steady (sid : string) (e : Event) : Prop :=
  match e with
  | WatchdogResumed ok => ok = true
  | SetArchived s _ => s ≠ sid
  | _ => True
  end.

(** Before the watchdog fires: [sid] is still [starting] and nothing has
    relaunched it. *)
Definition waiting (sid : string) (st : State) : Prop :=
  live sid st ∧ notFired st ∧ callsFor sid st = [].

(** The watchdog's loop has [sid] still to visit. *)
Definition waitingTurn (sid : string) (st : State) : Prop :=
  ∃ rest, watchdog st = Some rest ∧ sid ∈ rest ∧ NoDup rest
          ∧ callsBy BootWatchdog sid st = []
          ∧ isArchived sid (launcher st) = false.

(** The watchdog's loop has relaunched [sid]. *)
Definition relaunchedOnce (sid : string) (st : State) : Prop :=
  (∀ rest, watchdog st = Some rest → sid ∉ rest)
  ∧ ∃ c, callsBy BootWatchdog sid st = [c] ∧ (RECONNECT_GRACE_MS ≤ call_time c)%N.

(** The watchdog has fired with [sid] among the sessions to visit. *)
Definition graceInv (sid : string) (st : State) : Prop :=
  fired st ∧ (waitingTurn sid st ∨ relaunchedOnce sid st).

(** [sid] is not [starting], and the watchdog has not relaunched it and is
    not going to visit it. *)
Definition reconnected (sid : string) (st : State) : Prop :=
  (∀ i, launcher st !! sid = Some i → state i ≠ starting)
  ∧ (∀ rest, watchdog st = Some rest → sid ∉ rest)
  ∧ callsBy BootWatchdog sid st = [].

(** The watchdog has fired and left [sid] out. *)
Definition passedOver (sid : string) (st : State) : Prop :=
  watchdogTimers (timers st) = []
  ∧ (∀ rest, watchdog st = Some rest → sid ∉ rest)
  ∧ callsBy BootWatchdog sid st = [].

(** The watchdog is neither pending nor running. *)
Definition watchdogIdle (st : State) : Prop :=
  watchdogTimers (timers st) = [] ∧ watchdog st = None.

(** A launcher table restored with two sessions still [starting], one of
    them archived, and one session whose agent is gone. *)
Definition restored : gmap string SdkSessionInfo :=
  {[ "s1" := {| sessionId := "s1"; state := starting; archived := false |};
     "s2" := {| sessionId := "s2"; state := starting; archived := true |};
     "s3" := {| sessionId := "s3"; state := exited; archived := false |} ]}.

(** A launcher table restored with two sessions still [starting]. *)
Definition twoStarting : gmap string SdkSessionInfo :=
  {[ "s1" := {| sessionId := "s1"; state := starting; archived := false |};
     "s4" := {| sessionId := "s4"; state := starting; archived := false |} ]}.

End ServerObs.

Module WsObs.

Import Ws Obs.

(** The blocks on which the loop of [extractTasksFromBlocks] acts: tool-use
    blocks with a name and an input. *)
Definition actedOn (b : ContentBlock) : option (option string) :=
  match b with
  | BToolUse tid (Some name) (Some _) => if bool_decide (name = "") then None else Some tid
  | _ => None
  end.

(** Every block that the loop acts on carries a non-empty invocation id. *)
Definition identified (blocks : list ContentBlock) : Prop :=
  Forall (λ b, ∀ tid, actedOn b = Some tid → truthy tid = true) blocks.

(** What task derivation reads and writes. *)
Definition taskState (w : World) :=
  (Store.sessionTasks (store w), taskCounters w, processedToolUseIds w).

(** The groups of blocks from which a frame derives tasks, one group per
    call of [extractTasksFromBlocks]. *)
Definition historyGroups (entries : list HistoryEntry) : list (list ContentBlock) :=
  omap (λ e, match e with
             | HAssistant msg _ =>
                 match am_content msg with [] => None | _ :: _ => Some (am_content msg) end
             | _ => None
             end) entries.

Definition frameGroups (frame : BrowserIncomingMessage) : list (list ContentBlock) :=
  match frame with
  | assistant msg _ =>
      match am_content msg with [] => [] | _ :: _ => [am_content msg] end
  | permission_request req =>
      match tool_name req, perm_input req with
      | Some name, Some input =>
          if bool_decide (name = "") then []
          else [[BToolUse (tool_use_id req) (Some name) (Some input)]]
      | _, _ => []
      end
  | message_history entries => historyGroups entries
  | _ => []
  end.

(** All invocation ids of a group of blocks have been processed. *)
Definition groupProcessed (sid : string) (w : World) (blocks : list ContentBlock) : Prop :=
  is_Some (processedToolUseIds w !! sid)
  ∧ ∀ b tid, b ∈ blocks → actedOn b = Some tid →
      ∃ t, tid = Some t ∧ t ≠ "" ∧ t ∈ processed sid w.

(** The processed ids only grow. *)
Definition grows (sid : string) (w w' : World) : Prop :=
  (is_Some (processedToolUseIds w !! sid) → is_Some (processedToolUseIds w' !! sid))
  ∧ processed sid w ⊆ processed sid w'.

(** The deduplication skips a block with this invocation id. *)
Definition deduplicated (sid : string) (w : World) (tid : option string) : bool :=
  match tid with
  | Some t => bool_decide (t ≠ "") && bool_decide (t ∈ processed sid w)
  | None => false
  end.

(** The tasks and the task counters. *)
Definition taskView (w : World) := (Store.sessionTasks (store w), taskCounters w).

(** The number that the next [TaskCreate] of a session gets is one more
    than this. *)
Definition taskCount (sid : string) (w : World) : nat :=
  default 0%nat (taskCounters w !! sid).

(** A [TaskCreate] block. *)
Definition taskCreateBlock (x : option string * ToolInput) : ContentBlock :=
  BToolUse x.1 (Some "TaskCreate") (Some x.2).

Definition sampleTodo (content : string) : TodoEntry :=
  {| todo_content := Some content; todo_status := None; todo_activeForm := None |}.

Definition sampleTodoInput (todos : list TodoEntry) : ToolInput :=
  {| in_todos := Some todos; in_subject := None; in_description := None;
     in_activeForm := None; in_taskId := None; in_status := None;
     in_owner := None; in_addBlockedBy := None |}.

(** What the store holds for one session, map by map. *)
Definition storeView (sid : string) (s : Store.AppState) :=
  (Store.sessions s !! sid,
   Store.messages s !! sid,
   Store.sessionTasks s !! sid,
   Store.pendingPermissions s !! sid,
   Store.streaming s !! sid,
   Store.streamingStartedAt s !! sid,
   Store.streamingOutputTokens s !! sid,
   Store.cliConnected s !! sid,
   Store.sessionStatus s !! sid,
   Store.sessionNames s !! sid).

(** What the page holds for one session. *)
Definition sessionView (sid : string) (w : World) :=
  (storeView sid (store w), taskCounters w !! sid, processedToolUseIds w !! sid).

(** What a frame on the socket of one session can do to another session:
    a [session_init] adds the session that it carries. *)
Definition carried (frame : BrowserIncomingMessage) (w : World) : World :=
  match frame with
  | session_init session => with_store (Store.addSession session) w
  | _ => w
  end.

(** The invocation id of a block. *)
Definition invocationId (b : ContentBlock) : option string :=
  match b with
  | BToolUse id _ _ => id
  | _ => None
  end.

(** The text that a stream event adds to the streaming text. *)
Definition deltaText (evt : StreamEvent) : option string :=
  match evt with
  | SeContentBlockDelta (Some delta) =>
      match delta_text delta with
      | Some text => if bool_decide (delta_type delta = "text_delta") then Some text else None
      | None => None
      end
  | _ => None
  end.

(** The texts in order, one after the other. *)
Definition joined (texts : list string) : string := foldr String.append "" texts.

(** The role of the chat message that a history entry is shown as. *)
Definition historyRole (e : HistoryEntry) : option Role :=
  match e with
  | HUserMessage _ _ => Some RUser
  | HAssistant _ _ => Some RAssistant
  | HResult r => match turnErrors r with Some _ => Some RSystem | None => None end
  | HOther => None
  end.

(** The entries that get an id from [nextId]. *)
Definition generatesId (e : HistoryEntry) : bool :=
  match e with
  | HUserMessage _ _ => true
  | HResult r => match turnErrors r with Some _ => true | None => false end
  | _ => false
  end.

(** A history with a user message, the same assistant message twice, a
    result without errors and an entry of another type. *)
Definition sampleHistory : list HistoryEntry :=
  [HUserMessage "hi" 1;
   HAssistant (sampleAssistant "m1" [BText "hello"]) None;
   HAssistant (sampleAssistant "m1" [BText "hello"]) None;
   HResult sampleResult;
   HOther].

(** [sampleParse] with a line for the frame that carries [sampleHistory]. *)
Definition historyParse (line : string) : Completion BrowserIncomingMessage :=
  if bool_decide (line = "<history>") then Normal (message_history sampleHistory)
  else sampleParse line.

(** The character [-]. *)
Definition dash : Ascii.ascii := Ascii.Ascii true false true true false true false false.

(** No character of the string is a dash. *)
Fixpoint dashFree (s : string) : Prop :=
  match s with
  | EmptyString => True
  | String c s => c ≠ dash ∧ dashFree s
  end.

Definition sampleSession (sid : string) : SessionState :=
  {| session_id := sid; model := "m"; cwd := "/"; total_cost_usd := 0; num_turns := 0;
     context_used_percent := 0; total_lines_added := 0; total_lines_removed := 0 |}.

(** [sampleParse] with a line for a [session_init] frame of session
    ["s1"]. *)
Definition initParse (line : string) : Completion BrowserIncomingMessage :=
  if bool_decide (line = "<init s1>") then Normal (session_init (sampleSession "s1"))
  else sampleParse line.

Definition sampleUpdateInput (taskId status : string) : ToolInput :=
  {| in_todos := None; in_subject := None; in_description := None;
     in_activeForm := None; in_taskId := Some taskId; in_status := Some status;
     in_owner := None; in_addBlockedBy := None |}.

End WsObs.

Module ConnObs.
Import Ws Obs Connections.

(** A page on which session ["s1"] has a socket and has processed the
    invocation ["toolu_1"], and session ["s2"] waits for a reconnect. *)
Definition samplePage : Page :=
  {| world :=
       extractTasksFromBlocks "s2"
         [BToolUse (Some "toolu_7") (Some "TaskCreate") (Some (sampleInput "Plan"))]
         (extractTasksFromBlocks "s1"
            [BToolUse (Some "toolu_1") (Some "TaskCreate") (Some (sampleInput "Plan"))]
            emptyWorld);
     sockets := {[ "s1" := 1%positive ]};
     reconnectTimers := {[ "s2" := 5%positive ]};
     closed := ∅;
     cleared := ∅ |}.

(** The event does not disconnect [sid]. *)
Definition keeps (sid : string) (e : PageEvent) : Prop :=
  match e with
  | Received _ _ _ => True
  | Disconnect s => s ≠ sid
  | DisconnectAll => False
  end.

(** A frame that arrives is of the protocol's shape. *)
Definition shaped (JSON_parse : string → Completion BrowserIncomingMessage)
    (e : PageEvent) : Prop :=
  match e with
  | Received _ _ data => ∃ frame, JSON_parse data = Normal frame
  | _ => True
  end.

(** A page that has nothing but the handler's state. *)
Definition pageOf (w : World) : Page :=
  {| world := w; sockets := ∅; reconnectTimers := ∅; closed := ∅; cleared := ∅ |}.

End ConnObs.

Module RecoveryObs.
Import Server ServerObs.

(** Successive calls are at least the cooldown apart. *)
Definition spaced (cs : list RelaunchCall) : Prop :=
  ∀ i c1 c2, cs !! i = Some c1 → cs !! S i = Some c2 →
    (call_time c1 + RELAUNCH_COOLDOWN_MS ≤ call_time c2)%N.

(** The calls made so far are in the past; those made by the callback for
    [sid] are spaced, and the guard of [sid] outlasts each of them by the
    cooldown. *)
Definition throttled (sid : string) (st : State) : Prop :=
  guarded st
  ∧ (∀ c, c ∈ relaunchCalls st → (call_time c ≤ now st)%N)
  ∧ spaced (callsBy OnDemand sid st)
  ∧ (sid ∉ relaunchingSet st →
     ∀ c, c ∈ callsBy OnDemand sid st →
       (call_time c + RELAUNCH_COOLDOWN_MS ≤ now st)%N)
  ∧ (∀ d c, (d, ClearRelaunching sid) ∈ timers st → c ∈ callsBy OnDemand sid st →
       (call_time c + RELAUNCH_COOLDOWN_MS ≤ d)%N).

(** The relaunch of [sid] has settled: its guard is dropped by the one
    timer due at [T], or has been dropped. *)
Definition settled (sid : string) (T : N) (st : State) : Prop :=
  guarded st
  ∧ (sid ∉ inflight st)
  ∧ (((sid ∈ relaunchingSet st)
      ∧ (T, ClearRelaunching sid) ∈ timers st
      ∧ ∀ d, (d, ClearRelaunching sid) ∈ timers st → d = T)
     ∨ ((sid ∉ relaunchingSet st) ∧ (sid ∉ clears (timers st)))).

(** The watchdog runs at most once, not before the grace period is over,
    and visits a session at most once. *)
Definition watchdogInv (st : State) : Prop :=
  (match watchdogTimers (timers st) with
   | [] => True
   | ts => ts = [(RECONNECT_GRACE_MS, Watchdog)]
           ∧ watchdog st = None
           ∧ ∀ c, c ∈ relaunchCalls st → call_path c = OnDemand
   end)
  ∧ (∀ rest, watchdog st = Some rest →
       (RECONNECT_GRACE_MS ≤ now st)%N
       ∧ NoDup rest
       ∧ ∀ s, s ∈ rest → callsBy BootWatchdog s st = [])
  ∧ (∀ c, c ∈ relaunchCalls st → call_path c = BootWatchdog →
       (RECONNECT_GRACE_MS ≤ call_time c)%N)
  ∧ (∀ s, (length (callsBy BootWatchdog s st) ≤ 1)%nat).

(** No watchdog was armed. *)
Definition unarmed (st : State) : Prop :=
  watchdogTimers (timers st) = []
  ∧ watchdog st = None
  ∧ ∀ c, c ∈ relaunchCalls st → call_path c = OnDemand.

End RecoveryObs.

Module FetchObs.

Import TunnelConfig CfAccess Fetch.

(** The three kinds of socket. *)
Inductive Kind := cli | browser | terminal.

#[export] Instance Kind_eq_dec : EqDecision Kind.
Proof. solve_decision. Defined.

(** The data of a socket of a kind for an id. *)
Definition dataOf (k : Kind) (i : string) : SocketData :=
  match k with cli => CliData i | browser => BrowserData i | terminal => TerminalData i end.

(** The path of the socket of a kind for an id. *)
Definition kindName (k : Kind) : string :=
  match k with cli => "cli" | browser => "browser" | terminal => "terminal" end.

Definition routePath (k : Kind) (i : string) : string :=
  "/ws/" +:+ kindName k +:+ "/" +:+ i.

(** A non-empty id of lower-case hexadecimal digits and dashes. *)
Definition validId (i : string) : Prop := i ≠ "" ∧ allIdChars i = true.

(** The verification of the token of a request throws. *)
Definition rejects (newURL : string → Completion string)
    (jwtVerify : string → JWKS → VerifyOptions → Completion (option string))
    (now now' : Z) (file : ConfigFile) (jwt : option string) (c : Cache) : Prop :=
  ∃ config, loadConfig file = Some config
    ∧ truthy (teamDomain config) = true
    ∧ truthy jwt = true
    ∧ (verifyAccessJwt newURL jwtVerify now now' (default "" jwt)
         (default "" (teamDomain config)) (audienceTag config) c).1 = Throws.

Definition sampleConfig : TunnelConfig :=
  {| tunnelName := "companion"; tunnelId := "t1"; hostname := "c.example.com";
     credentialsFile := "/tmp/creds.json"; teamDomain := Some "team";
     audienceTag := Some "aud"; createdAt := 0; updatedAt := 0 |}.

Definition sampleURL (text : string) : Completion string := Normal text.

(** Only the token ["good"] verifies. *)
Definition sampleVerify (token : string) (j : JWKS) (o : VerifyOptions)
    : Completion (option string) :=
  if bool_decide (token = "good") then Normal (Some "a@example.com") else Throws.

Definition emptyCache : Cache := {| jwksCache := ∅; created := 0 |}.

End FetchObs.

(** * Properties *)

(** ** The store and the frame handler *)

Section WsFacts.

Import Ws Obs.

Lemma tasksOnly_refl s : tasksOnly s s.
Proof. by destruct s. Qed.

Lemma tasksOnly_trans s1 s2 s3 : tasksOnly s1 s2 → tasksOnly s2 s3 → tasksOnly s1 s3.
Proof.
  unfold tasksOnly. intros H12 H23. rewrite <- H12 at 2. rewrite <- H23.
  by destruct s3.
Qed.

Lemma tasksOnly_setTasks sid tasks s : tasksOnly s (Store.setTasks sid tasks s).
Proof. by destruct s. Qed.

Lemma tasksOnly_addTask sid task s : tasksOnly s (Store.addTask sid task s).
Proof. by destruct s. Qed.

Lemma tasksOnly_updateTask sid tid u s : tasksOnly s (Store.updateTask sid tid u s).
Proof. unfold Store.updateTask. destruct (_ !! _); by destruct s. Qed.

Lemma applyTool_frame sid name input w :
  tasksOnly (store w) (store (applyTool sid name input w))
  ∧ idCounter (applyTool sid name input w) = idCounter w
  ∧ processedToolUseIds (applyTool sid name input w) = processedToolUseIds w.
Proof.
  unfold applyTool. repeat case_bool_decide; repeat case_match; simpl;
    eauto using tasksOnly_refl, tasksOnly_setTasks, tasksOnly_addTask, tasksOnly_updateTask.
Qed.

Lemma extractBlock_frame sid w b :
  tasksOnly (store w) (store (extractBlock sid w b))
  ∧ idCounter (extractBlock sid w b) = idCounter w.
Proof.
  unfold extractBlock.
  repeat case_match; simpl; eauto using tasksOnly_refl;
    match goal with
    | |- context [applyTool ?s ?n ?i ?w] =>
        destruct (applyTool_frame s n i w) as (? & ? & ?)
    end; split; try done; congruence.
Qed.

Lemma foldl_extractBlock_frame sid blocks w :
  tasksOnly (store w) (store (foldl (extractBlock sid) w blocks))
  ∧ idCounter (foldl (extractBlock sid) w blocks) = idCounter w.
Proof.
  revert w. induction blocks as [|b blocks IH]; intros w; simpl.
  - eauto using tasksOnly_refl.
  - destruct (IH (extractBlock sid w b)) as [H1 H2].
    destruct (extractBlock_frame sid w b) as [H3 H4].
    split; [by eapply tasksOnly_trans | congruence].
Qed.

Lemma extractTasks_frame sid blocks w :
  tasksOnly (store w) (store (extractTasksFromBlocks sid blocks w))
  ∧ idCounter (extractTasksFromBlocks sid blocks w) = idCounter w.
Proof.
  unfold extractTasksFromBlocks, getProcessedSet.
  destruct (processedToolUseIds w !! sid).
  - apply foldl_extractBlock_frame.
  - apply (foldl_extractBlock_frame sid blocks (with_processed _ w)).
Qed.

Lemma tasksOnly_messages s s' : tasksOnly s s' → Store.messages s' = Store.messages s.
Proof. intros <-. done. Qed.

Lemma tasksOnly_streaming s s' :
  tasksOnly s s' →
  Store.streaming s' = Store.streaming s
  ∧ Store.streamingStartedAt s' = Store.streamingStartedAt s
  ∧ Store.streamingOutputTokens s' = Store.streamingOutputTokens s.
Proof. intros <-. done. Qed.

Lemma tasksOnly_pending s s' :
  tasksOnly s s' → Store.pendingPermissions s' = Store.pendingPermissions s.
Proof. intros <-. done. Qed.

(** *** Appending to the history *)

Lemma stored_appendMessage sid msg s :
  stored sid (Store.appendMessage sid msg s) =
    if truthy (msg_id msg) && existsb (λ m, bool_decide (msg_id m = msg_id msg)) (stored sid s)
    then stored sid s
    else stored sid s ++ [msg].
Proof.
  unfold Store.appendMessage, stored.
  destruct (truthy _ && _); [done|]. simpl. by rewrite lookup_insert_eq.
Qed.

Lemma existsb_same_id (id : option string) (l : list ChatMessage) :
  existsb (λ m, bool_decide (msg_id m = id)) l = true ↔ ∃ m, m ∈ l ∧ msg_id m = id.
Proof.
  rewrite existsb_exists. split; intros (m & Hm & Hid); exists m.
  - split; [by apply list_elem_of_In | by apply bool_decide_eq_true in Hid].
  - split; [by apply list_elem_of_In | by apply bool_decide_eq_true].
Qed.

Lemma existsb_fresh_id (id : option string) (l : list ChatMessage) :
  (∀ m, m ∈ l → msg_id m ≠ id) → existsb (λ m, bool_decide (msg_id m = id)) l = false.
Proof.
  intros Hfresh. apply not_true_is_false. rewrite existsb_same_id.
  intros (m & Hm & Hid). by eapply Hfresh.
Qed.

Lemma filter_fresh_id (id : option string) (l : list ChatMessage) :
  (∀ m, m ∈ l → msg_id m ≠ id) → filter (λ m, msg_id m = id) l = [].
Proof.
  intros Hfresh. induction l as [|m l IH]; [done|].
  rewrite filter_cons_False; [|apply Hfresh; left].
  apply IH. intros m' Hm'. apply Hfresh. by right.
Qed.

(** C3. Appending deduplicates by id only when an id is present. With a
    non-empty id that no stored message carries, appending [m1] and then a
    message [m2] of the same id stores [m1] only, so that exactly one stored
    message has that id, the first; appending a message whose non-empty id
    is already stored changes nothing; two messages whose ids are empty or
    absent are both kept. *)
Theorem appendMessage_dedup_by_id (sid : string) (m1 m2 : ChatMessage) (s : Store.AppState) :
  (truthy (msg_id m1) = true → msg_id m2 = msg_id m1 →
   (∀ m, m ∈ stored sid s → msg_id m ≠ msg_id m1) →
   stored sid (Store.appendMessage sid m2 (Store.appendMessage sid m1 s)) = stored sid s ++ [m1]
   ∧ filter (λ m, msg_id m = msg_id m1)
       (stored sid (Store.appendMessage sid m2 (Store.appendMessage sid m1 s))) = [m1])
  ∧ (truthy (msg_id m2) = true → (∃ m, m ∈ stored sid s ∧ msg_id m = msg_id m2) →
     Store.appendMessage sid m2 s = s)
  ∧ (truthy (msg_id m1) = false → truthy (msg_id m2) = false →
     stored sid (Store.appendMessage sid m2 (Store.appendMessage sid m1 s))
       = stored sid s ++ [m1; m2]).
Proof.
  split; [|split].
  - intros Hid Heq Hfresh.
    assert (stored sid (Store.appendMessage sid m1 s) = stored sid s ++ [m1]) as H1.
    { rewrite stored_appendMessage, (existsb_fresh_id _ _ Hfresh).
      by rewrite andb_false_r. }
    assert (stored sid (Store.appendMessage sid m2 (Store.appendMessage sid m1 s))
            = stored sid s ++ [m1]) as H2.
    { rewrite stored_appendMessage, H1, Heq, Hid. simpl.
      rewrite existsb_app. simpl. rewrite bool_decide_eq_true_2 by done.
      by rewrite orb_true_r. }
    split; [done|]. rewrite H2, filter_app, (filter_fresh_id _ _ Hfresh).
    simpl. by rewrite filter_cons_True.
  - intros Hid Hdup. unfold Store.appendMessage. fold (stored sid s).
    apply existsb_same_id in Hdup. by rewrite Hid, Hdup.
  - intros Hid1 Hid2. rewrite !stored_appendMessage, Hid1, Hid2. simpl.
    by rewrite <- app_assoc.
Qed.

(** The theorem of C3 at sample messages: two messages with id ["dup-1"],
    then two messages without an id. *)
Lemma appendMessage_dedup_by_id_witness :
  let first := sampleMessage (Some "dup-1") "first" in
  let dup := sampleMessage (Some "dup-1") "duplicate" in
  let a := sampleMessage (Some "") "a" in
  let b := sampleMessage None "b" in
  stored "s1" (Store.appendMessage "s1" dup (Store.appendMessage "s1" first Store.empty))
    = [first]
  ∧ Store.appendMessage "s1" dup (Store.appendMessage "s1" first Store.empty)
    = Store.appendMessage "s1" first Store.empty
  ∧ stored "s1" (Store.appendMessage "s1" b (Store.appendMessage "s1" a Store.empty))
    = [a; b].
Proof.
  intros first dup a b. split; [|split].
  - apply (appendMessage_dedup_by_id "s1" first dup Store.empty); [done|done|].
    intros m Hm. vm_compute in Hm. by apply elem_of_nil in Hm.
  - apply (appendMessage_dedup_by_id "s1" first dup
             (Store.appendMessage "s1" first Store.empty)); [done|].
    exists first. split; [|done]. vm_compute. left.
  - apply (appendMessage_dedup_by_id "s1" a b Store.empty); done.
Defined.

(** *** Task derivation and the processed invocation ids *)

Lemma processed_with_processed sid (set : gset string) w :
  processed sid (with_processed (<[sid := set]> (processedToolUseIds w)) w) = set.
Proof. unfold processed. simpl. by rewrite lookup_insert_eq. Qed.

Lemma processed_applyTool sid sid' name input w :
  processed sid' (applyTool sid name input w) = processed sid' w.
Proof.
  unfold processed. by destruct (applyTool_frame sid name input w) as (_ & _ & ->).
Qed.

Lemma processed_extractBlock_mono sid w b :
  processed sid w ⊆ processed sid (extractBlock sid w b).
Proof.
  unfold extractBlock. repeat case_match; try done;
    rewrite processed_applyTool; try done.
  rewrite processed_with_processed. set_solver.
Qed.

Lemma processed_foldl_mono sid blocks w :
  processed sid w ⊆ processed sid (foldl (extractBlock sid) w blocks).
Proof.
  revert w. induction blocks as [|b blocks IH]; intros w; simpl; [done|].
  etrans; [apply (processed_extractBlock_mono sid w b)|apply IH].
Qed.

(** A block whose invocation id has been processed is skipped. *)
Lemma extractBlock_processed sid w tid name input :
  tid ≠ "" → tid ∈ processed sid w →
  extractBlock sid w (BToolUse (Some tid) name input) = w.
Proof.
  intros Hne Hin. unfold extractBlock.
  destruct name as [name|], input as [input|]; try done.
  case_bool_decide; [done|]. rewrite bool_decide_eq_false_2 by done.
  by rewrite bool_decide_eq_true_2.
Qed.

Lemma foldl_extractBlock_processed sid w tid name input pre post :
  tid ≠ "" → tid ∈ processed sid w →
  foldl (extractBlock sid) w (pre ++ BToolUse (Some tid) name input :: post)
  = foldl (extractBlock sid) w (pre ++ post).
Proof.
  intros Hne Hin. rewrite !foldl_app.
  change (foldl (extractBlock sid)
            (extractBlock sid (foldl (extractBlock sid) w pre)
               (BToolUse (Some tid) name input)) post
          = foldl (extractBlock sid) (foldl (extractBlock sid) w pre) post).
  rewrite extractBlock_processed; [done|done|].
  by apply (processed_foldl_mono sid pre w).
Qed.

Lemma extractTasks_processed sid w tid name input pre post :
  tid ≠ "" → tid ∈ processed sid w →
  extractTasksFromBlocks sid (pre ++ BToolUse (Some tid) name input :: post) w
  = extractTasksFromBlocks sid (pre ++ post) w.
Proof.
  intros Hne Hin. unfold extractTasksFromBlocks, getProcessedSet.
  destruct (processedToolUseIds w !! sid) eqn:Hp.
  - by apply foldl_extractBlock_processed.
  - unfold processed in Hin. rewrite Hp in Hin. set_solver.
Qed.

(** The first occurrence of an invocation id with [TaskCreate]. *)
Lemma extractTasks_TaskCreate_fresh sid w tid input :
  tid ≠ "" → tid ∉ processed sid w →
  tasksOf sid (extractTasksFromBlocks sid
                 [BToolUse (Some tid) (Some "TaskCreate") (Some input)] w)
    = tasksOf sid w ++ [createdTask (default 0%nat (taskCounters w !! sid) + 1) input]
  ∧ processed sid (extractTasksFromBlocks sid
                     [BToolUse (Some tid) (Some "TaskCreate") (Some input)] w)
    = {[tid]} ∪ processed sid w.
Proof.
  intros Hne Hfresh. unfold extractTasksFromBlocks, getProcessedSet.
  destruct (processedToolUseIds w !! sid) eqn:Hp; simpl.
  all: rewrite (bool_decide_eq_false_2 (tid = "")) by done.
  all: rewrite bool_decide_eq_false_2.
  all: try (unfold processed in *; simpl; rewrite ?Hp, ?lookup_insert_eq in *; done).
  all: unfold applyTool, tasksOf, processed; simpl.
  all: rewrite ?lookup_insert_eq; simpl; rewrite ?Hp; simpl.
  all: repeat split; try done.
  all: set_solver.
Qed.

(** *** What does not depend on the scratch state *)

Lemma withoutScratch_with_store f w :
  (∀ s, scrubbed (f s) = f (scrubbed s)) →
  withoutScratch (with_store f w) = with_store f (withoutScratch w).
Proof. intros Hf. unfold withoutScratch, with_store. simpl. by rewrite Hf. Qed.

Lemma withoutScratch_drop f w :
  (∀ s, scrubbed (f s) = scrubbed s) →
  withoutScratch (with_store f w) = withoutScratch w.
Proof. intros Hf. unfold withoutScratch, with_store. simpl. by rewrite Hf. Qed.

Lemma withoutScratch_idem w : withoutScratch (withoutScratch w) = withoutScratch w.
Proof. done. Qed.

Lemma scrubbed_addSession session s :
  scrubbed (Store.addSession session s) = Store.addSession session (scrubbed s).
Proof. unfold Store.addSession. simpl. by destruct (_ !! _). Qed.

Lemma scrubbed_updateSession sid p s :
  scrubbed (Store.updateSession sid p s) = Store.updateSession sid p (scrubbed s).
Proof. unfold Store.updateSession. simpl. by destruct (_ !! _). Qed.

Lemma scrubbed_appendMessage sid msg s :
  scrubbed (Store.appendMessage sid msg s) = Store.appendMessage sid msg (scrubbed s).
Proof. unfold Store.appendMessage. simpl. by destruct (truthy _ && _). Qed.

Lemma scrubbed_removePermission sid rid s :
  scrubbed (Store.removePermission sid rid s) = Store.removePermission sid rid (scrubbed s).
Proof. unfold Store.removePermission. simpl. by destruct (_ !! _). Qed.

Lemma scrubbed_updateTask sid tid u s :
  scrubbed (Store.updateTask sid tid u s) = Store.updateTask sid tid u (scrubbed s).
Proof. unfold Store.updateTask. simpl. by destruct (_ !! _). Qed.

Lemma scrubbed_setStreaming sid text s :
  scrubbed (Store.setStreaming sid text s) = scrubbed s.
Proof. by destruct text. Qed.

Lemma scrubbed_setStreamingStats sid stats s :
  scrubbed (Store.setStreamingStats sid stats s) = scrubbed s.
Proof. by destruct stats as [[[a|] [o|]]|]. Qed.

Ltac scrub_commutes :=
  intros;
  first [ apply scrubbed_addSession
        | apply scrubbed_updateSession
        | apply scrubbed_appendMessage
        | apply scrubbed_removePermission
        | apply scrubbed_updateTask
        | reflexivity ].

Ltac scrub_drops :=
  intros; first [ apply scrubbed_setStreaming | apply scrubbed_setStreamingStats ].

Lemma withoutScratch_applyTool sid name input w :
  withoutScratch (applyTool sid name input w) = applyTool sid name input (withoutScratch w).
Proof.
  unfold applyTool. repeat case_bool_decide; try done.
  - by destruct (in_todos input).
  - destruct (truthy (in_taskId input)); [|done].
    apply withoutScratch_with_store. scrub_commutes.
Qed.

Lemma withoutScratch_extractBlock sid w b :
  withoutScratch (extractBlock sid w b) = extractBlock sid (withoutScratch w) b.
Proof.
  unfold extractBlock. change (processed sid (withoutScratch w)) with (processed sid w).
  repeat case_match; try done; by rewrite withoutScratch_applyTool.
Qed.

Lemma withoutScratch_foldl_extractBlock sid blocks w :
  withoutScratch (foldl (extractBlock sid) w blocks)
  = foldl (extractBlock sid) (withoutScratch w) blocks.
Proof.
  revert w. induction blocks as [|b blocks IH]; intros w; [done|].
  simpl. by rewrite IH, withoutScratch_extractBlock.
Qed.

Lemma withoutScratch_extractTasks sid blocks w :
  withoutScratch (extractTasksFromBlocks sid blocks w)
  = extractTasksFromBlocks sid blocks (withoutScratch w).
Proof.
  unfold extractTasksFromBlocks, getProcessedSet. simpl.
  destruct (processedToolUseIds w !! sid); by rewrite withoutScratch_foldl_extractBlock.
Qed.

Lemma withoutScratch_historyStep sid now msgs w e :
  historyStep sid now (msgs, withoutScratch w) e
  = ((historyStep sid now (msgs, w) e).1,
     withoutScratch (historyStep sid now (msgs, w) e).2).
Proof.
  destruct e as [content ts|msg parent|r|]; simpl; try done.
  - destruct (am_content msg); [done|]. by rewrite withoutScratch_extractTasks.
  - by destruct (turnErrors r).
Qed.

Lemma withoutScratch_history sid now entries msgs w :
  foldl (historyStep sid now) (msgs, withoutScratch w) entries
  = ((foldl (historyStep sid now) (msgs, w) entries).1,
     withoutScratch (foldl (historyStep sid now) (msgs, w) entries).2).
Proof.
  revert msgs w. induction entries as [|e entries IH]; intros msgs w; [done|].
  cbn [foldl]. rewrite withoutScratch_historyStep.
  destruct (historyStep sid now (msgs, w) e) as [msgs1 w1]. apply IH.
Qed.

Lemma withoutScratch_nextId_append now sid (mk : string → ChatMessage) w :
  withoutScratch
    (let '(id, w0) := nextId now w in with_store (Store.appendMessage sid (mk id)) w0)
  = let '(id, w0) := nextId now (withoutScratch w) in
    with_store (Store.appendMessage sid (mk id)) w0.
Proof.
  unfold nextId, withoutScratch, with_store. simpl. by rewrite scrubbed_appendMessage.
Qed.

Ltac scrub :=
  repeat first
    [ rewrite withoutScratch_extractTasks
    | rewrite withoutScratch_with_store by scrub_commutes
    | rewrite withoutScratch_drop by scrub_drops
    | rewrite withoutScratch_idem ].

(** *** What an [assistant] frame does to the store *)

Section Frames.

Variable JSON_parse : string → Completion BrowserIncomingMessage.
Variable generateUniqueSessionName : list string → string.

Abbreviation handle := (handleMessage JSON_parse generateUniqueSessionName).
Abbreviation handleSeq := (handleAll JSON_parse generateUniqueSessionName).

Lemma handle_assistant now sid line msg parent w :
  JSON_parse line = Normal (assistant msg parent) →
  ∃ w', handle now sid line w = Normal w'
    ∧ Store.messages (store w')
      = Store.messages (Store.appendMessage sid (assistantChatMessage msg parent now) (store w))
    ∧ Store.streaming (store w') = delete sid (Store.streaming (store w))
    ∧ Store.streamingStartedAt (store w')
      = match Store.streamingStartedAt (store w) !! sid with
        | Some _ => Store.streamingStartedAt (store w)
        | None => <[sid := now]> (Store.streamingStartedAt (store w))
        end
    ∧ Store.streamingOutputTokens (store w') = Store.streamingOutputTokens (store w).
Proof.
  intros Hparse. unfold handleMessage. rewrite Hparse.
  eexists. split; [reflexivity|].
  set (s1 := Store.appendMessage sid _ (store w)).
  assert (Store.streaming s1 = Store.streaming (store w)
          ∧ Store.streamingStartedAt s1 = Store.streamingStartedAt (store w)
          ∧ Store.streamingOutputTokens s1 = Store.streamingOutputTokens (store w))
    as (Hs & Ha & Ho).
  { unfold s1, Store.appendMessage. by destruct (truthy _ && _). }
  destruct (am_content msg) as [|b bs] eqn:Hc;
    [|match goal with
      | |- context [extractTasksFromBlocks ?a ?b ?c] =>
          destruct (extractTasks_frame a b c) as [Hf _];
          rewrite (tasksOnly_messages _ _ Hf);
          destruct (tasksOnly_streaming _ _ Hf) as (-> & -> & ->)
      end];
    destruct (Store.streamingStartedAt (store w) !! sid); simpl;
    fold s1; by rewrite ?Hs, ?Ha, ?Ho.
Qed.

(** C1, as amended. A line that is not JSON is dropped: the handler returns
    normally and the whole state, the store and the handler's own maps and
    counters, is what it was. An [assistant] frame handled right after it
    performs one append: the session's history grows by exactly that
    message, unless the message has a non-empty id that a stored message of
    the session already carries, in which case the history is unchanged. *)
Theorem malformed_line_dropped (now0 now1 : Z) (sid bad line : string)
    (msg : AssistantMessage) (parent : option string) (w : World) :
  JSON_parse bad = Throws →
  JSON_parse line = Normal (assistant msg parent) →
  handle now0 sid bad w = Normal w
  ∧ ∃ w', handleSeq sid [(now0, bad); (now1, line)] w = Normal w'
      ∧ messagesOf sid w' =
          if truthy (am_id msg)
             && existsb (λ m, bool_decide (msg_id m = am_id msg)) (messagesOf sid w)
          then messagesOf sid w
          else messagesOf sid w ++ [assistantChatMessage msg parent now1].
Proof.
  intros Hbad Hline.
  assert (handle now0 sid bad w = Normal w) as Hdrop.
  { unfold handleMessage. by rewrite Hbad. }
  split; [done|].
  destruct (handle_assistant now1 sid line msg parent w Hline) as (w' & Hw' & Hm & _).
  exists w'. split.
  - simpl. by rewrite Hdrop, Hw'.
  - unfold messagesOf, stored at 1. rewrite Hm.
    apply (stored_appendMessage sid (assistantChatMessage msg parent now1) (store w)).
Qed.

(** *** The streaming scratch state *)

Lemma updateSession_streaming sid p s :
  streamingOf (Store.updateSession sid p s) = streamingOf s.
Proof. unfold Store.updateSession. by destruct (_ !! _). Qed.

Lemma appendMessage_streaming sid msg s :
  streamingOf (Store.appendMessage sid msg s) = streamingOf s.
Proof. unfold Store.appendMessage. by destruct (truthy _ && _). Qed.

Lemma handle_result now sid line r w :
  JSON_parse line = Normal (result r) →
  ∃ w', handle now sid line w = Normal w'
    ∧ Store.streaming (store w') = delete sid (Store.streaming (store w))
    ∧ Store.streamingStartedAt (store w') = delete sid (Store.streamingStartedAt (store w))
    ∧ Store.streamingOutputTokens (store w')
      = delete sid (Store.streamingOutputTokens (store w)).
Proof.
  intros Hparse. unfold handleMessage. rewrite Hparse.
  eexists. split; [reflexivity|].
  pose proof (updateSession_streaming sid (sessionUpdates r) (store w)) as Hu.
  injection Hu as Hs Ha Ho.
  destruct (turnErrors r); simpl.
  - match goal with
    | |- context [Store.appendMessage ?a ?b ?c] =>
        pose proof (appendMessage_streaming a b c) as Hm
    end.
    injection Hm as -> -> ->. simpl. by rewrite Hs, Ha, Ho.
  - by rewrite Hs, Ha, Ho.
Qed.

Lemma handle_stream_event now sid line evt w :
  JSON_parse line = Normal (stream_event evt) →
  ∃ w', handle now sid line w = Normal w'
    ∧ Store.messages (store w') = Store.messages (store w).
Proof.
  intros Hparse. unfold handleMessage. rewrite Hparse.
  eexists. split; [reflexivity|].
  repeat case_match; done.
Qed.


(** Handling a frame on a state without its scratch state gives, the
    scratch state apart, what handling it on the state itself gives. *)
Lemma handle_withoutScratch now sid line frame w :
  JSON_parse line = Normal frame →
  ∃ w' u', handle now sid line w = Normal w'
    ∧ handle now sid line (withoutScratch w) = Normal u'
    ∧ withoutScratch u' = withoutScratch w'.
Proof.
  intros Hparse. unfold handleMessage. rewrite Hparse.
  eexists _, _. split; [reflexivity|]. split; [reflexivity|].
  destruct frame as [session|session|msg parent|event|data|request|rid| | |status
                    |err|message| | |entries|]; cbv beta iota zeta;
    change (Store.sessionNames (store (withoutScratch w)))
      with (Store.sessionNames (store w));
    change (Store.streamingStartedAt (store (withoutScratch w))) with (∅ : gmap string Z);
    change (Store.streaming (store (withoutScratch w))) with (∅ : gmap string string);
    rewrite ?lookup_empty.
  - destruct (Store.sessionNames (store w) !! sid); by scrub.
  - by scrub.
  - destruct (am_content msg), (Store.streamingStartedAt (store w) !! sid); by scrub.
  - destruct event as [| |[delta|]|[n|]|]; try done.
    + destruct (Store.streamingStartedAt (store w) !! sid); by scrub.
    + destruct (delta_text delta); [|done]. case_bool_decide; [|done]. by scrub.
    + case_bool_decide; [done|]. by scrub.
  - destruct (turnErrors data); [|by scrub].
    rewrite !withoutScratch_nextId_append. by scrub.
  - destruct (tool_name request) as [name|], (perm_input request) as [input|];
      try case_bool_decide; by scrub.
  - by scrub.
  - done.
  - done.
  - by scrub.
  - destruct (truthy err); [|done]. by rewrite !withoutScratch_nextId_append.
  - by rewrite !withoutScratch_nextId_append.
  - by scrub.
  - by scrub.
  - rewrite withoutScratch_history.
    destruct (foldl (historyStep sid now) ([], w) entries) as [msgs w1]. simpl.
    destruct msgs; by scrub.
  - done.
Qed.

(** C8, as amended. A [result] frame leaves the session without streaming
    text, start timestamp and output-token counter, whatever they were. An
    [assistant] frame clears the streaming text only: the start timestamp is
    kept, or set to the clock when there was none, and the output-token
    counter is left as it was. The scratch state is never written into a
    message history: a [stream_event] frame leaves every message history as
    it was, and what a frame of any type leaves outside the scratch state,
    the message histories in particular, is the same whatever streaming
    texts, start timestamps and output-token counters it finds. *)
Theorem scratch_state_at_turn_end (now : Z) (sid line : string) (w : World) :
  (∀ r, JSON_parse line = Normal (result r) →
     ∃ w', handle now sid line w = Normal w'
       ∧ Store.streaming (store w') !! sid = None
       ∧ Store.streamingStartedAt (store w') !! sid = None
       ∧ Store.streamingOutputTokens (store w') !! sid = None)
  ∧ (∀ msg parent, JSON_parse line = Normal (assistant msg parent) →
     ∃ w', handle now sid line w = Normal w'
       ∧ Store.streaming (store w') !! sid = None
       ∧ Store.streamingStartedAt (store w') !! sid
         = Some (default now (Store.streamingStartedAt (store w) !! sid))
       ∧ Store.streamingOutputTokens (store w') !! sid
         = Store.streamingOutputTokens (store w) !! sid)
  ∧ (∀ evt, JSON_parse line = Normal (stream_event evt) →
     ∃ w', handle now sid line w = Normal w'
       ∧ Store.messages (store w') = Store.messages (store w))
  ∧ (∀ frame v, JSON_parse line = Normal frame →
     withoutScratch v = withoutScratch w →
     ∃ w' v', handle now sid line w = Normal w'
       ∧ handle now sid line v = Normal v'
       ∧ withoutScratch v' = withoutScratch w'
       ∧ Store.messages (store v') = Store.messages (store w')).
Proof.
  split; [|split; [|split]].
  - intros r Hparse.
    destruct (handle_result now sid line r w Hparse) as (w' & Hw' & Hs & Ha & Ho).
    exists w'. rewrite Hs, Ha, Ho, !lookup_delete_eq. done.
  - intros msg parent Hparse.
    destruct (handle_assistant now sid line msg parent w Hparse)
      as (w' & Hw' & _ & Hs & Ha & Ho).
    exists w'. rewrite Hs, Ha, Ho, lookup_delete_eq.
    repeat split; try done.
    destruct (Store.streamingStartedAt (store w) !! sid) eqn:Hat; simpl.
    + done.
    + by rewrite lookup_insert_eq.
  - intros evt Hparse. by apply (handle_stream_event now sid line evt).
  - intros frame v Hparse Hsame.
    destruct (handle_withoutScratch now sid line frame w Hparse) as (w' & u' & Hw' & Hu' & Hwu).
    destruct (handle_withoutScratch now sid line frame v Hparse) as (v' & x' & Hv' & Hx' & Hvx).
    rewrite Hsame, Hu' in Hx'. injection Hx' as <-.
    exists w', v'. split; [done|]. split; [done|].
    assert (withoutScratch v' = withoutScratch w') as Heq by congruence.
    split; [done|]. by apply (f_equal (λ u, Store.messages (store u))) in Heq.
Qed.

(** *** Task derivation on [assistant] frames *)

Lemma handle_assistant_tasks now sid line msg parent w :
  JSON_parse line = Normal (assistant msg parent) →
  ∃ w0, handle now sid line w
        = Normal match am_content msg with
                 | [] => w0
                 | _ :: _ => extractTasksFromBlocks sid (am_content msg) w0
                 end
    ∧ Store.sessionTasks (store w0) = Store.sessionTasks (store w)
    ∧ taskCounters w0 = taskCounters w
    ∧ processedToolUseIds w0 = processedToolUseIds w.
Proof.
  intros Hparse. unfold handleMessage. rewrite Hparse.
  eexists. split; [reflexivity|].
  destruct (Store.streamingStartedAt (store w) !! sid); simpl;
    unfold Store.appendMessage; by destruct (truthy _ && _).
Qed.

(** *** Pending permission requests *)

(** The tool-use block that a permission request stands for. *)
Lemma handle_permission_request now sid line req w :
  JSON_parse line = Normal (permission_request req) →
  let w1 := with_store (Store.addPermission sid req) w in
  let w2 := extractTasksFromBlocks sid [permissionBlock req] w1 in
  ∃ w', handle now sid line w = Normal w'
    ∧ store w' = store w2
    ∧ taskCounters w' = taskCounters w2
    ∧ processed sid w' = processed sid w2.
Proof.
  intros Hparse w1 w2. unfold handleMessage. rewrite Hparse.
  eexists. split; [reflexivity|]. fold w1.
  unfold w2, permissionBlock.
  destruct (tool_name req) as [name|], (perm_input req) as [input|]; simpl.
  1: case_bool_decide; simpl.
  2: done.
  all: unfold extractTasksFromBlocks, getProcessedSet, processed; simpl.
  all: destruct (processedToolUseIds w !! sid) eqn:Hp; simpl; rewrite ?Hp;
    rewrite ?lookup_insert_eq; try done.
  all: subst; simpl; by rewrite ?Hp, ?lookup_insert_eq.
Qed.

(** C7. A permission request frame inserts the request under its request
    id in the session's pending map and leaves tasks, task counters and
    processed ids as the task derivation on the request's tool name and
    input leaves them; a cancellation frame deletes that request id from
    the session's pending map, and every other pending request stays. *)
Theorem permission_request_lifecycle (now : Z) (sid line : string) (w : World) :
  (∀ req, JSON_parse line = Normal (permission_request req) →
     ∃ w', handle now sid line w = Normal w'
       ∧ pendingOf sid w' = <[request_id req := req]> (pendingOf sid w)
       ∧ pendingOf sid w' !! request_id req = Some req
       ∧ (∀ rid, rid ≠ request_id req → pendingOf sid w' !! rid = pendingOf sid w !! rid)
       ∧ let derived :=
           extractTasksFromBlocks sid [permissionBlock req]
             (with_store (Store.addPermission sid req) w) in
         Store.sessionTasks (store w') = Store.sessionTasks (store derived)
         ∧ taskCounters w' = taskCounters derived
         ∧ processed sid w' = processed sid derived)
  ∧ (∀ rid, JSON_parse line = Normal (permission_cancelled rid) →
     ∃ w', handle now sid line w = Normal w'
       ∧ pendingOf sid w' = delete rid (pendingOf sid w)
       ∧ pendingOf sid w' !! rid = None
       ∧ (∀ rid', rid' ≠ rid → pendingOf sid w' !! rid' = pendingOf sid w !! rid')).
Proof.
  split.
  - intros req Hparse.
    destruct (handle_permission_request now sid line req w Hparse)
      as (w' & Hw' & Hs & Hk & Hp).
    set (w1 := with_store (Store.addPermission sid req) w) in *.
    destruct (extractTasks_frame sid [permissionBlock req] w1) as [Hf _].
    assert (pendingOf sid w' = <[request_id req := req]> (pendingOf sid w)) as Hpend.
    { unfold pendingOf. rewrite Hs, (tasksOnly_pending _ _ Hf).
      unfold w1. simpl. by rewrite lookup_insert_eq. }
    exists w'. split; [done|]. split; [done|]. rewrite Hpend.
    split; [by rewrite lookup_insert_eq|].
    split; [by intros rid Hrid; rewrite lookup_insert_ne|].
    simpl. by rewrite Hs.
  - intros rid Hparse. unfold handleMessage. rewrite Hparse.
    eexists. split; [reflexivity|].
    assert (pendingOf sid (with_store (Store.removePermission sid rid) w)
            = delete rid (pendingOf sid w)) as ->.
    { unfold pendingOf, Store.removePermission. simpl.
      destruct (Store.pendingPermissions (store w) !! sid) eqn:Hp; simpl.
      - by rewrite lookup_insert_eq.
      - rewrite Hp. simpl. by rewrite delete_empty. }
    split; [done|]. split; [by rewrite lookup_delete_eq|].
    intros rid' Hne. by rewrite lookup_delete_ne.
Qed.

End Frames.

(** The theorem of C8 at the sample frames, in the middle of a streamed
    turn. *)
Lemma scratch_state_at_turn_end_witness :
  (∃ w', handleMessage sampleParse sampleNames 250 "s1" "<result>" midStream = Normal w'
     ∧ Store.streaming (store w') !! "s1" = None
     ∧ Store.streamingStartedAt (store w') !! "s1" = None
     ∧ Store.streamingOutputTokens (store w') !! "s1" = None)
  ∧ (∃ w', handleMessage sampleParse sampleNames 250 "s1" "<assistant m1>" midStream
           = Normal w'
     ∧ Store.streaming (store w') !! "s1" = None
     ∧ Store.streamingStartedAt (store w') !! "s1" = Some 100
     ∧ Store.streamingOutputTokens (store w') !! "s1" = Some 42)
  ∧ (∃ w', handleMessage sampleParse sampleNames 250 "s1" "<delta>" midStream = Normal w'
     ∧ Store.messages (store w') = Store.messages (store midStream))
  ∧ (∃ w' v', handleMessage sampleParse sampleNames 250 "s1" "<assistant m1>" midStream
              = Normal w'
     ∧ handleMessage sampleParse sampleNames 250 "s1" "<assistant m1>"
         (withoutScratch midStream) = Normal v'
     ∧ withoutScratch v' = withoutScratch w'
     ∧ Store.messages (store v') = Store.messages (store w')).
Proof.
  split; [|split; [|split]].
  - exact (proj1 (scratch_state_at_turn_end sampleParse sampleNames 250 "s1"
                    "<result>" midStream) sampleResult eq_refl).
  - exact (proj1 (proj2 (scratch_state_at_turn_end sampleParse sampleNames 250 "s1"
                           "<assistant m1>" midStream))
             (sampleAssistant "m1" [BText "hello"]) None eq_refl).
  - exact (proj1 (proj2 (proj2 (scratch_state_at_turn_end sampleParse sampleNames 250 "s1"
                                  "<delta>" midStream)))
             (SeContentBlockDelta
                (Some {| delta_type := "text_delta"; delta_text := Some "par" |}))
             eq_refl).
  - exact (proj2 (proj2 (proj2 (scratch_state_at_turn_end sampleParse sampleNames 250 "s1"
                                  "<assistant m1>" midStream)))
             (assistant (sampleAssistant "m1" [BText "hello"]) None)
             (withoutScratch midStream) eq_refl eq_refl).
Defined.

(** C8 as stated fails on an [assistant] frame: in the middle of a streamed
    turn it leaves the start timestamp and the output-token counter in
    place. *)
Lemma assistant_frame_keeps_streaming_stats :
  sampleParse "<assistant m1>" = Normal (assistant (sampleAssistant "m1" [BText "hello"]) None)
  ∧ ∃ w', handleMessage sampleParse sampleNames 250 "s1" "<assistant m1>" midStream
          = Normal w'
      ∧ Store.streamingStartedAt (store w') !! "s1" = Some 100
      ∧ Store.streamingOutputTokens (store w') !! "s1" = Some 42
      ∧ Store.streamingStartedAt (store w') !! "s1" ≠ None
      ∧ Store.streamingOutputTokens (store w') !! "s1" ≠ None.
Proof.
  split; [done|]. eexists. split; [vm_compute; reflexivity|]. by vm_compute.
Qed.

(** The theorem of C1 at a line that is not JSON followed by the frame of a
    new message ["m1"], on an empty state. *)
Lemma malformed_line_dropped_witness :
  handleMessage sampleParse sampleNames 5 "s1" "not json {" emptyWorld = Normal emptyWorld
  ∧ ∃ w', handleAll sampleParse sampleNames "s1"
            [(5, "not json {"); (7, "<assistant m1>")] emptyWorld = Normal w'
      ∧ messagesOf "s1" w'
        = [assistantChatMessage (sampleAssistant "m1" [BText "hello"]) None 7].
Proof.
  exact (malformed_line_dropped sampleParse sampleNames 5 7 "s1" "not json {"
           "<assistant m1>" (sampleAssistant "m1" [BText "hello"]) None emptyWorld
           eq_refl eq_refl).
Defined.

(** C1 as stated fails when the frame replays a stored id: on a session
    that holds a message ["m1"], a line that is not JSON followed by the
    [assistant] frame of ["m1"] appends no message. *)
Lemma malformed_then_replayed_assistant_appends_nothing :
  let w := with_store (Store.appendMessage "s1" (sampleMessage (Some "m1") "hello")) emptyWorld in
  sampleParse "not json {" = Throws
  ∧ sampleParse "<assistant m1>" = Normal (assistant (sampleAssistant "m1" [BText "hello"]) None)
  ∧ ∃ w', handleAll sampleParse sampleNames "s1"
            [(5, "not json {"); (7, "<assistant m1>")] w = Normal w'
      ∧ length (messagesOf "s1" w') = length (messagesOf "s1" w)
      ∧ length (messagesOf "s1" w') ≠ S (length (messagesOf "s1" w)).
Proof.
  intros w. split; [done|]. split; [done|].
  eexists. split; [vm_compute; reflexivity|]. by vm_compute.
Qed.

(** The theorem of C7 at a request ["r1"] on an empty state, and at its
    cancellation while ["r1"] and ["r2"] are pending. *)
Lemma permission_request_lifecycle_witness :
  (∃ w', handleMessage sampleParse sampleNames 5 "s1" "<permission r1>" emptyWorld = Normal w'
     ∧ pendingOf "s1" w' !! "r1" = Some (sampleRequest "r1")
     ∧ tasksOf "s1" w' = [createdTask 1 (sampleInput "Review")])
  ∧ (∃ w', handleMessage sampleParse sampleNames 6 "s1" "<cancel r1>" twoPending = Normal w'
     ∧ pendingOf "s1" w' !! "r1" = None
     ∧ pendingOf "s1" w' !! "r2" = Some (sampleRequest "r2")).
Proof.
  split.
  - destruct (proj1 (permission_request_lifecycle sampleParse sampleNames 5 "s1"
                       "<permission r1>" emptyWorld) (sampleRequest "r1") eq_refl)
      as (w' & Hw' & _ & Hr1 & _ & Ht & _).
    exists w'. split; [done|]. split; [done|].
    unfold tasksOf. rewrite Ht. reflexivity.
  - destruct (proj2 (permission_request_lifecycle sampleParse sampleNames 6 "s1"
                       "<cancel r1>" twoPending) "r1" eq_refl)
      as (w' & Hw' & _ & Hr1 & Hother).
    exists w'. split; [done|]. split; [done|].
    rewrite (Hother "r2"); done.
Defined.

End WsFacts.

(** ** The push manager *)

Section PushFacts.

Import PushManager PushObs.

Lemma load_save subs st : loadSubscriptions (saveSubscriptions subs st) = subs.
Proof. done. Qed.

Lemma findIndex_Some ep subs i :
  findIndex ep subs = Some i →
  ∃ s, subs !! i = Some s ∧ endpoint s = ep.
Proof.
  unfold findIndex. destruct (list_find _ subs) as [[j s]|] eqn:Hf; [|done].
  intros [= <-]. apply list_find_Some in Hf as (? & ? & _). eauto.
Qed.

Lemma findIndex_None ep subs :
  findIndex ep subs = None ↔ ep ∉ endpoint <$> subs.
Proof.
  unfold findIndex. rewrite fmap_None, list_find_None, Forall_forall.
  rewrite list_elem_of_fmap. split.
  - intros Hnone (s & -> & Hs). by apply (Hnone s).
  - intros Hnot s Hs Hep. apply Hnot. by exists s.
Qed.

Lemma findIndex_is_Some ep subs :
  ep ∈ endpoint <$> subs → is_Some (findIndex ep subs).
Proof.
  intros Hin. destruct (findIndex ep subs) eqn:Hf; [eauto|].
  by apply findIndex_None in Hf.
Qed.

Lemma addSubscription_replace sub st i :
  findIndex (endpoint sub) (loadSubscriptions st) = Some i →
  loadSubscriptions (addSubscription sub st) = <[i := sub]> (loadSubscriptions st).
Proof. intros Hf. unfold addSubscription. by rewrite Hf. Qed.

Lemma addSubscription_push sub st :
  findIndex (endpoint sub) (loadSubscriptions st) = None →
  loadSubscriptions (addSubscription sub st) = loadSubscriptions st ++ [sub].
Proof. intros Hf. unfold addSubscription. by rewrite Hf. Qed.

Lemma endpoints_addSubscription_replace sub st i :
  findIndex (endpoint sub) (loadSubscriptions st) = Some i →
  endpoints (addSubscription sub st) = endpoints st.
Proof.
  intros Hf. unfold endpoints. rewrite (addSubscription_replace _ _ _ Hf).
  destruct (findIndex_Some _ _ _ Hf) as (s & Hs & Hep).
  rewrite list_fmap_insert. apply list_insert_id.
  by rewrite list_lookup_fmap, Hs, <- Hep.
Qed.

Lemma addSubscription_NoDup sub st :
  NoDup (endpoints st) → NoDup (endpoints (addSubscription sub st)).
Proof.
  intros Hnd. destruct (findIndex (endpoint sub) (loadSubscriptions st)) as [i|] eqn:Hf.
  - by rewrite (endpoints_addSubscription_replace _ _ _ Hf).
  - unfold endpoints. rewrite (addSubscription_push _ _ Hf), fmap_app.
    apply NoDup_app. split; [done|]. split; [|apply NoDup_singleton].
    intros ep' Hep ->%list_elem_of_singleton. by apply findIndex_None in Hf.
Qed.

Lemma filter_length_eq {A} (P : A → Prop) `{∀ x, Decision (P x)} (l : list A) :
  length (filter P l) = length l → filter P l = l.
Proof.
  induction l as [|x l IH]; [done|]. intros Hlen.
  destruct (decide (P x)) as [HP|HP].
  - rewrite filter_cons_True in * by done. simpl in Hlen. f_equal. apply IH. lia.
  - rewrite filter_cons_False in Hlen by done.
    pose proof (length_filter P l). simpl in Hlen. lia.
Qed.

Lemma removeSubscription_load ep st :
  loadSubscriptions (removeSubscription ep st).2
  = filter (λ s, endpoint s ≠ ep) (loadSubscriptions st).
Proof.
  unfold removeSubscription. case_bool_decide as Hlen; simpl; [|done].
  symmetry. by apply filter_length_eq.
Qed.

Lemma NoDup_fmap_filter {A B} (f : A → B) (P : A → Prop) `{∀ x, Decision (P x)} (l : list A) :
  NoDup (f <$> l) → NoDup (f <$> filter P l).
Proof. intros Hnd. eapply sublist_NoDup; [done|]. apply fmap_sublist, sublist_filter. Qed.

Lemma removeSubscription_NoDup ep st :
  NoDup (endpoints st) → NoDup (endpoints (removeSubscription ep st).2).
Proof. unfold endpoints. rewrite removeSubscription_load. apply NoDup_fmap_filter. Qed.

Lemma filter_all_of_not_elem ep (subs : list PushSubscriptionData) :
  ep ∉ endpoint <$> subs → filter (λ s, endpoint s ≠ ep) subs = subs.
Proof.
  intros Hnot. induction subs as [|s subs IH]; [done|].
  rewrite fmap_cons, not_elem_of_cons in Hnot. destruct Hnot as [Hne Hnot].
  rewrite filter_cons_True by done. by rewrite IH.
Qed.

(** C9. At most one subscription is stored per endpoint: adding and
    removing keep the stored endpoints free of duplicates. Adding a
    subscription whose endpoint is stored replaces the entry where it
    stands: the number of subscriptions is unchanged, the entry found for
    the endpoint is the new subscription, and when endpoints are not
    duplicated every stored subscription with that endpoint is the new one.
    Removing an endpoint that is not stored returns [false] and leaves the
    state, and so the stored list, unchanged. *)
Theorem addSubscription_one_per_endpoint (sub : PushSubscriptionData) (ep : string)
    (st : State) :
  (NoDup (endpoints st) →
     NoDup (endpoints (addSubscription sub st))
     ∧ NoDup (endpoints (removeSubscription ep st).2))
  ∧ (endpoint sub ∈ endpoints st →
     length (getAllSubscriptions (addSubscription sub st))
       = length (getAllSubscriptions st)
     ∧ endpoints (addSubscription sub st) = endpoints st
     ∧ (∃ i, findIndex (endpoint sub) (getAllSubscriptions st) = Some i
          ∧ getAllSubscriptions (addSubscription sub st)
            = <[i := sub]> (getAllSubscriptions st)
          ∧ getAllSubscriptions (addSubscription sub st) !! i = Some sub)
     ∧ (NoDup (endpoints st) →
        ∀ s, s ∈ getAllSubscriptions (addSubscription sub st) →
             endpoint s = endpoint sub → keys s = keys sub))
  ∧ (ep ∉ endpoints st → removeSubscription ep st = (false, st)).
Proof.
  split; [|split].
  - intros Hnd. split; [by apply addSubscription_NoDup|by apply removeSubscription_NoDup].
  - intros Hin. unfold getAllSubscriptions.
    destruct (findIndex_is_Some _ _ Hin) as [i Hf].
    destruct (findIndex_Some _ _ _ Hf) as (s0 & Hs0 & Hep0).
    pose proof (addSubscription_replace _ _ _ Hf) as Hload.
    assert (loadSubscriptions (addSubscription sub st) !! i = Some sub) as Hi.
    { rewrite Hload. apply list_lookup_insert_eq. by eapply lookup_lt_Some. }
    split; [by rewrite Hload, length_insert|].
    split; [by apply (endpoints_addSubscription_replace _ _ i)|].
    split; [by exists i|].
    intros Hnd s Hs Heq.
    apply list_elem_of_lookup in Hs as [j Hj].
    assert (j = i) as ->.
    { eapply (NoDup_lookup (endpoints (addSubscription sub st))).
      - by apply addSubscription_NoDup.
      - unfold endpoints. by rewrite list_lookup_fmap, Hj.
      - unfold endpoints. rewrite list_lookup_fmap, Hi. simpl. by rewrite Heq. }
    congruence.
  - intros Hnot. unfold removeSubscription.
    by rewrite (filter_all_of_not_elem _ _ Hnot), bool_decide_eq_true_2.
Qed.

Section Sending.

Variable generateVAPIDKeys : VapidKeys.
Variable setVapidDetails : string → string → string → Completion unit.
Variable sendNotification : nat → PushSubscriptionData → PushPayload → SendOutcome.

Abbreviation expiredOf := (expiredEndpoints sendNotification).
Abbreviation sendAll := (sendPushToAll generateVAPIDKeys setVapidDetails sendNotification).
Abbreviation accepts k :=
  (setVapidDetails "mailto:companion@localhost" (publicKey k) (privateKey k)).

Lemma isExpired_spec o :
  isExpired o = true ↔ o = Rejected (Some 410) ∨ o = Rejected (Some 404).
Proof.
  destruct o as [|[code|]|]; simpl; try (split; [done|intros [|]; done]).
  rewrite orb_true_iff, !bool_decide_eq_true. split.
  - intros [->| ->]; eauto.
  - intros [[= ->]|[= ->]]; eauto.
Qed.

Lemma elem_of_expiredEndpoints payload subs ep :
  ep ∈ expiredOf payload subs ↔
  ∃ i s, subs !! i = Some s ∧ isExpired (sendNotification i s payload) = true
         ∧ endpoint s = ep.
Proof.
  unfold expiredEndpoints. rewrite list_elem_of_omap. split.
  - intros ([i s] & Hin & Hep). apply elem_of_lookup_imap in Hin as (j & y & [= -> ->] & Hj).
    simpl in Hep. destruct (isExpired _) eqn:He; [|done].
    exists j, y. by injection Hep as <-.
  - intros (i & s & Hs & He & <-). exists (i, s). split.
    + apply elem_of_lookup_imap. eauto.
    + simpl. by rewrite He.
Qed.

Lemma load_cleanUp expired st :
  loadSubscriptions (cleanUp expired st)
  = filter (λ s, endpoint s ∉ expired) (loadSubscriptions st).
Proof.
  destruct expired as [|ep expired]; [|done]. simpl.
  induction (loadSubscriptions st) as [|s l IH]; [done|].
  rewrite filter_cons_True by apply not_elem_of_nil. by rewrite <- IH.
Qed.

Lemma loadVapidKeys_subscriptions st k st' :
  loadVapidKeys generateVAPIDKeys st = Normal (k, st') →
  loadSubscriptions st' = loadSubscriptions st.
Proof.
  unfold loadVapidKeys, loadSubscriptions.
  destruct (vapidKeys st); [by intros [= <- <-]|].
  destruct (vapidFile st); [| |]; intros [= <- <-]; done.
Qed.

Lemma loadVapidKeys_Throws st :
  loadVapidKeys generateVAPIDKeys st = Throws ↔ vapidKeys st = None ∧ vapidFile st = Corrupt.
Proof.
  unfold loadVapidKeys. destruct (vapidKeys st) as [k|].
  { split; [done|]. by intros [[=] _]. }
  destruct (vapidFile st); (split; [try done|]); by intros [_ [=]].
Qed.

(** C10. Sending prunes exactly the subscriptions that failed for good, and
    no send makes the call throw. How the call completes does not depend on
    what the sends do: it throws exactly when there is a subscription and
    the keys cannot be loaded or [webpush.setVapidDetails] does not accept
    them, which is settled before the first send. When the keys load and
    are accepted, the call returns normally, the stored list is the old one
    without the endpoints whose send was rejected with 410 or 404, and,
    endpoints being stored once, a subscription stays stored exactly when
    its own send was not rejected with 410 or 404: a success, a rejection
    with another status or without a readable one keeps it. *)
Theorem sendPushToAll_prunes_expired (payload : PushPayload) (st : State) :
  (∀ send',
     (sendPushToAll generateVAPIDKeys setVapidDetails send' payload st).1
     = (sendAll payload st).1)
  ∧ ((sendAll payload st).1 = Throws ↔
       getAllSubscriptions st ≠ []
       ∧ (loadVapidKeys generateVAPIDKeys st = Throws
          ∨ ∃ k st1, loadVapidKeys generateVAPIDKeys st = Normal (k, st1)
                     ∧ accepts k = Throws))
  ∧ (∀ k st1,
       loadVapidKeys generateVAPIDKeys st = Normal (k, st1) →
       accepts k = Normal () →
       NoDup (endpoints st) →
       ∃ st', sendAll payload st = (Normal (), st')
         ∧ getAllSubscriptions st'
           = filter (λ s, endpoint s ∉ expiredOf payload (getAllSubscriptions st))
                    (getAllSubscriptions st)
         ∧ ∀ i sub, getAllSubscriptions st !! i = Some sub →
             (sub ∈ getAllSubscriptions st' ↔
                sendNotification i sub payload ≠ Rejected (Some 410)
                ∧ sendNotification i sub payload ≠ Rejected (Some 404))).
Proof.
  unfold getAllSubscriptions. split; [|split].
  - intros send'. unfold sendPushToAll. destruct (loadSubscriptions st); [done|].
    destruct (loadVapidKeys _ st) as [[k st1]|]; [|done].
    by destruct (accepts k).
  - unfold sendPushToAll. destruct (loadSubscriptions st) as [|s0 subs].
    { split; [done|]. by intros [? _]. }
    destruct (loadVapidKeys _ st) as [[k st1]|] eqn:Hk.
    + destruct (accepts k) eqn:Hacc; simpl.
      * split; [done|]. intros (_ & [?|(k' & st' & [= <- <-] & ?)]); congruence.
      * split; [|done]. intros _. split; [done|]. right. by exists k, st1.
    + split; [|done]. intros _. split; [done|]. by left.
  - intros k st1 Hk Hacc Hnd.
    assert (∃ st', sendAll payload st = (Normal (), st')
              ∧ loadSubscriptions st'
                = filter (λ s, endpoint s ∉ expiredOf payload (loadSubscriptions st))
                         (loadSubscriptions st)) as (st' & Hsend & Hload).
    { unfold sendPushToAll. destruct (loadSubscriptions st) as [|s0 subs] eqn:Hsubs.
      - exists st. by rewrite Hsubs.
      - rewrite Hk, Hacc. eexists. split; [done|]. rewrite load_cleanUp.
        by rewrite (loadVapidKeys_subscriptions _ _ _ Hk), Hsubs. }
    exists st'. split; [done|]. split; [done|].
    intros i sub Hi. rewrite Hload, list_elem_of_filter, elem_of_expiredEndpoints.
    assert (isExpired (sendNotification i sub payload) = false ↔
            sendNotification i sub payload ≠ Rejected (Some 410)
            ∧ sendNotification i sub payload ≠ Rejected (Some 404)) as <-.
    { rewrite <- not_true_iff_false, isExpired_spec. tauto. }
    split.
    + intros [Hnot _]. apply not_true_is_false. intros He. apply Hnot. by exists i, sub.
    + intros He. split; [|by eapply list_elem_of_lookup_2].
      intros (j & s & Hj & Hej & Hep).
      assert (j = i) as ->.
      { apply (NoDup_lookup (endpoints st) j i (endpoint sub)); [done| |].
        - unfold endpoints. by rewrite list_lookup_fmap, Hj, <- Hep.
        - unfold endpoints. by rewrite list_lookup_fmap, Hi. }
      congruence.
Qed.

End Sending.

(** The theorem of C9 on three stored subscriptions: new keys for a stored
    endpoint, and the removal of an endpoint that is not stored. *)
Lemma addSubscription_one_per_endpoint_witness :
  let sub := sampleSub "https://push.example.com/expired" "updated" in
  NoDup (endpoints (addSubscription sub threeSubs))
  ∧ length (getAllSubscriptions (addSubscription sub threeSubs)) = 3%nat
  ∧ getAllSubscriptions (addSubscription sub threeSubs) !! 1%nat = Some sub
  ∧ removeSubscription "https://unknown.example.com" threeSubs = (false, threeSubs).
Proof.
  intros sub.
  pose proof (addSubscription_one_per_endpoint sub "https://unknown.example.com" threeSubs)
    as (Hinv & Hadd & Hrem).
  assert (NoDup (endpoints threeSubs)) as Hnd by compute_done.
  assert (endpoint sub ∈ endpoints threeSubs) as Hin by compute_done.
  destruct (Hadd Hin) as (Hlen & _ & (i & Hi & _ & Hlookup) & _).
  split; [exact (proj1 (Hinv Hnd))|]. split; [exact Hlen|].
  split; [|apply Hrem; compute_done].
  vm_compute in Hi. injection Hi as <-. exact Hlookup.
Defined.

(** The theorem of C10 on the three subscriptions: with keys that are
    accepted, the subscription rejected with 410 goes and the one rejected
    with 500 stays; with a key file whose keys are not accepted the call
    throws. *)
Lemma sendPushToAll_prunes_expired_witness :
  (∃ st', sendPushToAll sampleKeys sampleCheck sampleSend samplePayload threeSubs
          = (Normal (), st')
     ∧ getAllSubscriptions st'
       = [sampleSub "https://push.example.com/sub" "k1";
          sampleSub "https://push.example.com/flaky" "k3"])
  ∧ (sendPushToAll sampleKeys sampleCheck sampleSend samplePayload threeSubsBadKeys).1
    = Throws.
Proof.
  split.
  - destruct (proj2 (proj2 (sendPushToAll_prunes_expired sampleKeys sampleCheck sampleSend
                              samplePayload threeSubs))
                sampleKeys
                {| vapidFile := Content sampleKeys;
                   subscriptionsFile := subscriptionsFile threeSubs;
                   vapidKeys := Some sampleKeys |})
      as (st' & Hsend & Hload & _).
    + reflexivity.
    + reflexivity.
    + compute_done.
    + exists st'. split; [exact Hsend|]. rewrite Hload. vm_compute. reflexivity.
  - apply (proj1 (proj2 (sendPushToAll_prunes_expired sampleKeys sampleCheck sampleSend
                           samplePayload threeSubsBadKeys))).
    split; [discriminate|]. right.
    exists badKeys, {| vapidFile := Content badKeys;
                       subscriptionsFile := subscriptionsFile threeSubs;
                       vapidKeys := Some badKeys |}.
    split; reflexivity.
Defined.

End PushFacts.

(** ** The recovery paths *)

Section ServerFacts.
Import Server ServerObs.

Implicit Types (st : State) (sid s : string) (l : gmap string SdkSessionInfo).

(** *** The launcher's table *)

Lemma lookup_markConnected l s sid :
  markConnected s l !! sid
  = if decide (s = sid)
    then (λ i, {| sessionId := sessionId i; state := connected; archived := archived i |})
           <$> l !! sid
    else l !! sid.
Proof.
  unfold markConnected. destruct (decide (s = sid)) as [->|Hne].
  - by rewrite lookup_alter_eq.
  - by rewrite lookup_alter_ne.
Qed.

Lemma lookup_relaunched l s sid :
  relaunched s l !! sid
  = if decide (s = sid)
    then (λ i, {| sessionId := sessionId i; state := starting; archived := archived i |})
           <$> l !! sid
    else l !! sid.
Proof.
  unfold relaunched. destruct (decide (s = sid)) as [->|Hne].
  - by rewrite lookup_alter_eq.
  - by rewrite lookup_alter_ne.
Qed.

Lemma lookup_setArchived l s b sid :
  setArchived s b l !! sid
  = if decide (s = sid)
    then (λ i, {| sessionId := sessionId i; state := state i; archived := b |}) <$> l !! sid
    else l !! sid.
Proof.
  unfold setArchived. destruct (decide (s = sid)) as [->|Hne].
  - by rewrite lookup_alter_eq.
  - by rewrite lookup_alter_ne.
Qed.

Lemma lookup_markExited l s sid :
  markExited s l !! sid
  = if decide (s = sid)
    then (λ i, {| sessionId := sessionId i; state := exited; archived := archived i |})
           <$> l !! sid
    else l !! sid.
Proof.
  unfold markExited. destruct (decide (s = sid)) as [->|Hne].
  - by rewrite lookup_alter_eq.
  - by rewrite lookup_alter_ne.
Qed.

Lemma elem_of_getStartingSessions l sid :
  sid ∈ getStartingSessions l ↔ ∃ i, l !! sid = Some i ∧ state i = starting.
Proof.
  unfold getStartingSessions. rewrite list_elem_of_fmap. split.
  - intros ([k i] & -> & Hin). apply list_elem_of_filter in Hin as [Hst Hin].
    apply elem_of_map_to_list in Hin. eauto.
  - intros (i & Hl & Hst). exists (sid, i). split; [done|].
    apply list_elem_of_filter. split; [done|]. by apply elem_of_map_to_list.
Qed.

Lemma NoDup_getStartingSessions l : NoDup (getStartingSessions l).
Proof.
  unfold getStartingSessions.
  eapply sublist_NoDup; [apply (NoDup_fst_map_to_list l)|].
  apply fmap_sublist, sublist_filter.
Qed.

(** *** Calls of [launcher.relaunch] *)

Lemma callsFor_relaunch p s sid st :
  callsFor sid (relaunch p s st)
  = callsFor sid st
    ++ if decide (s = sid)
       then [{| call_path := p; call_sid := s; call_time := now st |}] else [].
Proof.
  unfold callsFor. simpl. by rewrite filter_app.
Qed.

Lemma callsBy_relaunch p q s sid st :
  callsBy q sid (relaunch p s st)
  = callsBy q sid st
    ++ if decide (p = q ∧ s = sid)
       then [{| call_path := p; call_sid := s; call_time := now st |}] else [].
Proof.
  unfold callsBy. simpl. by rewrite filter_app.
Qed.

Lemma isArchived_relaunched s sid l : isArchived sid (relaunched s l) = isArchived sid l.
Proof.
  unfold isArchived. rewrite lookup_relaunched.
  destruct (decide (s = sid)); [|done]. by destruct (l !! sid).
Qed.

Lemma isArchived_markConnected s sid l :
  isArchived sid (markConnected s l) = isArchived sid l.
Proof.
  unfold isArchived. rewrite lookup_markConnected.
  destruct (decide (s = sid)); [|done]. by destruct (l !! sid).
Qed.

Lemma isArchived_markExited s sid l :
  isArchived sid (markExited s l) = isArchived sid l.
Proof.
  unfold isArchived. rewrite lookup_markExited.
  destruct (decide (s = sid)); [|done]. by destruct (l !! sid).
Qed.

Lemma isArchived_setArchived_ne s b sid l :
  s ≠ sid → isArchived sid (setArchived s b l) = isArchived sid l.
Proof.
  intros Hne. unfold isArchived. rewrite lookup_setArchived. by rewrite decide_False.
Qed.

Lemma isArchived_setArchived_true sid l :
  isArchived sid l = true → isArchived sid (setArchived sid true l) = true.
Proof.
  unfold isArchived. rewrite lookup_setArchived, decide_True by done.
  by destruct (l !! sid).
Qed.

(** *** Timers *)

Lemma foldl_runTimer_ind (P : State → Prop) (due : list (N * Timer)) st :
  P st →
  (∀ cb st', P st' → P (runTimer cb st')) →
  P (foldl (λ st x, runTimer x.2 st) st due).
Proof.
  intros Hst Hstep. revert st Hst.
  induction due as [|x due IH]; intros st Hst; simpl; [done|].
  apply IH. by apply Hstep.
Qed.

(** *** Archived sessions *)

Lemma watchdogLoop_archived sid rest st :
  isArchived sid (launcher st) = true →
  isArchived sid (launcher (watchdogLoop rest st)) = true
  ∧ callsFor sid (watchdogLoop rest st) = callsFor sid st.
Proof.
  intros Harch. induction rest as [|s rest IH]; simpl; [done|].
  destruct (isArchived s (launcher st)) eqn:Hs; [done|]. simpl.
  rewrite isArchived_relaunched. split; [done|].
  change (callsFor sid (relaunch BootWatchdog s st) = callsFor sid st).
  rewrite callsFor_relaunch, decide_False, app_nil_r; [done|].
  intros ->. congruence.
Qed.

Lemma runTimer_archived sid cb st :
  isArchived sid (launcher st) = true →
  isArchived sid (launcher (runTimer cb st)) = true
  ∧ callsFor sid (runTimer cb st) = callsFor sid st.
Proof.
  intros Harch. destruct cb as [s|]; simpl; [done|].
  by apply watchdogLoop_archived.
Qed.

Lemma relaunchNeeded_archived sid st :
  isArchived sid (launcher st) = true → relaunchNeeded sid st = st.
Proof.
  unfold isArchived, relaunchNeeded, getSession. intros Harch.
  case_bool_decide; [done|].
  destruct (launcher st !! sid) as [i|]; [|done]. by rewrite Harch.
Qed.

Lemma relaunchNeeded_other s sid st :
  s ≠ sid →
  callsFor sid (relaunchNeeded s st) = callsFor sid st
  ∧ isArchived sid (launcher (relaunchNeeded s st)) = isArchived sid (launcher st).
Proof.
  intros Hne. unfold relaunchNeeded, getSession.
  case_bool_decide; [done|].
  destruct (launcher st !! s) as [i|]; [|done].
  destruct (archived i); [done|]. case_bool_decide; [|done]. simpl.
  rewrite isArchived_relaunched. split; [|done].
  change (callsFor sid (relaunch OnDemand s
            (with_relaunchingSet ({[s]} ∪ relaunchingSet st) st)) = callsFor sid st).
  by rewrite callsFor_relaunch, decide_False, app_nil_r.
Qed.

Lemma step_archived sid st e :
  isArchived sid (launcher st) = true →
  callsFor sid (step st e) = callsFor sid st
  ∧ (e ≠ SetArchived sid false → isArchived sid (launcher (step st e)) = true).
Proof.
  intros Harch. destruct e as [s|s|s|ok|t|s b|s]; simpl.
  - by rewrite isArchived_markConnected.
  - destruct (decide (s = sid)) as [->|Hne].
    + by rewrite relaunchNeeded_archived.
    + destruct (relaunchNeeded_other s sid st Hne) as [-> ->]. done.
  - unfold relaunchSettled. by case_bool_decide.
  - unfold watchdogResumed. destruct (watchdog st) as [rest|]; [|done].
    destruct ok; [|done].
    destruct (watchdogLoop_archived sid rest st Harch). done.
  - unfold advance.
    match goal with
    | |- context [foldl ?f ?a ?b] =>
        assert (isArchived sid (launcher (foldl f a b)) = true
                ∧ callsFor sid (foldl f a b) = callsFor sid st) as [? ?]
    end; [|done].
    apply foldl_runTimer_ind; [done|].
    intros cb st' [Ha Hc]. destruct (runTimer_archived sid cb st' Ha) as [? ->]. done.
  - split; [done|]. intros Hne. destruct (decide (s = sid)) as [->|Hs].
    + destruct b; [|done]. by apply isArchived_setArchived_true.
    + by rewrite isArchived_setArchived_ne.
  - by rewrite isArchived_markExited.
Qed.

(** C6. An archived session is relaunched by neither path. With the
    launcher record of [sid] marked archived, the callback of the
    browser-attach path returns without any effect, the watchdog's timer
    makes no relaunch call for [sid] when it fires, and along any run of the
    server in which the record is not unarchived the calls of
    [launcher.relaunch] for [sid] stay what they were. *)
Theorem archived_never_relaunched (sid : string) (st : State) (evs : list Event) :
  isArchived sid (launcher st) = true →
  Forall (λ e, e ≠ SetArchived sid false) evs →
  relaunchNeeded sid st = st
  ∧ callsFor sid (runTimer Watchdog st) = callsFor sid st
  ∧ callsFor sid (run st evs) = callsFor sid st.
Proof.
  intros Harch Hevs.
  split; [by apply relaunchNeeded_archived|].
  split; [by apply runTimer_archived|].
  revert st Harch. induction Hevs as [|e evs He _ IH]; intros st Harch; [done|].
  destruct (step_archived sid st e Harch) as [Hc Ha].
  unfold run in *. simpl. rewrite IH; [done|]. by apply Ha.
Qed.

(** The theorem of C6 on a restored table in which ["s2"] is [starting] and
    archived: a request, the watchdog, and a request after the agent has
    dialled back. *)
Lemma archived_never_relaunched_witness :
  relaunchNeeded "s2" (boot restored) = boot restored
  ∧ callsFor "s2" (runTimer Watchdog (boot restored)) = callsFor "s2" (boot restored)
  ∧ callsFor "s2"
      (run (boot restored)
         [RelaunchNeeded "s2"; Advance 10000; WatchdogResumed true; CliOpen "s2";
          RelaunchNeeded "s2"])
    = callsFor "s2" (boot restored).
Proof.
  refine (archived_never_relaunched "s2" (boot restored)
            [RelaunchNeeded "s2"; Advance 10000%N; WatchdogResumed true; CliOpen "s2";
             RelaunchNeeded "s2"] _ _).
  - vm_compute. reflexivity.
  - repeat (constructor; [discriminate|]). constructor.
Defined.

(** *** The guard set *)

Lemma elem_of_clears (ts : list (N * Timer)) sid :
  sid ∈ clears ts ↔ ∃ d, (d, ClearRelaunching sid) ∈ ts.
Proof.
  unfold clears. rewrite list_elem_of_omap. split.
  - intros ([d cb] & Hin & Hcb). simpl in Hcb. destruct cb; [|done].
    injection Hcb as ->. eauto.
  - intros (d & Hin). by exists (d, ClearRelaunching sid).
Qed.

Lemma elem_of_addTimer d cb (ts : list (N * Timer)) x :
  x ∈ addTimer d cb ts ↔ x = (d, cb) ∨ x ∈ ts.
Proof.
  induction ts as [|[d' cb'] ts IH]; simpl.
  - rewrite list_elem_of_singleton. set_solver.
  - case_bool_decide; set_solver.
Qed.

Lemma addTimer_Permutation d cb (ts : list (N * Timer)) :
  addTimer d cb ts ≡ₚ (d, cb) :: ts.
Proof.
  induction ts as [|[d' cb'] ts IH]; simpl; [done|].
  case_bool_decide; [|done]. rewrite IH. apply Permutation_swap.
Qed.

Lemma clears_addTimer d sid (ts : list (N * Timer)) :
  clears (addTimer d (ClearRelaunching sid) ts) ≡ₚ sid :: clears ts.
Proof. unfold clears. by rewrite addTimer_Permutation. Qed.

Lemma watchdogLoop_frame rest st :
  relaunchingSet (watchdogLoop rest st) = relaunchingSet st
  ∧ timers (watchdogLoop rest st) = timers st
  ∧ now (watchdogLoop rest st) = now st
  ∧ inflight (watchdogLoop rest st) = inflight st.
Proof.
  induction rest as [|s rest IH]; simpl; [done|].
  by destruct (isArchived s (launcher st)).
Qed.

Lemma watchdogResumed_frame ok st :
  relaunchingSet (watchdogResumed ok st) = relaunchingSet st
  ∧ timers (watchdogResumed ok st) = timers st
  ∧ now (watchdogResumed ok st) = now st
  ∧ inflight (watchdogResumed ok st) = inflight st.
Proof.
  unfold watchdogResumed. destruct (watchdog st) as [rest|]; [|done].
  destruct ok; [apply watchdogLoop_frame|done].
Qed.

Lemma foldl_runTimer_frame (due : list (N * Timer)) st :
  relaunchingSet (foldl (λ st x, runTimer x.2 st) st due)
    = relaunchingSet st ∖ list_to_set (clears due)
  ∧ timers (foldl (λ st x, runTimer x.2 st) st due) = timers st
  ∧ now (foldl (λ st x, runTimer x.2 st) st due) = now st
  ∧ inflight (foldl (λ st x, runTimer x.2 st) st due) = inflight st.
Proof.
  revert st. induction due as [|[d cb] due IH]; intros st; simpl.
  - split; [set_solver|done].
  - destruct (IH (runTimer cb st)) as (-> & -> & -> & ->).
    destruct cb as [s|]; simpl.
    + split; [set_solver|done].
    + destruct (watchdogLoop_frame (getStartingSessions (launcher st)) st)
        as (-> & -> & -> & ->). done.
Qed.

Lemma guarded_boot l : guarded (boot l).
Proof.
  unfold guarded, boot. simpl.
  assert (clears match getStartingSessions l with
                 | [] => []
                 | _ :: _ => [(RECONNECT_GRACE_MS, Watchdog)]
                 end = []) as -> by (by destruct (getStartingSessions l)).
  split; [set_solver|]. split; [set_solver|]. apply NoDup_nil_2.
Qed.

Lemma guarded_step st e : guarded st → guarded (step st e).
Proof.
  intros (Hfl & Hcl & Hnd). destruct e as [s|s|s|ok|t|s b|s]; simpl.
  - done.
  - unfold relaunchNeeded, getSession. case_bool_decide as Hs; [done|].
    destruct (launcher st !! s) as [i|]; [|done].
    destruct (archived i); [done|]. case_bool_decide; [|done].
    unfold guarded. simpl. split; [|split; [|done]].
    + intros x [->%elem_of_singleton|Hx]%elem_of_union.
      * split; [set_solver|]. intros Hx. by apply Hs, Hcl.
      * destruct (Hfl x Hx). split; [set_solver|done].
    + intros x Hx. apply elem_of_union_r. by apply Hcl.
  - unfold relaunchSettled. case_bool_decide as Hs; [|done].
    destruct (Hfl s Hs) as [Hset Hnc].
    unfold guarded. simpl. split; [|split].
    + intros x [Hx Hne]%elem_of_difference. destruct (Hfl x Hx) as [? Hxc].
      split; [done|]. rewrite clears_addTimer. set_solver.
    + intros x. rewrite clears_addTimer. intros [->|Hx]%elem_of_cons; [done|by apply Hcl].
    + rewrite clears_addTimer. by apply NoDup_cons.
  - unfold guarded. by destruct (watchdogResumed_frame ok st) as (-> & -> & _ & ->).
  - unfold advance.
    set (due := filter (λ x, (x.1 ≤ t)%N) (timers st)).
    set (rest := filter (λ x, ¬ (x.1 ≤ t)%N) (timers st)).
    assert (clears due ++ clears rest ≡ₚ clears (timers st)) as Hperm.
    { unfold clears. rewrite <- omap_app. apply omap_Permutation, filter_app_complement. }
    rewrite <- Hperm in Hnd. apply NoDup_app in Hnd as (_ & Hdisj & Hndr).
    unfold guarded.
    destruct (foldl_runTimer_frame due
                (with_now (N.max (now st) t) (with_timers rest st))) as (-> & -> & _ & ->).
    simpl. split; [|split; [|done]].
    + intros x Hx. destruct (Hfl x Hx) as [Hxs Hxc]. rewrite <- Hperm in Hxc.
      split; [|set_solver]. apply elem_of_difference. split; [done|].
      rewrite elem_of_list_to_set. set_solver.
    + intros x Hx. apply elem_of_difference. split.
      * apply Hcl. rewrite <- Hperm. set_solver.
      * rewrite elem_of_list_to_set. intros Hd. by apply (Hdisj x).
  - done.
  - done.
Qed.

Lemma guarded_run st evs : guarded st → guarded (run st evs).
Proof.
  revert st. induction evs as [|e evs IH]; intros st Hg; [done|].
  apply IH. by apply guarded_step.
Qed.

(** *** The relaunch window *)

Lemma callsBy_OnDemand_watchdogLoop sid rest st :
  callsBy OnDemand sid (watchdogLoop rest st) = callsBy OnDemand sid st.
Proof.
  induction rest as [|s rest IH]; simpl; [done|].
  destruct (isArchived s (launcher st)); [done|].
  change (callsBy OnDemand sid (relaunch BootWatchdog s st) = callsBy OnDemand sid st).
  rewrite callsBy_relaunch, decide_False, app_nil_r; [done|]. by intros [? _].
Qed.

Lemma callsBy_OnDemand_watchdogResumed sid ok st :
  callsBy OnDemand sid (watchdogResumed ok st) = callsBy OnDemand sid st.
Proof.
  unfold watchdogResumed. destruct (watchdog st); [|done].
  destruct ok; [apply callsBy_OnDemand_watchdogLoop|done].
Qed.

Lemma callsBy_OnDemand_runTimer sid cb st :
  callsBy OnDemand sid (runTimer cb st) = callsBy OnDemand sid st.
Proof. destruct cb; [done|]. apply callsBy_OnDemand_watchdogLoop. Qed.

Lemma callsBy_OnDemand_advance sid t st :
  callsBy OnDemand sid (advance t st) = callsBy OnDemand sid st.
Proof.
  unfold advance.
  apply (foldl_runTimer_ind (λ st', callsBy OnDemand sid st' = callsBy OnDemand sid st));
    [done|].
  intros cb st' <-. apply callsBy_OnDemand_runTimer.
Qed.

(** While [sid] is in the guard set no event makes the callback relaunch
    it. *)
Lemma callsBy_OnDemand_guarded sid st e :
  sid ∈ relaunchingSet st →
  callsBy OnDemand sid (step st e) = callsBy OnDemand sid st.
Proof.
  intros Hin. destruct e as [s|s|s|ok|t|s b|s]; simpl; try done.
  - unfold relaunchNeeded, getSession. case_bool_decide as Hs; [done|].
    destruct (launcher st !! s) as [i|]; [|done].
    destruct (archived i); [done|]. case_bool_decide; [|done].
    change (callsBy OnDemand sid (relaunch OnDemand s
              (with_relaunchingSet ({[s]} ∪ relaunchingSet st) st))
            = callsBy OnDemand sid st).
    rewrite callsBy_relaunch, decide_False, app_nil_r; [done|].
    intros [_ ->]. done.
  - unfold relaunchSettled. by case_bool_decide.
  - apply callsBy_OnDemand_watchdogResumed.
  - apply callsBy_OnDemand_advance.
Qed.

Lemma relaunchNeeded_guarded sid st :
  sid ∈ relaunchingSet st → relaunchNeeded sid st = st.
Proof. intros Hin. unfold relaunchNeeded. by rewrite bool_decide_eq_true_2. Qed.

Lemma inFlight_step sid st e :
  inFlight sid st → e ≠ RelaunchSettled sid → inFlight sid (step st e).
Proof.
  intros (Hset & Hfl & Hnc) He. destruct e as [s|s|s|ok|t|s b|s]; simpl; try done.
  - unfold relaunchNeeded, getSession. case_bool_decide as Hs; [done|].
    destruct (launcher st !! s) as [i|]; [|done].
    destruct (archived i); [done|]. case_bool_decide; [|done].
    unfold inFlight. simpl. set_solver.
  - unfold relaunchSettled. case_bool_decide as Hs; [|done].
    unfold inFlight. simpl. rewrite clears_addTimer.
    assert (s ≠ sid) by congruence. set_solver.
  - unfold inFlight. by destruct (watchdogResumed_frame ok st) as (-> & -> & _ & ->).
  - unfold advance, inFlight.
    match goal with
    | |- context [foldl ?f ?a ?b] =>
        destruct (foldl_runTimer_frame b a) as (-> & -> & _ & ->)
    end. simpl.
    assert (∀ P `{∀ x, Decision (P x)}, sid ∉ clears (filter P (timers st))) as Hsub.
    { intros P ? [d Hd]%elem_of_clears. apply list_elem_of_filter in Hd as [_ Hd].
      apply Hnc, elem_of_clears. eauto. }
    split; [|split; [done|by apply Hsub]].
    apply elem_of_difference. split; [done|].
    rewrite elem_of_list_to_set. by apply Hsub.
Qed.

Lemma inFlight_run sid st evs :
  inFlight sid st → RelaunchSettled sid ∉ evs →
  inFlight sid (run st evs)
  ∧ callsBy OnDemand sid (run st evs) = callsBy OnDemand sid st.
Proof.
  revert st. induction evs as [|e evs IH]; intros st Hfl Hevs; [done|].
  apply not_elem_of_cons in Hevs as [He Hevs].
  unfold run in *. simpl.
  destruct (IH (step st e)) as [? ->]; [by apply inFlight_step|done|].
  split; [done|]. apply callsBy_OnDemand_guarded, Hfl.
Qed.

Lemma coolingDown_step sid T st e :
  coolingDown sid T st → before T e → coolingDown sid T (step st e).
Proof.
  intros (Hset & Hfl & Hdue) He. destruct e as [s|s|s|ok|t|s b|s]; simpl; try done.
  - destruct (decide (s = sid)) as [->|Hne]; [by rewrite relaunchNeeded_guarded|].
    unfold relaunchNeeded, getSession. case_bool_decide as Hs; [done|].
    destruct (launcher st !! s) as [i|]; [|done].
    destruct (archived i); [done|]. case_bool_decide; [|done].
    unfold coolingDown. simpl. set_solver.
  - unfold relaunchSettled. case_bool_decide as Hs; [|done].
    assert (s ≠ sid) by congruence.
    unfold coolingDown. simpl. split; [done|]. split; [set_solver|].
    intros d [[= ? ?]|Hd]%elem_of_addTimer; [done|by apply Hdue].
  - unfold coolingDown. by destruct (watchdogResumed_frame ok st) as (-> & -> & _ & ->).
  - simpl in He. unfold advance, coolingDown.
    match goal with
    | |- context [foldl ?f ?a ?b] =>
        destruct (foldl_runTimer_frame b a) as (-> & -> & _ & ->)
    end. simpl.
    split; [|split; [done|]].
    + apply elem_of_difference. split; [done|].
      rewrite elem_of_list_to_set. intros [d Hd]%elem_of_clears.
      apply list_elem_of_filter in Hd as [Hle Hd]. simpl in Hle.
      specialize (Hdue d Hd). lia.
    + intros d [_ Hd]%list_elem_of_filter. by apply Hdue.
Qed.

Lemma coolingDown_run sid T st evs :
  coolingDown sid T st → Forall (before T) evs →
  coolingDown sid T (run st evs)
  ∧ callsBy OnDemand sid (run st evs) = callsBy OnDemand sid st.
Proof.
  intros Hcd Hevs. revert st Hcd.
  induction Hevs as [|e evs He _ IH]; intros st Hcd; [done|].
  unfold run in *. simpl.
  destruct (IH (step st e)) as [? ->]; [by apply coolingDown_step|].
  split; [done|]. apply callsBy_OnDemand_guarded, Hcd.
Qed.

(** *** The reconnection watchdog *)

Lemma live_relaunched sid s p st : live sid st → live sid (relaunch p s st).
Proof.
  intros (i & Hi & Hst & Har). unfold live. simpl. rewrite lookup_relaunched.
  destruct (decide (s = sid)); [|eauto]. rewrite Hi. simpl. eauto.
Qed.

Lemma live_not_archived sid st : live sid st → isArchived sid (launcher st) = false.
Proof. intros (i & Hi & _ & Har). unfold isArchived. by rewrite Hi. Qed.

Lemma live_launcher sid st st' : launcher st' = launcher st → live sid st → live sid st'.
Proof. unfold live. by intros ->. Qed.

Lemma live_watchdogLoop sid rest st : live sid st → live sid (watchdogLoop rest st).
Proof.
  intros Hl. induction rest as [|s rest IH]; simpl; [done|].
  destruct (isArchived s (launcher st)); [done|]. by apply (live_relaunched sid s).
Qed.

Lemma live_runTimer sid cb st : live sid st → live sid (runTimer cb st).
Proof. destruct cb; [done|]. apply live_watchdogLoop. Qed.

Lemma watchdogLoop_skip sid rest st :
  sid ∉ rest →
  launcher (watchdogLoop rest st) !! sid = launcher st !! sid
  ∧ callsFor sid (watchdogLoop rest st) = callsFor sid st
  ∧ callsBy BootWatchdog sid (watchdogLoop rest st) = callsBy BootWatchdog sid st
  ∧ (∀ rest', watchdog (watchdogLoop rest st) = Some rest' → sid ∉ rest').
Proof.
  intros Hnot. induction rest as [|s rest IH]; simpl; [done|].
  apply not_elem_of_cons in Hnot as [Hne Hnot].
  destruct (isArchived s (launcher st)); [by apply IH|]. simpl.
  rewrite lookup_relaunched, decide_False by done.
  split; [done|]. split; [|split; [|by intros ? [= <-]]].
  - etrans; [apply (callsFor_relaunch BootWatchdog s sid st)|].
    by rewrite decide_False, app_nil_r.
  - etrans; [apply (callsBy_relaunch BootWatchdog BootWatchdog s sid st)|].
    rewrite decide_False, app_nil_r; [done|]. by intros [_ ?].
Qed.

Lemma watchdogTimers_addTimer d s (ts : list (N * Timer)) :
  watchdogTimers (addTimer d (ClearRelaunching s) ts) = watchdogTimers ts.
Proof.
  unfold watchdogTimers. induction ts as [|[d' cb'] ts IH]; simpl; [done|].
  case_bool_decide.
  - rewrite !filter_cons. simpl. by rewrite IH.
  - by rewrite filter_cons_False.
Qed.

Lemma watchdogTimers_filter (P : N * Timer → Prop) `{∀ x, Decision (P x)}
    (ts : list (N * Timer)) :
  watchdogTimers (filter P ts) = filter P (watchdogTimers ts).
Proof.
  unfold watchdogTimers. induction ts as [|x ts IH]; [done|].
  rewrite !filter_cons.
  destruct (decide (P x)), (decide (x.2 = Watchdog));
    rewrite ?filter_cons, ?decide_True, ?decide_False by done; by rewrite IH.
Qed.

Lemma filter_singleton_split {A} (P : A → Prop) `{∀ x, Decision (P x)} (xs : list A) x :
  filter P xs = [x] →
  ∃ pre post : list A, xs = pre ++ x :: post ∧ filter P pre = [] ∧ filter P post = [].
Proof.
  induction xs as [|y xs IH]; [done|]. rewrite filter_cons.
  destruct (decide (P y)) as [Hy|Hy].
  - intros [= -> Hxs]. by exists [], xs.
  - intros Hxs. destruct (IH Hxs) as (pre & post & -> & Hpre & Hpost).
    exists (y :: pre), post. split; [done|]. split; [|done].
    by rewrite filter_cons_False.
Qed.

Lemma foldl_runTimer_no_watchdog (due : list (N * Timer)) st :
  watchdogTimers due = [] →
  launcher (foldl (λ st x, runTimer x.2 st) st due) = launcher st
  ∧ watchdog (foldl (λ st x, runTimer x.2 st) st due) = watchdog st
  ∧ relaunchCalls (foldl (λ st x, runTimer x.2 st) st due) = relaunchCalls st.
Proof.
  revert st. induction due as [|[d cb] due IH]; intros st Hwd; simpl; [done|].
  unfold watchdogTimers in Hwd. rewrite filter_cons in Hwd. simpl in Hwd.
  destruct cb as [s|]; [|done]. rewrite decide_False in Hwd by done.
  destruct (IH (runTimer (ClearRelaunching s) st) Hwd) as (-> & -> & ->). done.
Qed.

Lemma relaunchNeeded_starting sid st : live sid st → relaunchNeeded sid st = st.
Proof.
  intros (i & Hi & Hst & Har). unfold relaunchNeeded, getSession.
  case_bool_decide; [done|]. rewrite Hi, Har.
  by rewrite bool_decide_eq_false_2 by (by intros []).
Qed.

Lemma relaunchNeeded_frame s sid st :
  s ≠ sid →
  launcher (relaunchNeeded s st) !! sid = launcher st !! sid
  ∧ timers (relaunchNeeded s st) = timers st
  ∧ now (relaunchNeeded s st) = now st
  ∧ watchdog (relaunchNeeded s st) = watchdog st
  ∧ callsFor sid (relaunchNeeded s st) = callsFor sid st
  ∧ callsBy BootWatchdog sid (relaunchNeeded s st) = callsBy BootWatchdog sid st.
Proof.
  intros Hne. unfold relaunchNeeded, getSession.
  case_bool_decide; [done|].
  destruct (launcher st !! s) as [i|]; [|done].
  destruct (archived i); [done|]. case_bool_decide; [|done]. simpl.
  rewrite lookup_relaunched, decide_False by done.
  repeat split.
  - etrans; [apply (callsFor_relaunch OnDemand s sid
                      (with_relaunchingSet ({[s]} ∪ relaunchingSet st) st))|].
    by rewrite decide_False, app_nil_r.
  - etrans; [apply (callsBy_relaunch OnDemand BootWatchdog s sid
                      (with_relaunchingSet ({[s]} ∪ relaunchingSet st) st))|].
    rewrite decide_False, app_nil_r; [done|]. by intros [? _].
Qed.

(** The watchdog's loop ends once the relaunches it awaits have been
    fulfilled. *)
Lemma watchdogLoop_shorter rest st :
  match watchdog (watchdogLoop rest st) with
  | Some rest' => (length rest' < length rest)%nat
  | None => True
  end.
Proof.
  induction rest as [|s rest IH]; simpl; [done|].
  destruct (isArchived s (launcher st)); simpl; [|lia].
  destruct (watchdog (watchdogLoop rest st)); [lia|done].
Qed.

Lemma watchdog_finishes st :
  ∃ n, watchdog (run st (replicate n (WatchdogResumed true))) = None.
Proof.
  destruct (watchdog st) as [rest|] eqn:Hwd; [|by exists 0%nat].
  remember (length rest) as k eqn:Hk.
  revert st rest Hwd Hk. induction (lt_wf k) as [k _ IH]. intros st rest Hwd ->.
  pose proof (watchdogLoop_shorter rest st) as Hlt.
  destruct (watchdog (watchdogLoop rest st)) as [rest'|] eqn:Hwd'.
  - destruct (IH (length rest') Hlt (watchdogLoop rest st) rest' Hwd' eq_refl) as [n Hn].
    exists (S n). unfold run in *. simpl. unfold watchdogResumed. by rewrite Hwd.
  - exists 1%nat. unfold run. simpl. unfold watchdogResumed. by rewrite Hwd.
Qed.

Lemma filter_none {A} (P : A → Prop) `{∀ x, Decision (P x)} (xs : list A) :
  (∀ x, x ∈ xs → ¬ P x) → filter P xs = [].
Proof.
  intros Hnone. induction xs as [|y xs IH]; [done|].
  rewrite filter_cons_False by (apply Hnone; left).
  apply IH. intros x Hx. apply Hnone. by right.
Qed.

Lemma run_app st evs1 evs2 : run st (evs1 ++ evs2) = run (run st evs1) evs2.
Proof. apply foldl_app. Qed.

Lemma now_resumes st n : now (run st (replicate n (WatchdogResumed true))) = now st.
Proof.
  revert st. induction n as [|n IH]; intros st; [done|].
  unfold run in *. simpl. rewrite IH.
  by destruct (watchdogResumed_frame true st) as (_ & _ & -> & _).
Qed.


End ServerFacts.

(** ** Replayed blocks and frames *)

Section ReplayFacts.

Import Ws Obs WsObs.
Lemma extractBlock_not_actedOn sid w b : actedOn b = None → extractBlock sid w b = w.
Proof.
  unfold actedOn, extractBlock. destruct b as [| |tid [name|] [input|]|]; try done.
  by case_bool_decide.
Qed.

Lemma extractBlock_skip sid w b tid :
  actedOn b = Some (Some tid) → tid ≠ "" → tid ∈ processed sid w →
  extractBlock sid w b = w.
Proof.
  unfold actedOn. destruct b as [| |t [name|] [input|]|]; try done.
  case_bool_decide; [done|]. intros [= ->] Hne Hin.
  by apply extractBlock_processed.
Qed.

Lemma extractBlock_marks sid w b tid :
  actedOn b = Some (Some tid) → tid ≠ "" → tid ∈ processed sid (extractBlock sid w b).
Proof.
  unfold actedOn. destruct b as [| |t [name|] [input|]|]; try done.
  case_bool_decide as Hname; [done|]. intros [= ->] Hne.
  unfold extractBlock. rewrite (bool_decide_eq_false_2 _ Hname), (bool_decide_eq_false_2 _ Hne).
  case_bool_decide as Hin; [done|].
  rewrite processed_applyTool, processed_with_processed. set_solver.
Qed.

Lemma truthy_Some (o : option string) : truthy o = true → ∃ t, o = Some t ∧ t ≠ "".
Proof.
  destruct o as [t|]; [|done]. simpl. intros Ht%bool_decide_eq_true. eauto.
Qed.

Lemma identified_elem blocks b tid :
  identified blocks → b ∈ blocks → actedOn b = Some tid → ∃ t, tid = Some t ∧ t ≠ "".
Proof.
  intros Hid Hb Hact. apply truthy_Some.
  by apply (proj1 (Forall_forall _ _) Hid b Hb tid).
Qed.

Lemma foldl_extractBlock_marks sid blocks w b tid :
  b ∈ blocks → actedOn b = Some (Some tid) → tid ≠ "" →
  tid ∈ processed sid (foldl (extractBlock sid) w blocks).
Proof.
  revert w. induction blocks as [|b' blocks IH]; intros w Hb Hact Hne.
  { by apply elem_of_nil in Hb. }
  simpl. apply elem_of_cons in Hb as [<-|Hb]; [|by apply IH].
  apply (processed_foldl_mono sid blocks). by apply extractBlock_marks.
Qed.

Lemma foldl_extractBlock_skip sid blocks w :
  (∀ b tid, b ∈ blocks → actedOn b = Some tid →
     ∃ t, tid = Some t ∧ t ≠ "" ∧ t ∈ processed sid w) →
  foldl (extractBlock sid) w blocks = w.
Proof.
  induction blocks as [|b blocks IH]; intros Hall; [done|].
  assert (extractBlock sid w b = w) as Hb.
  { destruct (actedOn b) as [tid|] eqn:Hact; [|by apply extractBlock_not_actedOn].
    destruct (Hall b tid) as (t & -> & Hne & Hin); [left|done|].
    by apply (extractBlock_skip sid w b t). }
  cbn [foldl]. rewrite Hb. apply IH. intros b' tid Hb'. apply Hall. by right.
Qed.

Lemma processed_entry_extractBlock sid w b :
  is_Some (processedToolUseIds w !! sid) →
  is_Some (processedToolUseIds (extractBlock sid w b) !! sid).
Proof.
  intros Hsome. unfold extractBlock.
  repeat case_match; try done;
    match goal with
    | |- context [applyTool ?s ?n ?i ?w'] =>
        destruct (applyTool_frame s n i w') as (_ & _ & ->)
    end; try done.
  simpl. by rewrite lookup_insert_eq.
Qed.

Lemma processed_entry_foldl sid blocks w :
  is_Some (processedToolUseIds w !! sid) →
  is_Some (processedToolUseIds (foldl (extractBlock sid) w blocks) !! sid).
Proof.
  revert w. induction blocks as [|b blocks IH]; intros w Hsome; [done|].
  simpl. by apply IH, processed_entry_extractBlock.
Qed.

Lemma processed_entry_extractTasks sid blocks w :
  is_Some (processedToolUseIds (extractTasksFromBlocks sid blocks w) !! sid).
Proof.
  unfold extractTasksFromBlocks, getProcessedSet.
  destruct (processedToolUseIds w !! sid) eqn:Hp.
  - apply processed_entry_foldl. by rewrite Hp.
  - apply processed_entry_foldl. simpl. by rewrite lookup_insert_eq.
Qed.

Lemma processed_extractTasks_mono sid blocks w :
  processed sid w ⊆ processed sid (extractTasksFromBlocks sid blocks w).
Proof.
  unfold extractTasksFromBlocks, getProcessedSet.
  destruct (processedToolUseIds w !! sid) eqn:Hp.
  - apply processed_foldl_mono.
  - etrans; [|apply processed_foldl_mono].
    unfold processed. simpl. by rewrite Hp, lookup_insert_eq.
Qed.

Lemma extractTasks_marks sid blocks w b tid :
  b ∈ blocks → actedOn b = Some (Some tid) → tid ≠ "" →
  tid ∈ processed sid (extractTasksFromBlocks sid blocks w).
Proof.
  intros Hb Hact Hne. unfold extractTasksFromBlocks, getProcessedSet.
  destruct (processedToolUseIds w !! sid); by apply (foldl_extractBlock_marks sid blocks _ b).
Qed.

(** Blocks whose invocation ids have all been processed change nothing. *)
Lemma extractTasks_all_processed sid blocks w :
  is_Some (processedToolUseIds w !! sid) →
  (∀ b tid, b ∈ blocks → actedOn b = Some tid →
     ∃ t, tid = Some t ∧ t ≠ "" ∧ t ∈ processed sid w) →
  extractTasksFromBlocks sid blocks w = w.
Proof.
  intros [set Hp] Hall. unfold extractTasksFromBlocks, getProcessedSet. rewrite Hp.
  by apply foldl_extractBlock_skip.
Qed.

(** X1. Deriving tasks from the same blocks again changes nothing, provided
    every block that the loop acts on (a tool-use block with a name and an
    input) carries a non-empty invocation id: the tasks, the counters and
    the processed ids are those after the first pass. *)
Theorem extractTasks_replay (sid : string) (blocks : list ContentBlock) (w : World) :
  identified blocks →
  extractTasksFromBlocks sid blocks (extractTasksFromBlocks sid blocks w)
  = extractTasksFromBlocks sid blocks w.
Proof.
  intros Hid. apply extractTasks_all_processed; [apply processed_entry_extractTasks|].
  intros b tid Hb Hact. destruct (identified_elem blocks b tid Hid Hb Hact) as (t & -> & Hne).
  exists t. split; [done|]. split; [done|]. by apply (extractTasks_marks sid blocks w b).
Qed.

Lemma groupProcessed_extract sid blocks w :
  groupProcessed sid w blocks → extractTasksFromBlocks sid blocks w = w.
Proof. intros [Hsome Hall]. by apply extractTasks_all_processed. Qed.

Lemma groupProcessed_after sid blocks w :
  identified blocks → groupProcessed sid (extractTasksFromBlocks sid blocks w) blocks.
Proof.
  intros Hid. split; [apply processed_entry_extractTasks|].
  intros b tid Hb Hact. destruct (identified_elem blocks b tid Hid Hb Hact) as (t & -> & Hne).
  exists t. split; [done|]. split; [done|]. by apply (extractTasks_marks sid blocks w b).
Qed.

Lemma grows_refl sid w : grows sid w w.
Proof. by split. Qed.

Lemma grows_trans sid w1 w2 w3 : grows sid w1 w2 → grows sid w2 w3 → grows sid w1 w3.
Proof. intros [H1 H2] [H3 H4]. split; [auto|set_solver]. Qed.

Lemma grows_same sid w w' :
  processedToolUseIds w' = processedToolUseIds w → grows sid w w'.
Proof. intros Heq. unfold grows, processed. by rewrite Heq. Qed.

Lemma grows_extract sid blocks w : grows sid w (extractTasksFromBlocks sid blocks w).
Proof.
  split; [intros _; apply processed_entry_extractTasks|apply processed_extractTasks_mono].
Qed.

Lemma groupProcessed_grows sid w w' blocks :
  grows sid w w' → groupProcessed sid w blocks → groupProcessed sid w' blocks.
Proof.
  intros [Hs Hsub] [Hsome Hall]. split; [auto|].
  intros b tid Hb Hact. destruct (Hall b tid Hb Hact) as (t & ? & ? & ?).
  exists t. repeat split; try done. by apply Hsub.
Qed.

Lemma historyStep_grows sid now acc e :
  grows sid acc.2 (historyStep sid now acc e).2.
Proof.
  destruct acc as [msgs w]. destruct e as [content ts|msg parent|r|]; simpl.
  - by apply grows_same.
  - destruct (am_content msg); [apply grows_refl|apply grows_extract].
  - destruct (turnErrors r); by apply grows_same.
  - apply grows_refl.
Qed.

Lemma history_grows sid now entries acc :
  grows sid acc.2 (foldl (historyStep sid now) acc entries).2.
Proof.
  revert acc. induction entries as [|e entries IH]; intros acc; [apply grows_refl|].
  simpl. eapply grows_trans; [apply historyStep_grows|apply IH].
Qed.

Lemma historyGroups_assistant msg parent entries :
  am_content msg ≠ [] →
  historyGroups (HAssistant msg parent :: entries) = am_content msg :: historyGroups entries.
Proof. unfold historyGroups. simpl. by destruct (am_content msg). Qed.

Lemma historyGroups_skip e entries :
  (∀ msg parent, e = HAssistant msg parent → am_content msg = []) →
  historyGroups (e :: entries) = historyGroups entries.
Proof.
  intros He. unfold historyGroups. destruct e as [content ts|msg parent|r|]; simpl; try done.
  by rewrite (He msg parent eq_refl).
Qed.

Lemma historyStep_assistant sid now acc msg parent :
  am_content msg ≠ [] →
  (historyStep sid now acc (HAssistant msg parent)).2
  = extractTasksFromBlocks sid (am_content msg) acc.2.
Proof. destruct acc as [msgs w]. simpl. by destruct (am_content msg). Qed.

Lemma historyEntry_cases (e : HistoryEntry) :
  (∃ msg parent, e = HAssistant msg parent ∧ am_content msg ≠ [])
  ∨ (∀ msg parent, e = HAssistant msg parent → am_content msg = []).
Proof.
  destruct e as [content ts|msg parent|r|]; try (right; by intros).
  destruct (am_content msg) eqn:Hc.
  - right. by intros ? ? [= <- _].
  - left. exists msg, parent. by rewrite Hc.
Qed.

(** After a pass over a history, the groups of its entries are processed. *)
Lemma history_processed sid now entries acc :
  Forall identified (historyGroups entries) →
  Forall (groupProcessed sid (foldl (historyStep sid now) acc entries).2)
         (historyGroups entries).
Proof.
  revert acc. induction entries as [|e entries IH]; intros acc Hid; [constructor|].
  cbn [foldl].
  destruct (historyEntry_cases e) as [(msg & parent & -> & Hc)|Hno].
  - rewrite historyGroups_assistant in * by done.
    apply Forall_cons in Hid as [Hid1 Hid].
    apply Forall_cons. split; [|by apply IH].
    eapply groupProcessed_grows; [apply history_grows|].
    rewrite historyStep_assistant by done. by apply groupProcessed_after.
  - rewrite historyGroups_skip in * by done. by apply IH.
Qed.

(** A pass over a history whose groups are processed leaves the task state
    as it is. *)
Lemma history_replay sid now entries acc :
  Forall (groupProcessed sid acc.2) (historyGroups entries) →
  taskState (foldl (historyStep sid now) acc entries).2 = taskState acc.2.
Proof.
  revert acc. induction entries as [|e entries IH]; intros acc Hall; [done|].
  cbn [foldl].
  assert (taskState (historyStep sid now acc e).2 = taskState acc.2
          ∧ Forall (groupProcessed sid acc.2) (historyGroups entries)) as [Hts Hrest].
  { destruct (historyEntry_cases e) as [(msg & parent & -> & Hc)|Hno].
    - rewrite historyGroups_assistant in Hall by done.
      apply Forall_cons in Hall as [Hg Hrest]. split; [|done].
      rewrite historyStep_assistant by done.
      by rewrite (groupProcessed_extract _ _ _ Hg).
    - rewrite historyGroups_skip in Hall by done.
      split; [|done].
      destruct acc as [msgs w]. destruct e as [content ts|msg parent|r|]; simpl; try done.
      + by rewrite (Hno msg parent eq_refl).
      + by destruct (turnErrors r). }
  rewrite IH; [done|].
  eapply Forall_impl; [exact Hrest|].
  intros g. apply groupProcessed_grows, grows_same.
  by injection Hts as _ _ ->.
Qed.

(** *** Frames and the task state *)

Lemma sessionTasks_addSession session s :
  Store.sessionTasks (Store.addSession session s) = Store.sessionTasks s.
Proof. unfold Store.addSession. simpl. by destruct (_ !! _). Qed.

Lemma sessionTasks_updateSession sid p s :
  Store.sessionTasks (Store.updateSession sid p s) = Store.sessionTasks s.
Proof. unfold Store.updateSession. by destruct (_ !! _). Qed.

Lemma sessionTasks_appendMessage sid msg s :
  Store.sessionTasks (Store.appendMessage sid msg s) = Store.sessionTasks s.
Proof. unfold Store.appendMessage. by destruct (truthy _ && _). Qed.

Lemma taskState_with_store f w :
  Store.sessionTasks (f (store w)) = Store.sessionTasks (store w) →
  taskState (with_store f w) = taskState w.
Proof. unfold taskState. simpl. by intros ->. Qed.

Section Frames.

Variable JSON_parse : string → Completion BrowserIncomingMessage.
Variable generateUniqueSessionName : list string → string.

Abbreviation handle := (handleMessage JSON_parse generateUniqueSessionName).

Lemma handle_permission_tasks now sid line req w :
  JSON_parse line = Normal (permission_request req) →
  ∃ w0, handle now sid line w
        = Normal match frameGroups (permission_request req) with
                 | [] => w0
                 | blocks :: _ => extractTasksFromBlocks sid blocks w0
                 end
    ∧ taskState w0 = taskState w.
Proof.
  intros Hparse. unfold handleMessage. rewrite Hparse.
  exists (with_store (Store.addPermission sid req) w). split; [|done].
  simpl. destruct (tool_name req) as [name|], (perm_input req) as [input|]; try done.
  by case_bool_decide.
Qed.

Lemma handle_other_tasks now sid line frame w :
  JSON_parse line = Normal frame →
  frameGroups frame = [] →
  ∃ w', handle now sid line w = Normal w' ∧ taskState w' = taskState w.
Proof.
  intros Hparse Hgroups. unfold handleMessage. rewrite Hparse.
  eexists. split; [reflexivity|].
  destruct frame as [session|session|message parent|event|data|request|rid| | |status
                    |err|message| | |messages|]; simpl in Hgroups |- *.
  - destruct (Store.sessionNames (store w) !! sid);
      unfold taskState; simpl; by rewrite sessionTasks_addSession.
  - apply taskState_with_store, sessionTasks_updateSession.
  - destruct (am_content message); [|done].
    destruct (Store.streamingStartedAt (store w) !! sid);
      unfold taskState; simpl; by rewrite sessionTasks_appendMessage.
  - destruct event as [| |[delta|]|[n|]|]; try done.
    + by destruct (Store.streamingStartedAt (store w) !! sid).
    + destruct (delta_text delta); [|done]. by case_bool_decide.
    + by case_bool_decide.
  - destruct (turnErrors data); unfold taskState; simpl;
      rewrite ?sessionTasks_appendMessage; simpl;
      unfold Store.updateSession; by destruct (Store.sessions (store w) !! sid).
  - destruct (tool_name request) as [name|], (perm_input request) as [input|]; try done.
    by case_bool_decide.
  - unfold Store.removePermission, taskState. simpl.
    by destruct (Store.pendingPermissions (store w) !! sid).
  - done.
  - done.
  - done.
  - destruct (truthy err); [|done].
    unfold taskState. simpl. by rewrite sessionTasks_appendMessage.
  - unfold taskState. simpl. by rewrite sessionTasks_appendMessage.
  - done.
  - done.
  - destruct messages as [|e es]; [done|].
    (* a history without groups *)
    pose proof (history_replay sid now (e :: es) ([], w)) as Hrep.
    rewrite Hgroups in Hrep. specialize (Hrep (Forall_nil_2 _)).
    destruct (foldl (historyStep sid now) ([], w) (e :: es)) as [msgs w'] eqn:Hfold.
    simpl in Hrep. by destruct msgs.
  - done.
Qed.

Lemma groupProcessed_taskState sid w w' blocks :
  taskState w' = taskState w → groupProcessed sid w blocks → groupProcessed sid w' blocks.
Proof. intros [= _ _ Hp]. by apply groupProcessed_grows, grows_same. Qed.

Lemma handle_history_tasks now sid line entries w :
  JSON_parse line = Normal (message_history entries) →
  ∃ w', handle now sid line w = Normal w'
    ∧ taskState w' = taskState (foldl (historyStep sid now) ([], w) entries).2.
Proof.
  intros Hparse. unfold handleMessage. rewrite Hparse.
  eexists. split; [reflexivity|].
  destruct (foldl (historyStep sid now) ([], w) entries) as [msgs w']. by destruct msgs.
Qed.

(** X2. A frame that is delivered twice derives its tasks once: for a frame
    of any type whose acted-on blocks all carry a non-empty invocation id,
    the task lists, the task counters and the processed ids after the
    second handling are those after the first. *)
Theorem frame_replay_tasks (now1 now2 : Z) (sid line : string)
    (frame : BrowserIncomingMessage) (w : World) :
  JSON_parse line = Normal frame →
  Forall identified (frameGroups frame) →
  ∃ w1 w2, handle now1 sid line w = Normal w1
    ∧ handle now2 sid line w1 = Normal w2
    ∧ taskState w2 = taskState w1.
Proof.
  intros Hparse Hid.
  destruct (frameGroups frame) as [|g gs] eqn:Hgroups.
  { destruct (handle_other_tasks now1 sid line frame w Hparse Hgroups) as (w1 & Hw1 & _).
    destruct (handle_other_tasks now2 sid line frame w1 Hparse Hgroups) as (w2 & Hw2 & Ht).
    by exists w1, w2. }
  destruct frame as [session|session|msg parent|event|data|req|rid| | |status
                    |err|message| | |entries|]; try done.
  - (* assistant *)
    simpl in Hgroups. destruct (am_content msg) as [|b bs] eqn:Hc; [done|].
    injection Hgroups as <- <-. apply Forall_cons in Hid as [Hid _].
    destruct (handle_assistant_tasks JSON_parse generateUniqueSessionName
                now1 sid line msg parent w Hparse) as (v1 & Hw1 & Ht1 & Hk1 & Hp1).
    rewrite Hc in Hw1. set (w1 := extractTasksFromBlocks sid (b :: bs) v1) in *.
    destruct (handle_assistant_tasks JSON_parse generateUniqueSessionName
                now2 sid line msg parent w1 Hparse) as (v2 & Hw2 & Ht2 & Hk2 & Hp2).
    rewrite Hc in Hw2.
    assert (groupProcessed sid v2 (b :: bs)) as Hg.
    { apply (groupProcessed_grows sid w1); [by apply grows_same|].
      by apply groupProcessed_after. }
    rewrite (groupProcessed_extract _ _ _ Hg) in Hw2.
    exists w1, v2. repeat split; try done. unfold taskState. by rewrite Ht2, Hk2, Hp2.
  - (* permission_request *)
    destruct (handle_permission_tasks now1 sid line req w Hparse) as (v1 & Hw1 & Ht1).
    rewrite Hgroups in Hw1. set (w1 := extractTasksFromBlocks sid g v1) in *.
    destruct (handle_permission_tasks now2 sid line req w1 Hparse) as (v2 & Hw2 & Ht2).
    rewrite Hgroups in Hw2. apply Forall_cons in Hid as [Hid _].
    assert (groupProcessed sid v2 g) as Hg.
    { apply (groupProcessed_taskState sid w1); [done|]. by apply groupProcessed_after. }
    rewrite (groupProcessed_extract _ _ _ Hg) in Hw2.
    by exists w1, v2.
  - (* message_history *)
    simpl in Hgroups.
    destruct (handle_history_tasks now1 sid line entries w Hparse) as (w1 & Hw1 & Ht1).
    destruct (handle_history_tasks now2 sid line entries w1 Hparse) as (w2 & Hw2 & Ht2).
    exists w1, w2. repeat split; try done. rewrite Ht2.
    apply (history_replay sid now2 entries ([], w1)). simpl.
    eapply Forall_impl;
      [apply (history_processed sid now1 entries ([], w)); by rewrite Hgroups|].
    intros blocks. by apply groupProcessed_taskState.
Qed.

End Frames.

End ReplayFacts.

(** ** The three task tools *)

Section TaskFacts.

Import Ws Obs WsObs.
(** *** Replays, on examples *)

Lemma extractTasks_replay_witness :
  let blocks :=
    [BText "plan";
     BToolUse (Some "toolu_1") (Some "TaskCreate") (Some (sampleInput "Plan"));
     BToolUse (Some "toolu_2") (Some "TaskUpdate") None] in
  extractTasksFromBlocks "s1" blocks (extractTasksFromBlocks "s1" blocks emptyWorld)
  = extractTasksFromBlocks "s1" blocks emptyWorld.
Proof.
  apply extractTasks_replay.
  repeat (constructor; [intros tid Hact; by simplify_eq/=|]). constructor.
Defined.

Lemma frame_replay_tasks_witness :
  ∃ w1 w2,
    handleMessage sampleParse sampleNames 5 "s1" "<assistant m2 TaskCreate toolu_1>" emptyWorld
      = Normal w1
    ∧ handleMessage sampleParse sampleNames 9 "s1" "<assistant m2 TaskCreate toolu_1>" w1
      = Normal w2
    ∧ taskState w2 = taskState w1.
Proof.
  refine (frame_replay_tasks sampleParse sampleNames 5 9 "s1"
            "<assistant m2 TaskCreate toolu_1>"
            (assistant (sampleAssistant "m2"
               [BToolUse (Some "toolu_1") (Some "TaskCreate") (Some (sampleInput "Plan"))])
               None)
            emptyWorld _ _).
  - vm_compute. reflexivity.
  - constructor; [|constructor].
    constructor; [|constructor]. intros tid Hact. by simplify_eq/=.
Defined.

(** *** Blocks that the deduplication lets through *)

Lemma taskView_applyTool_processed sid name input w v :
  taskView (applyTool sid name input (with_processed v w))
  = taskView (applyTool sid name input w).
Proof.
  unfold applyTool, taskView.
  repeat case_bool_decide; try done; repeat case_match; done.
Qed.

Lemma extractBlock_through sid w tid name input :
  name ≠ "" → deduplicated sid w tid = false →
  taskView (extractBlock sid w (BToolUse tid (Some name) (Some input)))
  = taskView (applyTool sid name input w)
  ∧ processed sid (extractBlock sid w (BToolUse tid (Some name) (Some input)))
    = if truthy tid then {[default "" tid]} ∪ processed sid w else processed sid w.
Proof.
  intros Hname Hd. unfold extractBlock. rewrite (bool_decide_eq_false_2 _ Hname).
  destruct tid as [t|]; simpl in *.
  - destruct (decide (t = "")) as [->|Ht]; simpl.
    + by rewrite processed_applyTool.
    + rewrite (bool_decide_eq_true_2 _ Ht) in Hd |- *. simpl in Hd.
      apply bool_decide_eq_false in Hd.
      rewrite (bool_decide_eq_false_2 _ Ht), (bool_decide_eq_false_2 _ Hd).
      rewrite taskView_applyTool_processed, processed_applyTool, processed_with_processed.
      done.
  - by rewrite processed_applyTool.
Qed.

Lemma getProcessedSet_frame sid w :
  store (getProcessedSet sid w).2 = store w
  ∧ taskCounters (getProcessedSet sid w).2 = taskCounters w
  ∧ idCounter (getProcessedSet sid w).2 = idCounter w
  ∧ processed sid (getProcessedSet sid w).2 = processed sid w.
Proof.
  unfold getProcessedSet, processed. destruct (processedToolUseIds w !! sid) eqn:Hp; simpl.
  - by rewrite Hp.
  - by rewrite lookup_insert_eq.
Qed.

Lemma extractTasks_unfold sid blocks w :
  extractTasksFromBlocks sid blocks w
  = foldl (extractBlock sid) (getProcessedSet sid w).2 blocks.
Proof. unfold extractTasksFromBlocks. by destruct (getProcessedSet sid w). Qed.

Lemma taskView_applyTool_eq sid name input w w' :
  taskView w' = taskView w →
  taskView (applyTool sid name input w') = taskView (applyTool sid name input w).
Proof.
  unfold taskView, applyTool. intros [= Hs Hc].
  repeat case_bool_decide; try (by rewrite ?Hs, ?Hc).
  - destruct (in_todos input); simpl; [|by rewrite Hs, Hc].
    unfold Store.setTasks. simpl. by rewrite Hs, Hc.
  - unfold Store.addTask. simpl. by rewrite Hs, Hc.
  - destruct (truthy (in_taskId input)); simpl; [|by rewrite Hs, Hc].
    unfold Store.updateTask. rewrite Hs, Hc.
    destruct (Store.sessionTasks (store w) !! sid); simpl; by rewrite ?Hs.
Qed.

Lemma deduplicated_getProcessedSet sid w tid :
  deduplicated sid (getProcessedSet sid w).2 tid = deduplicated sid w tid.
Proof.
  unfold deduplicated. destruct tid; [|done].
  by destruct (getProcessedSet_frame sid w) as (_ & _ & _ & ->).
Qed.

(** A single block that is not deduplicated is applied. *)
Lemma extractTasks_single sid w tid name input :
  name ≠ "" → deduplicated sid w tid = false →
  taskView (extractTasksFromBlocks sid [BToolUse tid (Some name) (Some input)] w)
  = taskView (applyTool sid name input w)
  ∧ processed sid (extractTasksFromBlocks sid [BToolUse tid (Some name) (Some input)] w)
    = if truthy tid then {[default "" tid]} ∪ processed sid w else processed sid w.
Proof.
  intros Hname Hd. rewrite extractTasks_unfold. cbn [foldl].
  destruct (extractBlock_through sid (getProcessedSet sid w).2 tid name input) as [Hv Hp];
    [done|by rewrite deduplicated_getProcessedSet|].
  destruct (getProcessedSet_frame sid w) as (Hs & Hc & _ & Hpr).
  rewrite Hv, Hp, Hpr. split; [|done].
  apply taskView_applyTool_eq. unfold taskView. by rewrite Hs, Hc.
Qed.

(** *** [TaskCreate] blocks without an invocation id *)

Lemma tasksOf_taskView sid w w' : taskView w' = taskView w → tasksOf sid w' = tasksOf sid w.
Proof. unfold tasksOf. by intros [= -> _]. Qed.

Lemma taskCount_taskView sid w w' :
  taskView w' = taskView w → taskCount sid w' = taskCount sid w.
Proof. unfold taskCount. by intros [= _ ->]. Qed.

Lemma applyTool_TaskCreate sid input w :
  tasksOf sid (applyTool sid "TaskCreate" input w)
  = tasksOf sid w ++ [createdTask (S (taskCount sid w)) input]
  ∧ taskCount sid (applyTool sid "TaskCreate" input w) = S (taskCount sid w).
Proof.
  unfold applyTool, tasksOf, taskCount. simpl.
  rewrite !lookup_insert_eq. simpl. by rewrite Nat.add_1_r.
Qed.

Lemma foldl_TaskCreate_anonymous sid (xs : list (option string * ToolInput)) w :
  Forall (λ x, truthy x.1 = false) xs →
  let w' := foldl (extractBlock sid) w (taskCreateBlock <$> xs) in
  tasksOf sid w'
  = tasksOf sid w ++ imap (λ k x, createdTask (taskCount sid w + S k) x.2) xs
  ∧ taskCount sid w' = (taskCount sid w + length xs)%nat
  ∧ processed sid w' = processed sid w.
Proof.
  revert w. induction xs as [|[tid input] xs IH]; intros w Hall.
  { simpl. by rewrite app_nil_r, Nat.add_0_r. }
  apply Forall_cons in Hall as [Hx Hall]. simpl in Hx.
  destruct (extractBlock_through sid w tid "TaskCreate" input) as [Hv Hp]; [done| |].
  { unfold deduplicated. destruct tid as [t|]; [|done]. simpl in Hx.
    apply negb_true_iff in Hx. apply negb_true_iff. by rewrite negb_andb, Hx. }
  rewrite Hx in Hp.
  destruct (applyTool_TaskCreate sid input w) as [Ht Hc].
  cbn zeta. rewrite fmap_cons, imap_cons. cbn [foldl length].
  change (taskCreateBlock (tid, input))
    with (BToolUse tid (Some "TaskCreate") (Some input)).
  set (w1 := extractBlock sid w (BToolUse tid (Some "TaskCreate") (Some input))) in *.
  destruct (IH w1 Hall) as (IHt & IHc & IHp).
  rewrite IHt, IHc, IHp, Hp.
  rewrite (tasksOf_taskView sid _ _ Hv), (taskCount_taskView sid _ _ Hv), Ht, Hc.
  split; [|split; [lia|done]].
  rewrite <-app_assoc. cbn [app]. f_equal. rewrite Nat.add_1_r. f_equal.
  apply imap_ext. intros k x _. simpl. f_equal. lia.
Qed.

(** X3. Blocks that create a task and carry no invocation id are not
    deduplicated: each of them adds a task, numbered consecutively, and
    nothing is recorded as processed. *)
Theorem taskCreate_without_id (sid : string) (xs : list (option string * ToolInput))
    (w : World) :
  Forall (λ x, truthy x.1 = false) xs →
  let w' := extractTasksFromBlocks sid (taskCreateBlock <$> xs) w in
  tasksOf sid w'
  = tasksOf sid w ++ imap (λ k x, createdTask (taskCount sid w + S k) x.2) xs
  ∧ length (tasksOf sid w') = (length (tasksOf sid w) + length xs)%nat
  ∧ taskCount sid w' = (taskCount sid w + length xs)%nat
  ∧ processed sid w' = processed sid w.
Proof.
  intros Hall. cbn zeta. rewrite extractTasks_unfold.
  destruct (foldl_TaskCreate_anonymous sid xs (getProcessedSet sid w).2 Hall)
    as (Ht & Hc & Hp).
  destruct (getProcessedSet_frame sid w) as (Hs & Hk & _ & Hpr).
  assert (tasksOf sid (getProcessedSet sid w).2 = tasksOf sid w) as Ht0.
  { unfold tasksOf. by rewrite Hs. }
  assert (taskCount sid (getProcessedSet sid w).2 = taskCount sid w) as Hc0.
  { unfold taskCount. by rewrite Hk. }
  rewrite Ht, Hc, Hp, Ht0, Hc0, Hpr.
  repeat split; try done. by rewrite length_app, length_imap.
Qed.

Lemma taskCreate_without_id_witness :
  let xs := [(None, sampleInput "Plan"); (Some "", sampleInput "Plan")] in
  let w' := extractTasksFromBlocks "s1" (taskCreateBlock <$> xs) emptyWorld in
  tasksOf "s1" w' = [createdTask 1 (sampleInput "Plan"); createdTask 2 (sampleInput "Plan")]
  ∧ length (tasksOf "s1" w') = 2%nat
  ∧ taskCount "s1" w' = 2%nat
  ∧ processed "s1" w' = ∅.
Proof.
  refine (taskCreate_without_id "s1"
            [(None, sampleInput "Plan"); (Some "", sampleInput "Plan")] emptyWorld _).
  constructor; [reflexivity|]. constructor; [reflexivity|]. constructor.
Defined.

(** *** [TodoWrite] *)

Lemma todoTasks_ids todos :
  task_id <$> todoTasks todos = (λ n : nat, pretty n) <$> seq 1 (length todos).
Proof.
  unfold todoTasks. rewrite fmap_imap.
  trans (imap (λ (i : nat) (_ : TodoEntry), pretty (S i)) todos).
  { by apply imap_ext. }
  by rewrite imap_seq_0, <-fmap_S_seq, <-list_fmap_compose.
Qed.

Lemma todoTasks_ids_NoDup todos : NoDup (task_id <$> todoTasks todos).
Proof.
  rewrite todoTasks_ids. apply NoDup_fmap_2; [apply _|apply NoDup_seq].
Qed.

(** X4. A [TodoWrite] that is not deduplicated and carries an array replaces
    the task list of the session by the entries of the array, numbered from
    1 in order, whatever the list was; a task created next gets the
    following number. *)
Theorem todoWrite_replaces (sid : string) (tid tid' : option string)
    (input input' : ToolInput) (todos : list TodoEntry) (w : World) :
  in_todos input = Some todos →
  deduplicated sid w tid = false →
  let w1 := extractTasksFromBlocks sid [BToolUse tid (Some "TodoWrite") (Some input)] w in
  tasksOf sid w1 = todoTasks todos
  ∧ task_id <$> tasksOf sid w1 = (λ n : nat, pretty n) <$> seq 1 (length todos)
  ∧ NoDup (task_id <$> tasksOf sid w1)
  ∧ taskCount sid w1 = length todos
  ∧ (deduplicated sid w1 tid' = false →
     tasksOf sid (extractTasksFromBlocks sid
                    [BToolUse tid' (Some "TaskCreate") (Some input')] w1)
     = todoTasks todos ++ [createdTask (S (length todos)) input']).
Proof.
  intros Htodos Hd. cbn zeta.
  destruct (extractTasks_single sid w tid "TodoWrite" input) as [Hv _]; [done|done|].
  set (w1 := extractTasksFromBlocks sid [BToolUse tid (Some "TodoWrite") (Some input)] w) in *.
  assert (tasksOf sid w1 = todoTasks todos) as Ht.
  { rewrite (tasksOf_taskView sid _ _ Hv). unfold applyTool, tasksOf. simpl.
    rewrite Htodos. simpl. by rewrite lookup_insert_eq. }
  assert (taskCount sid w1 = length todos) as Hc.
  { rewrite (taskCount_taskView sid _ _ Hv). unfold applyTool, taskCount. simpl.
    rewrite Htodos. simpl. rewrite lookup_insert_eq. simpl.
    unfold todoTasks. by rewrite length_imap. }
  rewrite Ht. repeat split; try done.
  - apply todoTasks_ids.
  - apply todoTasks_ids_NoDup.
  - intros Hd'.
    destruct (extractTasks_single sid w1 tid' "TaskCreate" input') as [Hv' _]; [done|done|].
    rewrite (tasksOf_taskView sid _ _ Hv').
    destruct (applyTool_TaskCreate sid input' w1) as [-> _]. by rewrite Ht, Hc.
Qed.

Lemma todoWrite_replaces_witness :
  let w := extractTasksFromBlocks "s1"
             [BToolUse (Some "toolu_1") (Some "TaskCreate") (Some (sampleInput "Old"))]
             emptyWorld in
  let todos := [sampleTodo "Read"; sampleTodo "Write"] in
  let w1 := extractTasksFromBlocks "s1"
              [BToolUse (Some "toolu_2") (Some "TodoWrite") (Some (sampleTodoInput todos))] w in
  tasksOf "s1" w1 = todoTasks todos
  ∧ task_id <$> tasksOf "s1" w1 = ["1"; "2"]
  ∧ taskCount "s1" w1 = 2%nat
  ∧ tasksOf "s1" (extractTasksFromBlocks "s1"
                    [BToolUse (Some "toolu_3") (Some "TaskCreate")
                       (Some (sampleInput "Review"))] w1)
    = todoTasks todos ++ [createdTask 3 (sampleInput "Review")].
Proof.
  cbn zeta.
  destruct (todoWrite_replaces "s1" (Some "toolu_2") (Some "toolu_3")
              (sampleTodoInput [sampleTodo "Read"; sampleTodo "Write"])
              (sampleInput "Review") [sampleTodo "Read"; sampleTodo "Write"]
              (extractTasksFromBlocks "s1"
                 [BToolUse (Some "toolu_1") (Some "TaskCreate") (Some (sampleInput "Old"))]
                 emptyWorld))
    as (H1 & H2 & _ & H4 & H5).
  - reflexivity.
  - vm_compute. reflexivity.
  - split; [exact H1|]. split; [exact H2|]. split; [exact H4|].
    apply H5. vm_compute. reflexivity.
Defined.

End TaskFacts.

(** ** Sessions side by side *)

Section SessionFacts.

Import Ws Obs WsObs.
(** *** Store actions leave the other sessions alone *)

Ltac other_session :=
  intros; unfold storeView; simpl;
  rewrite ?lookup_insert_ne, ?lookup_delete_ne by done; done.

Lemma storeView_updateSession sid sid' p s :
  sid' ≠ sid → storeView sid' (Store.updateSession sid p s) = storeView sid' s.
Proof.
  unfold Store.updateSession. destruct (Store.sessions s !! sid); [|done]. other_session.
Qed.

Lemma storeView_addSession sid' session s :
  session_id session ≠ sid' → storeView sid' (Store.addSession session s) = storeView sid' s.
Proof.
  intros Hne. unfold Store.addSession. simpl.
  destruct (Store.messages s !! session_id session) eqn:Hm; other_session.
Qed.

Lemma storeView_setCliConnected sid sid' b s :
  sid' ≠ sid → storeView sid' (Store.setCliConnected sid b s) = storeView sid' s.
Proof. other_session. Qed.

Lemma storeView_setSessionStatus sid sid' st s :
  sid' ≠ sid → storeView sid' (Store.setSessionStatus sid st s) = storeView sid' s.
Proof. other_session. Qed.

Lemma storeView_setSessionName sid sid' name s :
  sid' ≠ sid → storeView sid' (Store.setSessionName sid name s) = storeView sid' s.
Proof. other_session. Qed.

Lemma storeView_appendMessage sid sid' msg s :
  sid' ≠ sid → storeView sid' (Store.appendMessage sid msg s) = storeView sid' s.
Proof. unfold Store.appendMessage. destruct (truthy _ && _); [done|]. other_session. Qed.

Lemma storeView_setMessages sid sid' msgs s :
  sid' ≠ sid → storeView sid' (Store.setMessages sid msgs s) = storeView sid' s.
Proof. other_session. Qed.

Lemma storeView_setStreaming sid sid' text s :
  sid' ≠ sid → storeView sid' (Store.setStreaming sid text s) = storeView sid' s.
Proof. destruct text; other_session. Qed.

Lemma storeView_setStreamingStats sid sid' stats s :
  sid' ≠ sid → storeView sid' (Store.setStreamingStats sid stats s) = storeView sid' s.
Proof. destruct stats as [[[a|] [o|]]|]; other_session. Qed.

Lemma storeView_addPermission sid sid' perm s :
  sid' ≠ sid → storeView sid' (Store.addPermission sid perm s) = storeView sid' s.
Proof. other_session. Qed.

Lemma storeView_removePermission sid sid' rid s :
  sid' ≠ sid → storeView sid' (Store.removePermission sid rid s) = storeView sid' s.
Proof.
  unfold Store.removePermission. destruct (Store.pendingPermissions s !! sid); [|done].
  other_session.
Qed.

Lemma storeView_setTasks sid sid' tasks s :
  sid' ≠ sid → storeView sid' (Store.setTasks sid tasks s) = storeView sid' s.
Proof. other_session. Qed.

Lemma storeView_addTask sid sid' task s :
  sid' ≠ sid → storeView sid' (Store.addTask sid task s) = storeView sid' s.
Proof. other_session. Qed.

Lemma storeView_updateTask sid sid' tid u s :
  sid' ≠ sid → storeView sid' (Store.updateTask sid tid u s) = storeView sid' s.
Proof.
  unfold Store.updateTask. destruct (Store.sessionTasks s !! sid); [|done]. other_session.
Qed.

Lemma sessionView_with_store sid' f w :
  storeView sid' (f (store w)) = storeView sid' (store w) →
  sessionView sid' (with_store f w) = sessionView sid' w.
Proof. unfold sessionView. simpl. by intros ->. Qed.

Lemma sessionView_action sid' f w :
  (∀ s, storeView sid' (f s) = storeView sid' s) →
  sessionView sid' (with_store f w) = sessionView sid' w.
Proof. intros Hf. apply sessionView_with_store, Hf. Qed.

Ltac store_action :=
  intros;
  first [ by apply storeView_updateSession
        | by apply storeView_setCliConnected
        | by apply storeView_setSessionStatus
        | by apply storeView_setSessionName
        | by apply storeView_appendMessage
        | by apply storeView_setMessages
        | by apply storeView_setStreaming
        | by apply storeView_setStreamingStats
        | by apply storeView_addPermission
        | by apply storeView_removePermission ].

Lemma sessionView_applyTool sid sid' name input w :
  sid' ≠ sid → sessionView sid' (applyTool sid name input w) = sessionView sid' w.
Proof.
  intros Hne. unfold applyTool.
  repeat case_bool_decide; try done.
  - destruct (in_todos input); [|done].
    unfold sessionView, processed. simpl.
    by rewrite storeView_setTasks, lookup_insert_ne.
  - unfold sessionView, processed. simpl.
    by rewrite storeView_addTask, lookup_insert_ne.
  - destruct (truthy (in_taskId input)); [|done].
    by apply sessionView_with_store, storeView_updateTask.
Qed.

Lemma sessionView_with_processed sid sid' set w :
  sid' ≠ sid →
  sessionView sid' (with_processed (<[sid := set]> (processedToolUseIds w)) w)
  = sessionView sid' w.
Proof. intros Hne. unfold sessionView, processed. simpl. by rewrite lookup_insert_ne. Qed.

Lemma sessionView_extractBlock sid sid' w b :
  sid' ≠ sid → sessionView sid' (extractBlock sid w b) = sessionView sid' w.
Proof.
  intros Hne. unfold extractBlock.
  repeat case_match; try done; rewrite ?sessionView_applyTool by done; try done.
  by apply sessionView_with_processed.
Qed.

Lemma sessionView_foldl_extractBlock sid sid' blocks w :
  sid' ≠ sid → sessionView sid' (foldl (extractBlock sid) w blocks) = sessionView sid' w.
Proof.
  intros Hne. revert w. induction blocks as [|b blocks IH]; intros w; [done|].
  simpl. by rewrite IH, sessionView_extractBlock.
Qed.

Lemma sessionView_extractTasks sid sid' blocks w :
  sid' ≠ sid → sessionView sid' (extractTasksFromBlocks sid blocks w) = sessionView sid' w.
Proof.
  intros Hne. rewrite extractTasks_unfold, sessionView_foldl_extractBlock by done.
  unfold getProcessedSet. destruct (processedToolUseIds w !! sid); [done|].
  by apply sessionView_with_processed.
Qed.

Lemma sessionView_historyStep sid sid' now acc e :
  sid' ≠ sid → sessionView sid' (historyStep sid now acc e).2 = sessionView sid' acc.2.
Proof.
  intros Hne. destruct acc as [msgs w]. destruct e as [content ts|msg parent|r|]; simpl.
  - done.
  - destruct (am_content msg); [done|]. by apply sessionView_extractTasks.
  - by destruct (turnErrors r).
  - done.
Qed.

Lemma sessionView_history sid sid' now entries acc :
  sid' ≠ sid →
  sessionView sid' (foldl (historyStep sid now) acc entries).2 = sessionView sid' acc.2.
Proof.
  intros Hne. revert acc. induction entries as [|e entries IH]; intros acc; [done|].
  simpl. by rewrite IH, sessionView_historyStep.
Qed.

Section Frames.

Variable JSON_parse : string → Completion BrowserIncomingMessage.
Variable generateUniqueSessionName : list string → string.

Abbreviation handle := (handleMessage JSON_parse generateUniqueSessionName).
Abbreviation handleSeq := (handleAll JSON_parse generateUniqueSessionName).

(** *** Lines that are frames *)

Lemma handle_Normal now sid line w : ∃ w', handle now sid line w = Normal w'.
Proof. unfold handleMessage. destruct (JSON_parse line); eauto. Qed.

Lemma handleSeq_Normal sid frames w : ∃ w', handleSeq sid frames w = Normal w'.
Proof.
  revert w. induction frames as [|[now line] frames IH]; intros w; simpl; [eauto|].
  destruct (handle_Normal now sid line w) as [w1 ->]. apply IH.
Qed.

(** *** The other sessions *)

Lemma handle_sessionView now sid sid' line frame w :
  JSON_parse line = Normal frame → sid' ≠ sid →
  ∃ w', handle now sid line w = Normal w'
    ∧ sessionView sid' w' = sessionView sid' (carried frame w).
Proof.
  intros Hparse Hne. unfold handleMessage. rewrite Hparse.
  eexists. split; [reflexivity|].
  destruct frame as [session|session|msg parent|event|data|request|rid| | |status
                    |err|message| | |entries|]; unfold carried.
  - assert (sessionView sid'
              (with_store (Store.setSessionStatus sid (Some Idle))
                 (with_store (Store.setCliConnected sid true)
                    (with_store (Store.addSession session) w)))
            = sessionView sid' (with_store (Store.addSession session) w)) as Hbase.
    { rewrite sessionView_action by store_action.
      by rewrite sessionView_action by store_action. }
    destruct (Store.sessionNames (store w) !! sid); [done|].
    by rewrite sessionView_action by store_action.
  - by apply sessionView_with_store, storeView_updateSession.
  - assert (∀ w0, sessionView sid' w0 = sessionView sid' w →
              sessionView sid' match am_content msg with
                               | [] => w0
                               | _ :: _ => extractTasksFromBlocks sid (am_content msg) w0
                               end = sessionView sid' w) as Hext.
    { intros w0 Hw0. destruct (am_content msg); [done|].
      by rewrite sessionView_extractTasks. }
    assert (sessionView sid'
              (with_store (Store.setSessionStatus sid (Some Running))
                 (with_store (Store.setStreaming sid None)
                    (with_store
                       (Store.appendMessage sid (assistantChatMessage msg parent now)) w)))
            = sessionView sid' w) as Hbase.
    { by rewrite !sessionView_action by store_action. }
    apply Hext. destruct (Store.streamingStartedAt (store w) !! sid); [done|].
    by rewrite sessionView_action by store_action.
  - destruct event as [| |[delta|]|[n|]|]; try done.
    + destruct (Store.streamingStartedAt (store w) !! sid); [done|].
      by apply sessionView_with_store, storeView_setStreamingStats.
    + destruct (delta_text delta); [|done]. case_bool_decide; [|done].
      by apply sessionView_with_store, storeView_setStreaming.
    + case_bool_decide; [done|].
      by apply sessionView_with_store, storeView_setStreamingStats.
  - assert (sessionView sid'
              (with_store (Store.setSessionStatus sid (Some Idle))
                 (with_store (Store.setStreamingStats sid None)
                    (with_store (Store.setStreaming sid None)
                       (with_store (Store.updateSession sid (sessionUpdates data)) w))))
            = sessionView sid' w) as Hbase.
    { by rewrite !sessionView_action by store_action. }
    destruct (turnErrors data); [|done].
    simpl. by rewrite sessionView_action by store_action.
  - assert (sessionView sid' (with_store (Store.addPermission sid request) w)
            = sessionView sid' w) as Hbase.
    { by apply sessionView_with_store, storeView_addPermission. }
    destruct (tool_name request) as [name|], (perm_input request) as [input|]; try done.
    case_bool_decide; [done|]. by rewrite sessionView_extractTasks.
  - by apply sessionView_with_store, storeView_removePermission.
  - done.
  - done.
  - by apply sessionView_with_store, storeView_setSessionStatus.
  - destruct (truthy err); [|done]. simpl.
    by rewrite sessionView_action by store_action.
  - simpl. by rewrite sessionView_action by store_action.
  - by rewrite !sessionView_action by store_action.
  - by apply sessionView_with_store, storeView_setCliConnected.
  - pose proof (sessionView_history sid sid' now entries ([], w) Hne) as Hh.
    destruct (foldl (historyStep sid now) ([], w) entries) as [msgs w1]. simpl in Hh.
    destruct msgs; [done|].
    by rewrite sessionView_action by store_action.
  - done.
Qed.

(** X6. A frame on the socket of one session leaves the other sessions as
    they are, map by map: their records, message lists, tasks, pending
    requests, streaming state, connection and status flags, names, task
    counters and processed ids. The one exception is a [session_init]
    frame that carries another session: that session is added to the
    store, which records it and starts an empty message list for it when it
    has none. *)
Theorem other_sessions_untouched (now : Z) (sid sid' line : string)
    (frame : BrowserIncomingMessage) (w : World) :
  JSON_parse line = Normal frame →
  sid' ≠ sid →
  ∃ w', handle now sid line w = Normal w'
    ∧ sessionView sid' w' = sessionView sid' (carried frame w)
    ∧ ((∀ session, frame = session_init session → session_id session ≠ sid') →
       sessionView sid' w' = sessionView sid' w)
    ∧ (∀ session, frame = session_init session → session_id session = sid' →
       Store.sessions (store w') !! sid' = Some session
       ∧ Store.messages (store w') !! sid'
         = Some (default [] (Store.messages (store w) !! sid'))).
Proof.
  intros Hparse Hne.
  destruct (handle_sessionView now sid sid' line frame w Hparse Hne) as (w' & Hw' & Hview).
  exists w'. split; [done|]. split; [done|]. split.
  - intros Hother. rewrite Hview. destruct frame; try done. simpl.
    apply sessionView_with_store, storeView_addSession. by apply Hother.
  - intros session -> <-. injection Hview as Hs Hm _. rewrite Hs, Hm.
    unfold Store.addSession. simpl.
    destruct (Store.messages (store w) !! session_id session) eqn:Hmsgs; simpl.
    + by rewrite lookup_insert_eq, Hmsgs.
    + by rewrite !lookup_insert_eq.
Qed.

End Frames.

(** The theorem of X6 on two frames that arrive on the socket of ["s2"]
    while requests of ["s1"] are pending: an [assistant] frame, and a
    [session_init] frame that carries ["s1"]. *)
Lemma other_sessions_untouched_witness :
  (∃ w', handleMessage sampleParse sampleNames 7 "s2" "<assistant m2 TaskCreate toolu_1>"
           twoPending = Normal w'
     ∧ sessionView "s1" w' = sessionView "s1" twoPending)
  ∧ (∃ w', handleMessage initParse sampleNames 8 "s2" "<init s1>" twoPending = Normal w'
       ∧ Store.sessions (store w') !! "s1" = Some (sampleSession "s1")
       ∧ Store.messages (store w') !! "s1" = Some []).
Proof.
  split.
  - destruct (other_sessions_untouched sampleParse sampleNames 7 "s2" "s1"
                "<assistant m2 TaskCreate toolu_1>" _ twoPending eq_refl)
      as (w' & Hw' & _ & Hsame & _); [done|].
    exists w'. split; [exact Hw'|]. apply Hsame. intros session Heq. discriminate Heq.
  - destruct (other_sessions_untouched initParse sampleNames 8 "s2" "s1"
                "<init s1>" _ twoPending eq_refl)
      as (w' & Hw' & _ & _ & Hinit); [done|].
    exists w'. split; [exact Hw'|]. apply (Hinit (sampleSession "s1")); reflexivity.
Defined.

End SessionFacts.

(** ** Streaming text, histories and the turn timer *)

Section StreamFacts.

Import Ws Obs WsObs.
(** *** Strings *)

Lemma string_app_nil_r (s : string) : s +:+ "" = s.
Proof.
  induction s as [|c s IH]; [done|].
  change (String c (s +:+ "") = String c s). by rewrite IH.
Qed.

Lemma string_app_assoc (s1 s2 s3 : string) : s1 +:+ (s2 +:+ s3) = (s1 +:+ s2) +:+ s3.
Proof.
  induction s1 as [|c s1 IH]; [done|].
  change (String c (s1 +:+ (s2 +:+ s3)) = String c ((s1 +:+ s2) +:+ s3)). by rewrite IH.
Qed.

Lemma or_else_empty (o : option string) : or_else o "" = default "" o.
Proof. destruct o as [s|]; [|done]. simpl. by case_bool_decide. Qed.

Lemma concat_nonempty (sep : string) (l : list string) :
  Forall (λ s, s ≠ "") l → String.concat sep l = "" → l = [].
Proof.
  destruct l as [|x xs]; [done|]. intros [Hx _]%Forall_cons.
  destruct x as [|c x]; [done|]. simpl. by destruct xs.
Qed.

(** X11. The text content of a message is empty exactly when no text or thinking
    block has text. *)
Theorem extractText_empty (blocks : list ContentBlock) :
  extractTextFromBlocks blocks = "" ↔ Forall (λ b, blockText b = "") blocks.
Proof.
  unfold extractTextFromBlocks. split.
  - intros Hc. apply concat_nonempty in Hc.
    + apply Forall_forall. intros b Hb.
      destruct (decide (blockText b = "")) as [|Hne]; [done|].
      assert (blockText b ∈ filter (λ s, s ≠ "") (blockText <$> blocks)) as Hin.
      { apply list_elem_of_filter. split; [done|]. by apply list_elem_of_fmap_2. }
      rewrite Hc in Hin. by apply elem_of_nil in Hin.
    + apply Forall_forall. by intros s [? _]%list_elem_of_filter.
  - intros Hall. rewrite filter_none; [done|].
    intros s [b [-> Hb]]%list_elem_of_fmap Hs.
    by apply Hs, (proj1 (Forall_forall _ _) Hall).
Qed.

Section Frames.

Variable JSON_parse : string → Completion BrowserIncomingMessage.
Variable generateUniqueSessionName : list string → string.

Abbreviation handle := (handleMessage JSON_parse generateUniqueSessionName).
Abbreviation handleSeq := (handleAll JSON_parse generateUniqueSessionName).

(** *** The streaming text *)

Lemma handle_delta now sid line evt w :
  JSON_parse line = Normal (stream_event evt) →
  ∃ w', handle now sid line w = Normal w'
    ∧ Store.streaming (store w') !! sid
      = match deltaText evt with
        | Some text => Some (default "" (Store.streaming (store w) !! sid) +:+ text)
        | None => Store.streaming (store w) !! sid
        end
    ∧ Store.messages (store w') = Store.messages (store w).
Proof.
  intros Hparse. unfold handleMessage. rewrite Hparse. eexists. split; [reflexivity|].
  destruct evt as [| |[delta|]|[n|]|]; simpl; try done.
  - by destruct (Store.streamingStartedAt (store w) !! sid).
  - destruct (delta_text delta) as [text|]; [|done].
    case_bool_decide; [|done]. simpl. by rewrite lookup_insert_eq, or_else_empty.
  - by case_bool_decide.
Qed.

(** X7. Text deltas are accumulated in the order of arrival: after a run of
    stream events the streaming text of the session is the text it had,
    followed by the texts of the deltas; the history is not touched. *)
Theorem text_deltas_accumulate (sid : string) (frames : list (Z * string))
    (evts : list StreamEvent) (w : World) :
  Forall2 (λ f evt, JSON_parse f.2 = Normal (stream_event evt)) frames evts →
  ∃ w', handleSeq sid frames w = Normal w'
    ∧ Store.streaming (store w') !! sid
      = match omap deltaText evts with
        | [] => Store.streaming (store w) !! sid
        | texts => Some (default "" (Store.streaming (store w) !! sid) +:+ joined texts)
        end
    ∧ messagesOf sid w' = messagesOf sid w.
Proof.
  intros Hall. revert w.
  induction Hall as [|[now line] evt frames evts Hparse _ IH]; intros w.
  { by exists w. }
  simpl in Hparse.
  destruct (handle_delta now sid line evt w Hparse) as (w1 & Hw1 & Hs1 & Hm1).
  destruct (IH w1) as (w' & Hw' & Hs' & Hm').
  exists w'. split; [simpl; by rewrite Hw1|]. split.
  - rewrite Hs'. cbn [omap list_omap]. fold (omap deltaText evts).
    destruct (deltaText evt) as [text|].
    + rewrite Hs1. simpl.
      destruct (omap deltaText evts) as [|t ts].
      * by rewrite string_app_nil_r.
      * change (joined (t :: ts)) with (t +:+ joined ts).
        by rewrite <-string_app_assoc.
    + by rewrite Hs1.
  - unfold messagesOf, stored in *. by rewrite Hm', Hm1.
Qed.

(** *** [message_history] *)

Lemma history_fold sid now entries acc :
  msg_role <$> (foldl (historyStep sid now) acc entries).1
  = (msg_role <$> acc.1) ++ omap historyRole entries
  ∧ idCounter (foldl (historyStep sid now) acc entries).2
    = (idCounter acc.2 + length (filter (λ e, generatesId e = true) entries))%nat
  ∧ Store.messages (store (foldl (historyStep sid now) acc entries).2)
    = Store.messages (store acc.2).
Proof.
  revert acc. induction entries as [|e entries IH]; intros acc.
  { simpl. by rewrite app_nil_r, Nat.add_0_r. }
  cbn [foldl]. destruct (IH (historyStep sid now acc e)) as (-> & -> & ->).
  destruct acc as [msgs w].
  destruct e as [content ts|msg parent|r|]; cbn [omap list_omap historyRole];
    fold (omap historyRole entries); rewrite ?filter_cons; simpl.
  - rewrite fmap_app, <-app_assoc. repeat split; try done; lia.
  - rewrite fmap_app, <-app_assoc. split; [done|].
    destruct (am_content msg) as [|b bs]; [done|].
    destruct (extractTasks_frame sid (b :: bs) w) as [Hs Hi].
    split; [by rewrite Hi|]. by apply tasksOnly_messages.
  - destruct (turnErrors r); simpl; [|done].
    rewrite fmap_app, <-app_assoc. repeat split; try done; lia.
  - done.
Qed.

(** X8. A [message_history] frame replaces the history of the session by one
    message per user, assistant and failed-result entry, in order and
    without deduplication; a history with no such entry leaves the stored
    messages as they are. The entries other than assistant ones take their
    ids from [nextId]. *)
Theorem history_replaces (now : Z) (sid line : string) (entries : list HistoryEntry)
    (w : World) :
  JSON_parse line = Normal (message_history entries) →
  ∃ w', handle now sid line w = Normal w'
    ∧ match omap historyRole entries with
      | [] => messagesOf sid w' = messagesOf sid w
      | roles => msg_role <$> messagesOf sid w' = roles
      end
    ∧ idCounter w'
      = (idCounter w + length (filter (λ e, generatesId e = true) entries))%nat.
Proof.
  intros Hparse. unfold handleMessage. rewrite Hparse. eexists. split; [reflexivity|].
  destruct (history_fold sid now entries ([], w)) as (Hr & Hi & Hm).
  destruct (foldl (historyStep sid now) ([], w) entries) as [msgs w1]. simpl in *.
  rewrite <-Hr. destruct msgs as [|m msgs]; simpl.
  - unfold messagesOf, stored. by rewrite Hm.
  - unfold messagesOf, stored. simpl. by rewrite lookup_insert_eq.
Qed.

(** *** The processed ids over a run of frames *)

Lemma handle_grows now sid line w w' :
  handle now sid line w = Normal w' → grows sid w w'.
Proof.
  intros Hw'. destruct (JSON_parse line) as [frame|] eqn:Hparse.
  2:{ unfold handleMessage in Hw'. rewrite Hparse in Hw'. injection Hw' as <-.
      apply grows_refl. }
  destruct (frameGroups frame) as [|g gs] eqn:Hgroups.
  { destruct (handle_other_tasks JSON_parse generateUniqueSessionName
                now sid line frame w Hparse Hgroups) as (w1 & Hw1 & Ht).
    rewrite Hw' in Hw1. injection Hw1 as <-.
    apply grows_same. by injection Ht as _ _ ->. }
  destruct frame as [session|session|msg parent|event|data|req|rid| | |status
                    |err|message| | |entries|]; try done.
  - destruct (handle_assistant_tasks JSON_parse generateUniqueSessionName
                now sid line msg parent w Hparse) as (v & Hv & _ & _ & Hp).
    rewrite Hw' in Hv. injection Hv as ->.
    eapply grows_trans; [by apply grows_same|].
    destruct (am_content msg); [apply grows_refl|apply grows_extract].
  - destruct (handle_permission_tasks JSON_parse generateUniqueSessionName
                now sid line req w Hparse) as (v & Hv & Ht).
    rewrite Hgroups, Hw' in Hv. injection Hv as ->.
    eapply grows_trans; [apply grows_same; by injection Ht as _ _ ->|].
    apply grows_extract.
  - destruct (handle_history_tasks JSON_parse generateUniqueSessionName
                now sid line entries w Hparse) as (v & Hv & Ht).
    rewrite Hw' in Hv. injection Hv as <-.
    eapply grows_trans; [apply (history_grows sid now entries ([], w))|].
    apply grows_same. by injection Ht as _ _ ->.
Qed.

Lemma handleSeq_grows sid frames w w' :
  handleSeq sid frames w = Normal w' → grows sid w w'.
Proof.
  revert w. induction frames as [|[now line] frames IH]; intros w; simpl.
  { intros [= <-]. apply grows_refl. }
  destruct (handle now sid line w) as [w1|] eqn:Hw1; [|done].
  intros Hw'. eapply grows_trans; [by eapply handle_grows|by apply IH].
Qed.

Lemma handleSeq_frames sid frames w :
  Forall (λ x, ∃ frame, JSON_parse x.2 = Normal frame) frames →
  ∃ w', handleSeq sid frames w = Normal w'.
Proof.
  intros Hframes. revert w.
  induction Hframes as [|[now line] frames [frame Hparse] _ IH]; intros w; simpl; [eauto|].
  simpl in Hparse. unfold handleMessage at 1. rewrite Hparse. apply IH.
Qed.

(** X9. The processed invocation ids of a session survive every run of
    frames of the protocol's shape on its socket: the handler completes the
    run, ids are only ever added, and a block whose id was processed before
    the run is still ignored after it. *)
Theorem processed_ids_persist (sid : string) (frames : list (Z * string)) (w : World) :
  Forall (λ x, ∃ frame, JSON_parse x.2 = Normal frame) frames →
  ∃ w', handleSeq sid frames w = Normal w'
    ∧ processed sid w ⊆ processed sid w'
    ∧ ∀ tid name input, tid ≠ "" → tid ∈ processed sid w →
        extractTasksFromBlocks sid [BToolUse (Some tid) name input] w' = w'.
Proof.
  intros Hframes.
  destruct (handleSeq_frames sid frames w Hframes) as [w' Hw'].
  exists w'. split; [done|].
  destruct (handleSeq_grows sid frames w w' Hw') as [Hsome Hsub]. split; [done|].
  intros tid name input Hne Hin.
  apply extractTasks_all_processed.
  - apply Hsome. unfold processed in Hin.
    destruct (processedToolUseIds w !! sid); [done|]. by apply elem_of_empty in Hin.
  - intros b t Hb%list_elem_of_singleton Hact. subst b.
    exists tid. split; [|by auto].
    unfold actedOn in Hact. destruct name as [name|], input as [input|]; try done.
    case_bool_decide; by simplify_eq.
Qed.

(** *** The start timestamp of a turn *)

Lemma streamingOf_addSession session s :
  streamingOf (Store.addSession session s) = streamingOf s.
Proof. unfold Store.addSession. simpl. by destruct (_ !! _). Qed.

Lemma streamingOf_removePermission sid rid s :
  streamingOf (Store.removePermission sid rid s) = streamingOf s.
Proof. unfold Store.removePermission. by destruct (_ !! _). Qed.

Lemma streamingOf_extractTasks sid blocks w :
  streamingOf (store (extractTasksFromBlocks sid blocks w)) = streamingOf (store w).
Proof.
  destruct (extractTasks_frame sid blocks w) as [Hs _].
  destruct (tasksOnly_streaming _ _ Hs) as (H1 & H2 & H3).
  unfold streamingOf. by rewrite H1, H2, H3.
Qed.

Lemma streamingOf_historyStep sid now acc e :
  streamingOf (store (historyStep sid now acc e).2) = streamingOf (store acc.2).
Proof.
  destruct acc as [msgs w]. destruct e as [content ts|msg parent|r|]; simpl.
  - done.
  - destruct (am_content msg); [done|]. apply streamingOf_extractTasks.
  - by destruct (turnErrors r).
  - done.
Qed.

Lemma streamingOf_history sid now entries acc :
  streamingOf (store (foldl (historyStep sid now) acc entries).2) = streamingOf (store acc.2).
Proof.
  revert acc. induction entries as [|e entries IH]; intros acc; [done|].
  simpl. by rewrite IH, streamingOf_historyStep.
Qed.

Lemma startedAt_streamingOf s s' :
  streamingOf s' = streamingOf s → Store.streamingStartedAt s' = Store.streamingStartedAt s.
Proof. by intros [= _ -> _]. Qed.

(** X10. Once the start timestamp of a turn is set, every frame keeps it except
    a [result] frame, which clears it. *)
Theorem start_timestamp_kept (now t : Z) (sid line : string)
    (frame : BrowserIncomingMessage) (w : World) :
  JSON_parse line = Normal frame →
  Store.streamingStartedAt (store w) !! sid = Some t →
  ∃ w', handle now sid line w = Normal w'
    ∧ Store.streamingStartedAt (store w') !! sid
      = match frame with result _ => None | _ => Some t end.
Proof.
  intros Hparse Ht. unfold handleMessage. rewrite Hparse. eexists. split; [reflexivity|].
  destruct frame as [session|session|msg parent|event|data|request|rid| | |status
                    |err|message| | |entries|]; rewrite ?Ht; try done.
  - destruct (Store.sessionNames (store w) !! sid); simpl;
      by rewrite (startedAt_streamingOf _ _ (streamingOf_addSession session (store w))).
  - simpl. by rewrite (startedAt_streamingOf _ _ (updateSession_streaming sid session (store w))).
  - destruct (am_content msg).
    + simpl. by rewrite (startedAt_streamingOf _ _ (appendMessage_streaming sid _ (store w))).
    + rewrite (startedAt_streamingOf _ _ (streamingOf_extractTasks sid _ _)). simpl.
      by rewrite (startedAt_streamingOf _ _ (appendMessage_streaming sid _ (store w))).
  - destruct event as [| |[delta|]|[n|]|]; try done.
    + destruct (delta_text delta); [|done]. by case_bool_decide.
    + by case_bool_decide.
  - destruct (turnErrors data); simpl;
      rewrite ?(startedAt_streamingOf _ _ (appendMessage_streaming sid _ _)); simpl;
      by rewrite lookup_delete_eq.
  - destruct (tool_name request) as [name|], (perm_input request) as [input|]; try done.
    case_bool_decide; [done|].
    by rewrite (startedAt_streamingOf _ _ (streamingOf_extractTasks sid _ _)).
  - simpl. by rewrite (startedAt_streamingOf _ _ (streamingOf_removePermission sid rid _)).
  - destruct (truthy err); [|done]. simpl.
    by rewrite (startedAt_streamingOf _ _ (appendMessage_streaming sid _ _)).
  - simpl. by rewrite (startedAt_streamingOf _ _ (appendMessage_streaming sid _ _)).
  - pose proof (streamingOf_history sid now entries ([], w)) as Hh.
    destruct (foldl (historyStep sid now) ([], w) entries) as [msgs w1]. simpl in Hh.
    destruct msgs; simpl; by rewrite (startedAt_streamingOf _ _ Hh).
Qed.

End Frames.

Lemma text_deltas_accumulate_witness :
  ∃ w', handleAll sampleParse sampleNames "s1" [(1, "<delta>"); (2, "<delta>")] midStream
          = Normal w'
    ∧ Store.streaming (store w') !! "s1" = Some "parparpar"
    ∧ messagesOf "s1" w' = messagesOf "s1" midStream.
Proof.
  refine (text_deltas_accumulate sampleParse sampleNames "s1"
            [(1, "<delta>"); (2, "<delta>")]
            [SeContentBlockDelta (Some {| delta_type := "text_delta"; delta_text := Some "par" |});
             SeContentBlockDelta (Some {| delta_type := "text_delta"; delta_text := Some "par" |})]
            midStream _).
  constructor; [vm_compute; reflexivity|]. constructor; [vm_compute; reflexivity|].
  constructor.
Defined.

Lemma history_replaces_witness :
  let w := with_store (Store.appendMessage "s1" (sampleMessage (Some "m1") "old")) emptyWorld in
  ∃ w', handleMessage historyParse sampleNames 9 "s1" "<history>" w = Normal w'
    ∧ msg_role <$> messagesOf "s1" w' = [RUser; RAssistant; RAssistant]
    ∧ idCounter w' = 1%nat.
Proof.
  refine (history_replaces historyParse sampleNames 9 "s1" "<history>" sampleHistory _ _).
  vm_compute. reflexivity.
Defined.

(** The theorem of X9 on a session that has processed ["toolu_1"], over an
    [assistant] frame, a [result] frame and a replay of ["toolu_1"]. *)
Lemma processed_ids_persist_witness :
  let w := extractTasksFromBlocks "s1"
             [BToolUse (Some "toolu_1") (Some "TaskCreate") (Some (sampleInput "Plan"))]
             emptyWorld in
  ∃ w', handleAll sampleParse sampleNames "s1"
          [(1, "<assistant m1>"); (2, "<result>"); (3, "<assistant m3 TaskCreate toolu_1>")] w
        = Normal w'
    ∧ "toolu_1" ∈ processed "s1" w'
    ∧ extractTasksFromBlocks "s1"
        [BToolUse (Some "toolu_1") (Some "TaskCreate") (Some (sampleInput "Plan"))] w' = w'.
Proof.
  cbn zeta.
  destruct (processed_ids_persist sampleParse sampleNames "s1"
              [(1, "<assistant m1>"); (2, "<result>");
               (3, "<assistant m3 TaskCreate toolu_1>")]
              (extractTasksFromBlocks "s1"
                 [BToolUse (Some "toolu_1") (Some "TaskCreate") (Some (sampleInput "Plan"))]
                 emptyWorld)) as (w' & Hw' & Hsub & Hskip).
  - repeat (constructor; [eexists; vm_compute; reflexivity|]). constructor.
  - exists w'. split; [exact Hw'|]. split.
    + apply Hsub. compute_done.
    + apply Hskip; [done|compute_done].
Defined.

Lemma start_timestamp_kept_witness :
  ∃ w', handleMessage sampleParse sampleNames 250 "s1" "<delta>" midStream = Normal w'
    ∧ Store.streamingStartedAt (store w') !! "s1" = Some 100.
Proof.
  refine (start_timestamp_kept sampleParse sampleNames 250 100 "s1" "<delta>"
            (stream_event (SeContentBlockDelta
               (Some {| delta_type := "text_delta"; delta_text := Some "par" |})))
            midStream _ _).
  - vm_compute. reflexivity.
  - vm_compute. reflexivity.
Defined.

End StreamFacts.

(** ** Task updates, generated ids and repeated initialisation *)

Section IdFacts.

Import Ws Obs WsObs.
(** *** [TaskUpdate] *)

Lemma applyTool_TaskUpdate sid input taskId w :
  in_taskId input = Some taskId → taskId ≠ "" →
  tasksOf sid (applyTool sid "TaskUpdate" input w)
  = (λ t, if bool_decide (task_id t = taskId) then Store.applyTaskPatch (taskUpdates input) t
          else t) <$> tasksOf sid w
  ∧ taskCount sid (applyTool sid "TaskUpdate" input w) = taskCount sid w.
Proof.
  intros Hid Hne. unfold applyTool. simpl. rewrite Hid. simpl.
  rewrite bool_decide_eq_true_2 by done. split; [|done].
  unfold tasksOf, Store.updateTask. simpl.
  destruct (Store.sessionTasks (store w) !! sid) as [tasks|] eqn:Ht; simpl.
  - by rewrite lookup_insert_eq.
  - by rewrite Ht.
Qed.

(** X5. A [TaskUpdate] that is not deduplicated changes the tasks with the
    given id and nothing else: the list keeps its length, order, ids,
    subjects and descriptions, the tasks with another id are as before, an
    id that no task has changes nothing, and no task number is consumed. A
    status is taken over when it is a non-empty string. *)
Theorem taskUpdate_applies (sid taskId : string) (tid : option string) (input : ToolInput)
    (w : World) :
  in_taskId input = Some taskId →
  taskId ≠ "" →
  deduplicated sid w tid = false →
  let w' := extractTasksFromBlocks sid [BToolUse tid (Some "TaskUpdate") (Some input)] w in
  task_id <$> tasksOf sid w' = task_id <$> tasksOf sid w
  ∧ task_subject <$> tasksOf sid w' = task_subject <$> tasksOf sid w
  ∧ task_description <$> tasksOf sid w' = task_description <$> tasksOf sid w
  ∧ filter (λ t, task_id t ≠ taskId) (tasksOf sid w')
    = filter (λ t, task_id t ≠ taskId) (tasksOf sid w)
  ∧ (taskId ∉ task_id <$> tasksOf sid w → tasksOf sid w' = tasksOf sid w)
  ∧ (∀ i t, tasksOf sid w !! i = Some t → task_id t = taskId →
       ∃ t', tasksOf sid w' !! i = Some t'
         ∧ task_status t'
           = (if truthy (in_status input) then default "" (in_status input)
              else task_status t))
  ∧ taskCount sid w' = taskCount sid w.
Proof.
  intros Hid Hne Hd. cbn zeta.
  destruct (extractTasks_single sid w tid "TaskUpdate" input) as [Hv _]; [done|done|].
  rewrite (tasksOf_taskView sid _ _ Hv), (taskCount_taskView sid _ _ Hv).
  destruct (applyTool_TaskUpdate sid input taskId w Hid Hne) as [-> ->].
  set (f := λ t, if bool_decide (task_id t = taskId)
                 then Store.applyTaskPatch (taskUpdates input) t else t).
  assert (∀ t, task_id (f t) = task_id t ∧ task_subject (f t) = task_subject t
               ∧ task_description (f t) = task_description t) as Hf.
  { intros t. unfold f. by case_bool_decide. }
  repeat split.
  - rewrite <-list_fmap_compose. apply list_fmap_ext. intros i t _. apply Hf.
  - rewrite <-list_fmap_compose. apply list_fmap_ext. intros i t _. apply Hf.
  - rewrite <-list_fmap_compose. apply list_fmap_ext. intros i t _. apply Hf.
  - induction (tasksOf sid w) as [|t ts IH]; [done|].
    rewrite fmap_cons, !filter_cons, IH. destruct (Hf t) as [-> _].
    case_decide as Ht; [|done]. unfold f. by rewrite bool_decide_eq_false_2.
  - intros Hnot. induction (tasksOf sid w) as [|t ts IH]; [done|].
    rewrite fmap_cons in Hnot. apply not_elem_of_cons in Hnot as [Ht Hnot].
    rewrite fmap_cons, IH by done. unfold f at 1. by rewrite bool_decide_eq_false_2.
  - intros i t Hi Ht. exists (f t). split; [by rewrite list_lookup_fmap, Hi|].
    unfold f. rewrite bool_decide_eq_true_2 by done. simpl.
    destruct (truthy (in_status input)) eqn:Hs; [|done].
    destruct (in_status input); done.
Qed.

Lemma taskUpdate_applies_witness :
  let w := extractTasksFromBlocks "s1"
             [BToolUse (Some "toolu_1") (Some "TaskCreate") (Some (sampleInput "Plan"));
              BToolUse (Some "toolu_2") (Some "TaskCreate") (Some (sampleInput "Build"))]
             emptyWorld in
  let w' := extractTasksFromBlocks "s1"
              [BToolUse (Some "toolu_3") (Some "TaskUpdate")
                 (Some (sampleUpdateInput "2" "completed"))] w in
  task_id <$> tasksOf "s1" w' = ["1"; "2"]
  ∧ task_subject <$> tasksOf "s1" w' = ["Plan"; "Build"]
  ∧ task_status <$> tasksOf "s1" w' = ["pending"; "completed"]
  ∧ taskCount "s1" w' = 2%nat.
Proof.
  cbn zeta.
  destruct (taskUpdate_applies "s1" "2" (Some "toolu_3") (sampleUpdateInput "2" "completed")
              (extractTasksFromBlocks "s1"
                 [BToolUse (Some "toolu_1") (Some "TaskCreate") (Some (sampleInput "Plan"));
                  BToolUse (Some "toolu_2") (Some "TaskCreate") (Some (sampleInput "Build"))]
                 emptyWorld))
    as (H1 & H2 & _ & _ & _ & _ & H7).
  - reflexivity.
  - done.
  - vm_compute. reflexivity.
  - split; [exact H1|]. split; [exact H2|]. split; [vm_compute; reflexivity|exact H7].
Defined.

(** *** Generated message ids *)

Lemma dashFree_pretty_N_go (x : N) (s : string) : dashFree s → dashFree (pretty_N_go x s).
Proof.
  revert s. induction (N.lt_wf_0 x) as [x _ IH]; intros s Hs.
  assert (x = 0 ∨ 0 < x)%N as [->|Hpos] by lia.
  - by rewrite pretty_N_go_0.
  - rewrite pretty_N_go_step by done. apply IH; [by apply N.div_lt|].
    split; [|done]. unfold pretty_N_char. by repeat case_match.
Qed.

Lemma dashFree_pretty_nat (n : nat) : dashFree (pretty n).
Proof.
  unfold pretty, pretty_nat, pretty, pretty_N.
  case_decide; [by repeat split|]. by apply dashFree_pretty_N_go.
Qed.

Lemma dashFree_app_dash (s d : string) : ¬ dashFree (s +:+ String dash d).
Proof.
  induction s as [|c s IH].
  - change (¬ (dash ≠ dash ∧ dashFree d)). by intros [? _].
  - change (¬ (c ≠ dash ∧ dashFree (s +:+ String dash d))). by intros [_ ?].
Qed.

Lemma dashFree_app_inv (s1 s2 d1 d2 : string) :
  dashFree d1 → dashFree d2 →
  s1 +:+ String dash d1 = s2 +:+ String dash d2 → d1 = d2.
Proof.
  intros Hd1 Hd2. revert s2. induction s1 as [|c s1 IH]; intros [|c' s2] Heq.
  - change (String dash d1 = String dash d2) in Heq. by injection Heq.
  - change (String dash d1 = String c' (s2 +:+ String dash d2)) in Heq.
    injection Heq as _ ->. by apply dashFree_app_dash in Hd1.
  - change (String c (s1 +:+ String dash d1) = String dash d2) in Heq.
    injection Heq as _ <-. by apply dashFree_app_dash in Hd2.
  - change (String c (s1 +:+ String dash d1) = String c' (s2 +:+ String dash d2)) in Heq.
    injection Heq as _ Heq. by apply (IH s2).
Qed.

Lemma nextId_counter now1 now2 w1 w2 :
  (nextId now1 w1).1 = (nextId now2 w2).1 → idCounter w1 = idCounter w2.
Proof.
  unfold nextId. simpl. intros Heq.
  assert (pretty (S (idCounter w1)) = pretty (S (idCounter w2))) as Hp.
  { apply (dashFree_app_inv ("msg-" +:+ pretty now1) ("msg-" +:+ pretty now2));
      [apply dashFree_pretty_nat..|].
    rewrite <-!string_app_assoc. exact Heq. }
  apply (inj pretty) in Hp. by injection Hp.
Qed.

Lemma historyStep_idCounter sid now acc e :
  (idCounter acc.2 ≤ idCounter (historyStep sid now acc e).2)%nat.
Proof.
  destruct acc as [msgs w]. destruct e as [content ts|msg parent|r|]; simpl.
  - lia.
  - destruct (am_content msg) as [|b bs]; [done|].
    by destruct (extractTasks_frame sid (b :: bs) w) as [_ ->].
  - destruct (turnErrors r); simpl; lia.
  - done.
Qed.

Lemma history_idCounter sid now entries acc :
  (idCounter acc.2 ≤ idCounter (foldl (historyStep sid now) acc entries).2)%nat.
Proof.
  revert acc. induction entries as [|e entries IH]; intros acc; [done|].
  simpl. etrans; [apply historyStep_idCounter|apply IH].
Qed.

Section Frames.

Variable JSON_parse : string → Completion BrowserIncomingMessage.
Variable generateUniqueSessionName : list string → string.

Abbreviation handle := (handleMessage JSON_parse generateUniqueSessionName).
Abbreviation handleSeq := (handleAll JSON_parse generateUniqueSessionName).

Lemma handle_idCounter now sid line w w' :
  handle now sid line w = Normal w' → (idCounter w ≤ idCounter w')%nat.
Proof.
  unfold handleMessage. destruct (JSON_parse line) as [frame|]; [|by intros [= <-]].
  intros [= <-].
  destruct frame as [session|session|msg parent|event|data|request|rid| | |status
                    |err|message| | |entries|]; simpl; try done.
  - by destruct (Store.sessionNames (store w) !! sid).
  - destruct (am_content msg) as [|b bs].
    + by destruct (Store.streamingStartedAt (store w) !! sid).
    + destruct (extractTasks_frame sid (b :: bs)
                  match Store.streamingStartedAt (store w) !! sid with
                  | Some _ =>
                      with_store (Store.setSessionStatus sid (Some Running))
                        (with_store (Store.setStreaming sid None)
                           (with_store
                              (Store.appendMessage sid (assistantChatMessage msg parent now))
                              w))
                  | None =>
                      with_store
                        (Store.setStreamingStats sid
                           (Some {| startedAt := Some now; outputTokens := None |}))
                        (with_store (Store.setSessionStatus sid (Some Running))
                           (with_store (Store.setStreaming sid None)
                              (with_store
                                 (Store.appendMessage sid
                                    (assistantChatMessage msg parent now)) w)))
                  end) as [_ ->].
      by destruct (Store.streamingStartedAt (store w) !! sid).
  - destruct event as [| |[delta|]|[n|]|]; try done.
    + by destruct (Store.streamingStartedAt (store w) !! sid).
    + destruct (delta_text delta); [|done]. by case_bool_decide.
    + by case_bool_decide.
  - destruct (turnErrors data); simpl; lia.
  - destruct (tool_name request) as [name|], (perm_input request) as [input|]; try done.
    case_bool_decide; [done|].
    by destruct (extractTasks_frame sid
                   [BToolUse (tool_use_id request) (Some name) (Some input)]
                   (with_store (Store.addPermission sid request) w)) as [_ ->].
  - destruct (truthy err); simpl; lia.
  - lia.
  - pose proof (history_idCounter sid now entries ([], w)) as Hh.
    destruct (foldl (historyStep sid now) ([], w) entries) as [msgs w1]. simpl in Hh.
    by destruct msgs.
Qed.

Lemma handleSeq_idCounter sid frames w w' :
  handleSeq sid frames w = Normal w' → (idCounter w ≤ idCounter w')%nat.
Proof.
  revert w. induction frames as [|[now line] frames IH]; intros w; simpl.
  { by intros [= <-]. }
  destruct (handle now sid line w) as [w1|] eqn:Hw1; [|done].
  intros Hw'. etrans; [by eapply handle_idCounter|by apply IH].
Qed.

(** X12. An id made by [nextId] is never made again: whatever frames are
    handled after it and whatever the clock shows, a later call of
    [nextId] returns another id. *)
Theorem nextId_never_repeats (now1 now2 : Z) (sid : string) (frames : list (Z * string))
    (w : World) :
  ∃ w', handleSeq sid frames (nextId now1 w).2 = Normal w'
    ∧ (nextId now2 w').1 ≠ (nextId now1 w).1.
Proof.
  destruct (handleSeq_Normal JSON_parse generateUniqueSessionName sid frames
              (nextId now1 w).2) as [w' Hw'].
  exists w'. split; [done|]. intros Heq.
  apply nextId_counter in Heq. apply handleSeq_idCounter in Hw'. simpl in Hw'. lia.
Qed.

(** *** [session_init] on a reconnect *)

(** X13. Handling the same [session_init] frame again changes nothing: the
    session keeps its name and its messages. *)
Theorem session_init_again (now1 now2 : Z) (sid line : string) (session : SessionState)
    (w : World) :
  JSON_parse line = Normal (session_init session) →
  ∃ w1, handle now1 sid line w = Normal w1
    ∧ handle now2 sid line w1 = Normal w1
    ∧ is_Some (Store.sessionNames (store w1) !! sid)
    ∧ (∀ name, Store.sessionNames (store w) !! sid = Some name →
         Store.sessionNames (store w1) !! sid = Some name)
    ∧ messagesOf sid w1 = messagesOf sid w
    ∧ Store.cliConnected (store w1) !! sid = Some true
    ∧ Store.sessionStatus (store w1) !! sid = Some (Some Idle).
Proof.
  intros Hparse. unfold handleMessage. rewrite Hparse.
  eexists. split; [reflexivity|].
  set (w0 := with_store (Store.setSessionStatus sid (Some Idle))
               (with_store (Store.setCliConnected sid true)
                  (with_store (Store.addSession session) w))).
  assert (Store.sessionNames (store w0) = Store.sessionNames (store w)) as Hn0.
  { unfold w0, Store.addSession. simpl. by destruct (_ !! _). }
  assert (messagesOf sid w0 = messagesOf sid w) as Hm0.
  { unfold w0, messagesOf, stored, Store.addSession. simpl.
    destruct (Store.messages (store w) !! session_id session) eqn:Hm; simpl; [done|].
    destruct (decide (session_id session = sid)) as [<-|Hne].
    - by rewrite lookup_insert_eq, Hm.
    - by rewrite lookup_insert_ne. }
  assert (∀ v, Store.sessionNames (store v) !! sid ≠ None →
            is_Some (Store.messages (store v) !! session_id session) →
            Store.sessions (store v) !! session_id session = Some session →
            Store.cliConnected (store v) !! sid = Some true →
            Store.sessionStatus (store v) !! sid = Some (Some Idle) →
            match Store.sessionNames (store v) !! sid with
            | Some _ =>
                with_store (Store.setSessionStatus sid (Some Idle))
                  (with_store (Store.setCliConnected sid true)
                     (with_store (Store.addSession session) v))
            | None =>
                with_store
                  (Store.setSessionName sid
                     (generateUniqueSessionName (map_to_list (Store.sessionNames (store v))).*2))
                  (with_store (Store.setSessionStatus sid (Some Idle))
                     (with_store (Store.setCliConnected sid true)
                        (with_store (Store.addSession session) v)))
            end = v) as Hagain.
  { intros [s tc p ic] Hname [ms Hms] Hs Hc Hst. simpl in *.
    destruct (Store.sessionNames s !! sid); [|done].
    unfold with_store. simpl. f_equal.
    unfold Store.addSession. simpl. rewrite Hms. destruct s; simpl in *.
    unfold Store.setSessionStatus, Store.setCliConnected, Store.with_sessions,
      Store.with_sessionStatus, Store.with_cliConnected. simpl.
    f_equal; by apply insert_id. }
  assert (is_Some (Store.messages (store w0) !! session_id session)
          ∧ Store.sessions (store w0) !! session_id session = Some session
          ∧ Store.cliConnected (store w0) !! sid = Some true
          ∧ Store.sessionStatus (store w0) !! sid = Some (Some Idle)) as (Hms & Hs & Hc & Hst).
  { unfold w0, Store.addSession. simpl.
    destruct (Store.messages (store w) !! session_id session) eqn:Hm; simpl;
      rewrite ?Hm, !lookup_insert_eq; eauto. }
  destruct (Store.sessionNames (store w) !! sid) as [name|] eqn:Hname.
  - fold w0. split.
    + f_equal. apply Hagain; try done. by rewrite Hn0, Hname.
    + rewrite Hn0, Hname. repeat split; eauto.
  - fold w0.
    set (w1 := with_store (Store.setSessionName sid _) w0).
    assert (Store.sessionNames (store w1) !! sid ≠ None) as Hn1.
    { unfold w1. simpl. by rewrite lookup_insert_eq. }
    split.
    + f_equal. apply Hagain; try done.
    + split; [unfold w1; simpl; rewrite lookup_insert_eq; eauto|].
      split; [done|]. split; [done|]. split; done.
Qed.

End Frames.

Lemma session_init_again_witness :
  ∃ w1, handleMessage initParse sampleNames 5 "s1" "<init s1>" emptyWorld = Normal w1
    ∧ handleMessage initParse sampleNames 9 "s1" "<init s1>" w1 = Normal w1
    ∧ Store.sessionNames (store w1) !! "s1" = Some "session"
    ∧ messagesOf "s1" w1 = [].
Proof.
  destruct (session_init_again initParse sampleNames 5 9 "s1" "<init s1>"
              (sampleSession "s1") emptyWorld) as (w1 & H1 & H2 & _ & _ & H5 & _).
  { vm_compute. reflexivity. }
  exists w1. split; [exact H1|]. split; [exact H2|]. split; [|exact H5].
  vm_compute in H1. injection H1 as <-. vm_compute. reflexivity.
Defined.

End IdFacts.

(** ** Closing connections *)

Section ConnFacts.

Import Ws Obs WsObs Connections ConnObs.
Lemma disconnectSession_world sid p :
  world (disconnectSession sid p)
  = with_taskCounters (delete sid (taskCounters (world p)))
      (with_processed (delete sid (processedToolUseIds (world p))) (world p)).
Proof. unfold disconnectSession. by repeat case_match. Qed.

Lemma disconnectSession_sockets sid p :
  sockets (disconnectSession sid p) = delete sid (sockets p).
Proof.
  unfold disconnectSession. destruct (reconnectTimers p !! sid);
    destruct (sockets p !! sid) eqn:Hs; simpl; try done;
    by rewrite delete_id.
Qed.

Lemma disconnectSession_timers sid p :
  reconnectTimers (disconnectSession sid p) = delete sid (reconnectTimers p).
Proof.
  unfold disconnectSession. destruct (reconnectTimers p !! sid) eqn:Ht;
    destruct (sockets p !! sid); simpl; try done;
    by rewrite delete_id.
Qed.

Lemma disconnectSession_closed sid p :
  closed (disconnectSession sid p)
  = match sockets p !! sid with Some ws => {[ws]} ∪ closed p | None => closed p end.
Proof.
  unfold disconnectSession. by destruct (reconnectTimers p !! sid), (sockets p !! sid).
Qed.

Lemma disconnectSession_cleared sid p :
  cleared (disconnectSession sid p)
  = match reconnectTimers p !! sid with
    | Some timer => {[timer]} ∪ cleared p
    | None => cleared p
    end.
Proof.
  unfold disconnectSession. by destruct (reconnectTimers p !! sid), (sockets p !! sid).
Qed.

(** X14. [disconnectSession] closes the socket of the session and cancels its
    reconnect timer, and forgets its processed invocation ids and its task
    counter but leaves its task list in the store: a task created after it
    is numbered 1 again and added to the tasks that are there, also for an
    invocation that was processed before. *)
Theorem disconnect_forgets (sid : string) (tid : option string) (input : ToolInput)
    (p : Page) :
  let w := world (disconnectSession sid p) in
  processed sid w = ∅
  ∧ taskCount sid w = 0%nat
  ∧ tasksOf sid w = tasksOf sid (world p)
  ∧ sockets (disconnectSession sid p) !! sid = None
  ∧ reconnectTimers (disconnectSession sid p) !! sid = None
  ∧ tasksOf sid (extractTasksFromBlocks sid
                   [BToolUse tid (Some "TaskCreate") (Some input)] w)
    = tasksOf sid (world p) ++ [createdTask 1 input]
  ∧ (∀ ws, sockets p !! sid = Some ws → ws ∈ closed (disconnectSession sid p))
  ∧ (∀ timer, reconnectTimers p !! sid = Some timer →
       timer ∈ cleared (disconnectSession sid p)).
Proof.
  cbn zeta. rewrite disconnectSession_closed, disconnectSession_cleared.
  rewrite disconnectSession_world, disconnectSession_sockets,
    disconnectSession_timers.
  set (w := with_taskCounters _ _).
  assert (processed sid w = ∅) as Hp.
  { unfold processed, w. simpl. by rewrite lookup_delete_eq. }
  assert (taskCount sid w = 0%nat) as Hc.
  { unfold taskCount, w. simpl. by rewrite lookup_delete_eq. }
  split; [done|]. split; [done|]. split; [done|].
  split; [apply lookup_delete_eq|]. split; [apply lookup_delete_eq|].
  split; [|split].
  - destruct (extractTasks_single sid w tid "TaskCreate" input) as [Hv _]; [done| |].
    { unfold deduplicated. destruct tid as [t|]; [|done]. rewrite Hp.
      rewrite (bool_decide_eq_false_2 (t ∈ ∅)) by set_solver. apply andb_false_r. }
    rewrite (tasksOf_taskView sid _ _ Hv).
    destruct (applyTool_TaskCreate sid input w) as [-> _]. by rewrite Hc.
  - intros ws ->. set_solver.
  - intros timer ->. set_solver.
Qed.

Lemma disconnect_forgets_witness :
  let w := world (disconnectSession "s1" samplePage) in
  processed "s1" w = ∅
  ∧ tasksOf "s1" (extractTasksFromBlocks "s1"
                    [BToolUse (Some "toolu_1") (Some "TaskCreate")
                       (Some (sampleInput "Plan"))] w)
    = [createdTask 1 (sampleInput "Plan"); createdTask 1 (sampleInput "Plan")]
  ∧ 1%positive ∈ closed (disconnectSession "s1" samplePage).
Proof.
  cbn zeta.
  destruct (disconnect_forgets "s1" (Some "toolu_1") (sampleInput "Plan") samplePage)
    as (H1 & _ & _ & _ & _ & H6 & H7 & _).
  split; [exact H1|]. split.
  - rewrite H6. vm_compute. reflexivity.
  - apply H7. vm_compute. reflexivity.
Defined.

(** *** [disconnectAll] *)

Lemma disconnectSession_other sid sid' p :
  sid' ≠ sid →
  sockets (disconnectSession sid p) !! sid' = sockets p !! sid'
  ∧ reconnectTimers (disconnectSession sid p) !! sid' = reconnectTimers p !! sid'
  ∧ sessionView sid' (world (disconnectSession sid p)) = sessionView sid' (world p).
Proof.
  intros Hne. rewrite disconnectSession_world, disconnectSession_sockets,
    disconnectSession_timers.
  rewrite !lookup_delete_ne by done. repeat split.
  unfold sessionView, processed. simpl. by rewrite !lookup_delete_ne.
Qed.

Lemma disconnectSession_store sid p :
  store (world (disconnectSession sid p)) = store (world p).
Proof. by rewrite disconnectSession_world. Qed.

Lemma foldl_disconnect_other (ids : list string) sid' p :
  sid' ∉ ids →
  let p' := foldl (λ p id, disconnectSession id p) p ids in
  sockets p' !! sid' = sockets p !! sid'
  ∧ reconnectTimers p' !! sid' = reconnectTimers p !! sid'
  ∧ sessionView sid' (world p') = sessionView sid' (world p).
Proof.
  revert p. induction ids as [|id ids IH]; intros p Hnot; [done|].
  apply not_elem_of_cons in Hnot as [Hne Hnot]. cbn zeta. cbn [foldl].
  destruct (IH (disconnectSession id p) Hnot) as (-> & -> & ->).
  by apply disconnectSession_other.
Qed.

(** What [disconnectSession] deletes for a session. *)
Lemma disconnectSession_gone sid p :
  let p' := disconnectSession sid p in
  sockets p' !! sid = None
  ∧ reconnectTimers p' !! sid = None
  ∧ taskCounters (world p') !! sid = None
  ∧ processedToolUseIds (world p') !! sid = None.
Proof.
  cbn zeta. rewrite disconnectSession_world, disconnectSession_sockets,
    disconnectSession_timers. simpl. by rewrite !lookup_delete_eq.
Qed.

Lemma disconnectSession_stays_gone id sid p :
  sockets p !! sid = None
  ∧ reconnectTimers p !! sid = None
  ∧ taskCounters (world p) !! sid = None
  ∧ processedToolUseIds (world p) !! sid = None →
  let p' := disconnectSession id p in
  sockets p' !! sid = None
  ∧ reconnectTimers p' !! sid = None
  ∧ taskCounters (world p') !! sid = None
  ∧ processedToolUseIds (world p') !! sid = None.
Proof.
  intros (H1 & H2 & H3 & H4). cbn zeta.
  rewrite disconnectSession_world, disconnectSession_sockets, disconnectSession_timers.
  simpl. rewrite !lookup_delete_None. auto.
Qed.

Lemma foldl_disconnect_stays_gone (ids : list string) sid p :
  sockets p !! sid = None
  ∧ reconnectTimers p !! sid = None
  ∧ taskCounters (world p) !! sid = None
  ∧ processedToolUseIds (world p) !! sid = None →
  let p' := foldl (λ p id, disconnectSession id p) p ids in
  sockets p' !! sid = None
  ∧ reconnectTimers p' !! sid = None
  ∧ taskCounters (world p') !! sid = None
  ∧ processedToolUseIds (world p') !! sid = None.
Proof.
  revert p. induction ids as [|id ids IH]; intros p Hgone; [done|].
  cbn zeta. cbn [foldl]. by apply IH, disconnectSession_stays_gone.
Qed.

Lemma foldl_disconnect_visited (ids : list string) sid p :
  sid ∈ ids →
  let p' := foldl (λ p id, disconnectSession id p) p ids in
  sockets p' !! sid = None
  ∧ reconnectTimers p' !! sid = None
  ∧ taskCounters (world p') !! sid = None
  ∧ processedToolUseIds (world p') !! sid = None.
Proof.
  revert p. induction ids as [|id ids IH]; intros p Hin; [by apply elem_of_nil in Hin|].
  cbn zeta. cbn [foldl].
  destruct (decide (sid ∈ ids)) as [Hin'|Hnot]; [by apply IH|].
  apply elem_of_cons in Hin as [->|]; [|done].
  apply foldl_disconnect_stays_gone, disconnectSession_gone.
Qed.

(** X15. [disconnectAll] reaches the sessions that have a socket, and only
    those: afterwards no socket is registered and the store is as before;
    a session that had a socket has no reconnect timer, task counter or
    processed ids left, while a session without one (such as a session
    waiting to reconnect) keeps its timer, its counter and its processed
    ids. *)
Theorem disconnectAll_reach (p : Page) (sid : string) :
  sockets (disconnectAll p) = ∅
  ∧ store (world (disconnectAll p)) = store (world p)
  ∧ (is_Some (sockets p !! sid) →
     reconnectTimers (disconnectAll p) !! sid = None
     ∧ taskCounters (world (disconnectAll p)) !! sid = None
     ∧ processedToolUseIds (world (disconnectAll p)) !! sid = None)
  ∧ (sockets p !! sid = None →
     reconnectTimers (disconnectAll p) !! sid = reconnectTimers p !! sid
     ∧ sessionView sid (world (disconnectAll p)) = sessionView sid (world p)).
Proof.
  unfold disconnectAll. set (ids := (map_to_list (sockets p)).*1).
  assert (∀ s, s ∈ ids ↔ is_Some (sockets p !! s)) as Hids.
  { intros s. unfold ids. rewrite list_elem_of_fmap. split.
    - intros [[k v] [-> Hkv%elem_of_map_to_list]]. by exists v.
    - intros [v Hv]. exists (s, v). split; [done|]. by apply elem_of_map_to_list. }
  split; [|split; [|split]].
  - apply map_eq. intros s. rewrite lookup_empty.
    destruct (decide (s ∈ ids)) as [Hin|Hnot].
    + by destruct (foldl_disconnect_visited ids s p Hin) as [-> _].
    + destruct (foldl_disconnect_other ids s p Hnot) as [-> _].
      apply eq_None_not_Some. by rewrite <-Hids.
  - clear Hids. generalize ids. clear ids. intros ids. revert p.
    induction ids as [|id ids IH]; intros p; [done|].
    cbn [foldl]. by rewrite IH, disconnectSession_store.
  - intros Hs%Hids. by destruct (foldl_disconnect_visited ids sid p Hs) as (_ & ? & ? & ?).
  - intros Hnone. assert (sid ∉ ids) as Hnot.
    { rewrite Hids, Hnone. by intros [? ?]. }
    by destruct (foldl_disconnect_other ids sid p Hnot) as (_ & ? & ?).
Qed.

Lemma disconnectAll_reach_witness :
  sockets (disconnectAll samplePage) = ∅
  ∧ reconnectTimers (disconnectAll samplePage) !! "s1" = None
  ∧ processedToolUseIds (world (disconnectAll samplePage)) !! "s1" = None
  ∧ reconnectTimers (disconnectAll samplePage) !! "s2" = Some 5%positive
  ∧ processed "s2" (world (disconnectAll samplePage)) = {[ "toolu_7" ]}.
Proof.
  destruct (disconnectAll_reach samplePage "s1") as (Hs & _ & Hs1 & _).
  destruct (disconnectAll_reach samplePage "s2") as (_ & _ & _ & Hs2).
  destruct Hs1 as (Ht1 & _ & Hp1).
  { exists 1%positive. vm_compute. reflexivity. }
  destruct Hs2 as (Ht2 & Hv2).
  { vm_compute. reflexivity. }
  split; [exact Hs|]. split; [exact Ht1|]. split; [exact Hp1|]. split.
  - rewrite Ht2. vm_compute. reflexivity.
  - apply (f_equal snd) in Hv2. simpl in Hv2. unfold processed. rewrite Hv2.
    vm_compute. reflexivity.
Defined.

End ConnFacts.

(** ** One invocation, one task *)

Section DedupFacts.

Import Ws Obs WsObs Connections ConnObs.

(** *** Task derivation reads the task state only *)

Lemma applyTool_taskState sid name input w v :
  taskState w = taskState v →
  taskState (applyTool sid name input w) = taskState (applyTool sid name input v).
Proof.
  intros Hwv. pose proof Hwv as [= Ht Hk Hp]. unfold applyTool.
  case_bool_decide.
  { destruct (in_todos input); [|done].
    unfold taskState, Store.setTasks. simpl. by rewrite Ht, Hk, Hp. }
  case_bool_decide.
  { unfold taskState, Store.addTask. simpl. by rewrite Ht, Hk, Hp. }
  case_bool_decide; [|done]. destruct (truthy (in_taskId input)); [|done].
  unfold taskState, Store.updateTask. simpl. rewrite Ht, Hk, Hp.
  destruct (Store.sessionTasks (store v) !! sid); simpl; by rewrite ?Ht.
Qed.

Lemma extractBlock_taskState sid w v b :
  taskState w = taskState v →
  taskState (extractBlock sid w b) = taskState (extractBlock sid v b).
Proof.
  intros Hwv. pose proof Hwv as [= Ht Hk Hp]. unfold extractBlock.
  destruct b as [| |t [name|] [input|]|]; try done.
  case_bool_decide; [done|]. destruct t as [t|]; [|by apply applyTool_taskState].
  case_bool_decide; [by apply applyTool_taskState|].
  unfold processed. rewrite Hp. case_bool_decide; [done|].
  apply applyTool_taskState. unfold taskState. simpl. by rewrite Ht, Hk.
Qed.

Lemma foldl_extractBlock_taskState sid blocks w v :
  taskState w = taskState v →
  taskState (foldl (extractBlock sid) w blocks)
  = taskState (foldl (extractBlock sid) v blocks).
Proof.
  revert w v. induction blocks as [|b blocks IH]; intros w v Hwv; [done|].
  simpl. by apply IH, extractBlock_taskState.
Qed.

Lemma extractTasks_taskState sid blocks w v :
  taskState w = taskState v →
  taskState (extractTasksFromBlocks sid blocks w)
  = taskState (extractTasksFromBlocks sid blocks v).
Proof.
  intros Hwv. pose proof Hwv as [= Ht Hk Hp].
  unfold extractTasksFromBlocks, getProcessedSet. rewrite Hp.
  destruct (processedToolUseIds v !! sid); apply foldl_extractBlock_taskState; [done|].
  unfold taskState. simpl. by rewrite Ht, Hk.
Qed.

(** *** Blocks of a processed invocation, wherever they stand *)

Lemma processed_entry sid tid w :
  tid ∈ processed sid w → is_Some (processedToolUseIds w !! sid).
Proof. unfold processed. destruct (processedToolUseIds w !! sid); [eauto|set_solver]. Qed.

Lemma extractTasks_entry sid blocks w :
  is_Some (processedToolUseIds w !! sid) →
  extractTasksFromBlocks sid blocks w = foldl (extractBlock sid) w blocks.
Proof. intros [set Hp]. unfold extractTasksFromBlocks, getProcessedSet. by rewrite Hp. Qed.

Lemma foldl_extractBlock_filter sid tid blocks w :
  tid ≠ "" → tid ∈ processed sid w →
  foldl (extractBlock sid) w (filter (λ b, invocationId b ≠ Some tid) blocks)
  = foldl (extractBlock sid) w blocks.
Proof.
  intros Hne. revert w. induction blocks as [|b blocks IH]; intros w Hin; [done|].
  rewrite filter_cons. destruct (decide (invocationId b ≠ Some tid)) as [Hb|Hb]; simpl.
  - apply IH. by apply (processed_extractBlock_mono sid w b).
  - apply dec_stable in Hb. destruct b as [| |t name input|]; try done.
    simpl in Hb. subst t. rewrite extractBlock_processed by done. by apply IH.
Qed.

Lemma extractTasks_filter sid tid blocks w :
  tid ≠ "" → tid ∈ processed sid w →
  extractTasksFromBlocks sid (filter (λ b, invocationId b ≠ Some tid) blocks) w
  = extractTasksFromBlocks sid blocks w.
Proof.
  intros Hne Hin. rewrite !extractTasks_entry by (by eapply processed_entry).
  by apply foldl_extractBlock_filter.
Qed.

Lemma foldl_extractBlock_idle sid blocks w :
  Forall (λ b, actedOn b = None) blocks → foldl (extractBlock sid) w blocks = w.
Proof.
  induction 1 as [|b blocks Hb _ IH]; [done|].
  simpl. by rewrite extractBlock_not_actedOn.
Qed.

(** A [TaskCreate] block with a new invocation id among blocks that the
    loop does not act on. *)
Lemma extractTasks_TaskCreate_among sid w tid input pre post :
  tid ≠ "" → tid ∉ processed sid w →
  Forall (λ b, actedOn b = None) (pre ++ post) →
  tasksOf sid (extractTasksFromBlocks sid
                 (pre ++ BToolUse (Some tid) (Some "TaskCreate") (Some input) :: post) w)
  = tasksOf sid w ++ [createdTask (taskCount sid w + 1) input].
Proof.
  intros Hne Hfresh [Hpre Hpost]%Forall_app.
  destruct (extractTasks_TaskCreate_fresh sid w tid input Hne Hfresh) as [Hadd _].
  unfold taskCount. rewrite <- Hadd.
  f_equal. unfold extractTasksFromBlocks.
  destruct (getProcessedSet sid w) as [set w0].
  rewrite foldl_app. cbn [foldl].
  by rewrite (foldl_extractBlock_idle sid pre), (foldl_extractBlock_idle sid post).
Qed.

(** *** What happens on the page between two frames *)

Section Frames.

Variable JSON_parse : string → Completion BrowserIncomingMessage.
Variable generateUniqueSessionName : list string → string.

Abbreviation handle := (handleMessage JSON_parse generateUniqueSessionName).
Abbreviation stepOf := (pageStep JSON_parse generateUniqueSessionName).
Abbreviation runOf := (pageRun JSON_parse generateUniqueSessionName).

Lemma pageStep_keeps sid tid p e :
  shaped JSON_parse e → keeps sid e → tid ∈ processed sid (world p) →
  ∃ p', stepOf p e = Normal p' ∧ tid ∈ processed sid (world p').
Proof.
  intros Hshaped Hkeeps Hin. destruct e as [s now data|s|]; simpl in *; [| |done].
  - destruct Hshaped as [frame Hparse]. destruct (decide (s = sid)) as [->|Hs].
    + destruct (handle now sid data (world p)) as [w'|] eqn:Hw'.
      * eexists. split; [done|]. simpl.
        by apply (proj2 (handle_grows JSON_parse generateUniqueSessionName
                           now sid data (world p) w' Hw')).
      * unfold handleMessage in Hw'. by rewrite Hparse in Hw'.
    + destruct (handle_sessionView JSON_parse generateUniqueSessionName
                  now s sid data frame (world p) Hparse) as (w' & -> & Hview);
        [done|].
      eexists. split; [done|]. simpl.
      apply (f_equal snd) in Hview. simpl in Hview. unfold processed. rewrite Hview.
      by destruct frame.
  - eexists. split; [done|]. rewrite disconnectSession_world.
    unfold processed in *. simpl. by rewrite lookup_delete_ne.
Qed.

Lemma pageRun_keeps sid tid evs p :
  Forall (shaped JSON_parse) evs → Forall (keeps sid) evs →
  tid ∈ processed sid (world p) →
  ∃ p', runOf p evs = Normal p' ∧ tid ∈ processed sid (world p').
Proof.
  revert p. induction evs as [|e evs IH]; intros p Hshaped Hkeeps Hin; simpl; [eauto|].
  apply Forall_cons in Hshaped as [He Hshaped]. apply Forall_cons in Hkeeps as [Hk Hkeeps].
  destruct (pageStep_keeps sid tid p e He Hk Hin) as (p1 & -> & Hin1). by apply IH.
Qed.


End Frames.



End DedupFacts.

(** ** The recovery paths, whatever happens *)

Section RecoveryFacts.

Import Server ServerObs RecoveryObs.
Implicit Types (st : State) (sid s : string) (l : gmap string SdkSessionInfo).

(** *** Spacing of the callback's relaunches *)

Lemma elem_of_callsBy p sid st c :
  c ∈ callsBy p sid st ↔ c ∈ relaunchCalls st ∧ call_path c = p ∧ call_sid c = sid.
Proof. unfold callsBy. rewrite list_elem_of_filter. naive_solver. Qed.

Lemma spaced_snoc (cs : list RelaunchCall) c' :
  spaced cs →
  (∀ c, c ∈ cs → (call_time c + RELAUNCH_COOLDOWN_MS ≤ call_time c')%N) →
  spaced (cs ++ [c']).
Proof.
  intros Hsp Hlast i c1 c2 H1 H2.
  apply lookup_app_Some in H2 as [H2|[Hlen H2]].
  - apply (Hsp i c1 c2); [|done].
    apply lookup_app_Some in H1 as [H1|[Hlen _]]; [done|].
    apply lookup_lt_Some in H2. lia.
  - apply list_lookup_singleton_Some in H2 as [Hi <-].
    apply Hlast. apply lookup_app_Some in H1 as [H1|[Hlen' _]]; [|lia].
    by eapply list_elem_of_lookup_2.
Qed.

Lemma calls_past_watchdogLoop rest st :
  (∀ c, c ∈ relaunchCalls st → (call_time c ≤ now st)%N) →
  ∀ c, c ∈ relaunchCalls (watchdogLoop rest st) →
    (call_time c ≤ now (watchdogLoop rest st))%N.
Proof.
  intros Hpast. induction rest as [|s rest IH]; simpl; [done|].
  destruct (isArchived s (launcher st)); [done|].
  simpl. intros c [Hc|Hc%list_elem_of_singleton]%elem_of_app; [by apply Hpast|].
  subst c. simpl. lia.
Qed.

Lemma calls_past_runTimer cb st :
  (∀ c, c ∈ relaunchCalls st → (call_time c ≤ now st)%N) →
  ∀ c, c ∈ relaunchCalls (runTimer cb st) → (call_time c ≤ now (runTimer cb st))%N.
Proof. destruct cb; [done|]. apply calls_past_watchdogLoop. Qed.

Lemma calls_past_advance t st :
  (∀ c, c ∈ relaunchCalls st → (call_time c ≤ now st)%N) →
  ∀ c, c ∈ relaunchCalls (advance t st) → (call_time c ≤ now (advance t st))%N.
Proof.
  intros Hpast. unfold advance.
  apply (foldl_runTimer_ind
           (λ st', ∀ c, c ∈ relaunchCalls st' → (call_time c ≤ now st')%N)).
  - simpl. intros c Hc. specialize (Hpast c Hc). lia.
  - intros cb st'. apply calls_past_runTimer.
Qed.

Lemma throttled_boot sid l : throttled sid (boot l).
Proof.
  split; [apply guarded_boot|]. unfold boot, callsBy, spaced. simpl.
  repeat split; intros; by set_solver.
Qed.

Lemma throttled_step sid st e : throttled sid st → throttled sid (step st e).
Proof.
  intros (Hg & Hpast & Hsp & Hfree & Hdue).
  split; [by apply guarded_step|].
  destruct e as [s|s|s|ok|t|s b|s]; simpl.
  - done.
  - unfold relaunchNeeded, getSession. case_bool_decide as Hs; [done|].
    destruct (launcher st !! s) as [i|]; [|done].
    destruct (archived i); [done|]. case_bool_decide; [|done].
    set (st1 := with_relaunchingSet ({[s]} ∪ relaunchingSet st) st).
    change (with_inflight _ _)
      with (with_inflight ({[s]} ∪ inflight st) (relaunch OnDemand s st1)).
    assert (callsBy OnDemand sid
              (with_inflight ({[s]} ∪ inflight st) (relaunch OnDemand s st1))
            = callsBy OnDemand sid (relaunch OnDemand s st1)) as -> by done.
    rewrite callsBy_relaunch. simpl.
    split; [|split; [|split]].
    + intros c [Hc|Hc%list_elem_of_singleton]%elem_of_app; [by apply Hpast|].
      subst c. simpl. lia.
    + destruct (decide (OnDemand = OnDemand ∧ s = sid)) as [[_ ->]|Hne].
      * apply spaced_snoc; [done|]. intros c Hc. simpl. by apply Hfree.
      * by rewrite app_nil_r.
    + intros Hnot c Hc. destruct (decide (OnDemand = OnDemand ∧ s = sid)) as [[_ ->]|Hne].
      * set_solver.
      * rewrite app_nil_r in Hc. apply Hfree; [set_solver|done].
    + intros d c Hd Hc. destruct (decide (OnDemand = OnDemand ∧ s = sid)) as [[_ ->]|Hne].
      * exfalso. apply Hs. destruct Hg as (_ & Hcl & _). apply Hcl, elem_of_clears. eauto.
      * rewrite app_nil_r in Hc. by apply (Hdue d c).
  - unfold relaunchSettled. case_bool_decide as Hs; [|done].
    simpl. split; [done|]. split; [done|]. split; [intros; apply Hfree; set_solver|].
    intros d c [[= -> ->]|Hd]%elem_of_addTimer Hc; [|by apply (Hdue d c)].
    assert (call_time c ≤ now st)%N; [|lia].
    apply Hpast. by apply elem_of_callsBy in Hc as [? _].
  - rewrite callsBy_OnDemand_watchdogResumed.
    destruct (watchdogResumed_frame ok st) as (-> & -> & Hnow & _).
    split; [|split; [done|by rewrite Hnow]].
    unfold watchdogResumed. destruct (watchdog st) as [rest|]; [|done].
    destruct ok; [by apply calls_past_watchdogLoop|done].
  - rewrite callsBy_OnDemand_advance.
    split; [by apply calls_past_advance|]. split; [done|].
    unfold advance.
    match goal with
    | |- context [foldl ?f ?a ?b] =>
        destruct (foldl_runTimer_frame b a) as (-> & -> & -> & _)
    end. simpl. split.
    + intros Hnot c Hc.
      destruct (decide (sid ∈ relaunchingSet st)) as [Hin|Hout].
      * assert (sid ∈ clears (filter (λ x, (x.1 ≤ t)%N) (timers st))) as Hcl.
        { apply dec_stable. intros Hn. apply Hnot, elem_of_difference.
          split; [done|]. by rewrite elem_of_list_to_set. }
        apply elem_of_clears in Hcl as [d [Hle Hd]%list_elem_of_filter]. simpl in Hle.
        specialize (Hdue d c Hd Hc). lia.
      * specialize (Hfree Hout c Hc). lia.
    + intros d c [_ Hd]%list_elem_of_filter Hc. by apply (Hdue d c).
  - done.
  - done.
Qed.

Lemma throttled_run sid st evs : throttled sid st → throttled sid (run st evs).
Proof.
  revert st. induction evs as [|e evs IH]; intros st Hth; [done|].
  apply IH. by apply throttled_step.
Qed.

(** X16. Whatever happens to the server after boot, two successive relaunches
    of a session by the on-demand callback are at least 5000 ms apart, and
    no call lies in the future. *)
Theorem on_demand_relaunches_spaced (l : gmap string SdkSessionInfo) (evs : list Event)
    (sid : string) :
  let st := run (boot l) evs in
  (∀ i c1 c2,
     callsBy OnDemand sid st !! i = Some c1 →
     callsBy OnDemand sid st !! S i = Some c2 →
     (call_time c1 + RELAUNCH_COOLDOWN_MS ≤ call_time c2)%N)
  ∧ (∀ c, c ∈ relaunchCalls st → (call_time c ≤ now st)%N).
Proof.
  destruct (throttled_run sid (boot l) evs (throttled_boot sid l))
    as (_ & Hpast & Hsp & _).
  by split.
Qed.

Lemma on_demand_relaunches_spaced_witness :
  let st := run (boot oneExited)
              [RelaunchNeeded "s1"; CliOpen "s1"; RelaunchSettled "s1"; Advance 5000;
               RelaunchNeeded "s1"] in
  callsBy OnDemand "s1" st
  = [{| call_path := OnDemand; call_sid := "s1"; call_time := 0 |};
     {| call_path := OnDemand; call_sid := "s1"; call_time := 5000 |}]
  ∧ (0 + RELAUNCH_COOLDOWN_MS ≤ 5000)%N.
Proof.
  split; [vm_compute; reflexivity|].
  apply (proj1 (on_demand_relaunches_spaced oneExited
                  [RelaunchNeeded "s1"; CliOpen "s1"; RelaunchSettled "s1"; Advance 5000;
                   RelaunchNeeded "s1"] "s1")
           0%nat
           {| call_path := OnDemand; call_sid := "s1"; call_time := 0 |}
           {| call_path := OnDemand; call_sid := "s1"; call_time := 5000 |});
    vm_compute; reflexivity.
Defined.

(** *** The end of the cooldown *)

Lemma settled_step sid T st e :
  settled sid T st → e ≠ RelaunchNeeded sid → settled sid T (step st e).
Proof.
  intros (Hg & Hfl & Hcase) He.
  split; [by apply guarded_step|].
  destruct e as [s|s|s|ok|t|s b|s]; simpl.
  - done.
  - assert (s ≠ sid) as Hne by congruence.
    unfold relaunchNeeded, getSession. case_bool_decide as Hs; [done|].
    destruct (launcher st !! s) as [i|]; [|done].
    destruct (archived i); [done|]. case_bool_decide; [|done].
    simpl. split; [set_solver|]. destruct Hcase as [(? & ? & ?)|[? ?]]; [left|right].
    + split; [set_solver|done].
    + split; [set_solver|done].
  - unfold relaunchSettled. case_bool_decide as Hs; [|done].
    assert (s ≠ sid) as Hne by (intros ->; done).
    simpl. split; [set_solver|].
    destruct Hcase as [(Hin & HT & Hall)|[Hout Hnc]]; [left|right].
    + split; [done|]. split; [apply elem_of_addTimer; by right|].
      intros d [[= ? ?]|Hd]%elem_of_addTimer; [done|by apply Hall].
    + split; [done|]. rewrite clears_addTimer. set_solver.
  - by destruct (watchdogResumed_frame ok st) as (-> & -> & _ & ->).
  - unfold advance.
    match goal with
    | |- context [foldl ?f ?a ?b] =>
        destruct (foldl_runTimer_frame b a) as (-> & -> & _ & ->)
    end. simpl. split; [done|].
    destruct Hcase as [(Hin & HT & Hall)|[Hout Hnc]].
    + destruct (decide (T ≤ t)%N) as [Hle|Hgt].
      * right. split.
        -- intros [_ Hn]%elem_of_difference. apply Hn.
           rewrite elem_of_list_to_set. apply elem_of_clears. exists T.
           by apply list_elem_of_filter.
        -- intros [d [Hn Hd]%list_elem_of_filter]%elem_of_clears. simpl in Hn.
           apply Hall in Hd as ->. done.
      * left. split; [|split].
        -- apply elem_of_difference. split; [done|].
           rewrite elem_of_list_to_set.
           intros [d [Hle Hd]%list_elem_of_filter]%elem_of_clears. simpl in Hle.
           apply Hall in Hd as ->. done.
        -- by apply list_elem_of_filter.
        -- intros d [_ Hd]%list_elem_of_filter. by apply Hall.
    + right. split; [set_solver|].
      intros [d [_ Hd]%list_elem_of_filter]%elem_of_clears.
      apply Hnc, elem_of_clears. eauto.
  - done.
  - done.
Qed.

Lemma settled_run sid T st evs :
  settled sid T st → RelaunchNeeded sid ∉ evs → settled sid T (run st evs).
Proof.
  revert st. induction evs as [|e evs IH]; intros st Hs Hevs; [done|].
  apply not_elem_of_cons in Hevs as [He Hevs].
  apply IH; [|done]. by apply settled_step.
Qed.

Lemma settled_advance sid T t st :
  settled sid T st → (T ≤ t)%N →
  (sid ∉ relaunchingSet (advance t st))
  ∧ (sid ∉ inflight (advance t st))
  ∧ (sid ∉ clears (timers (advance t st))).
Proof.
  intros (Hg & Hfl & Hcase) Hle. unfold advance.
  match goal with
  | |- context [foldl ?f ?a ?b] =>
      destruct (foldl_runTimer_frame b a) as (-> & -> & _ & ->)
  end. simpl. split; [|split; [done|]].
  - destruct Hcase as [(Hin & HT & Hall)|[Hout Hnc]]; [|set_solver].
    intros [_ Hn]%elem_of_difference. apply Hn.
    rewrite elem_of_list_to_set. apply elem_of_clears. exists T.
    by apply list_elem_of_filter.
  - intros [d [Hn Hd]%list_elem_of_filter]%elem_of_clears. simpl in Hn.
    destruct Hcase as [(Hin & HT & Hall)|[Hout Hnc]].
    + apply Hall in Hd as ->. done.
    + apply Hnc, elem_of_clears. eauto.
Qed.

(** X17. The guard is released: when the relaunch that the callback awaits
    settles, the guard of the session is dropped as soon as the clock has
    advanced by 5000 ms, whatever else happens meanwhile, provided that no
    relaunch-needed event for the session arrives in between; a
    relaunch-needed event for the session, known, not archived and not
    [starting], then makes a new call of [launcher.relaunch]. *)
Theorem guard_released (l : gmap string SdkSessionInfo) (evs0 evs : list Event)
    (sid : string) (t : N) :
  let st0 := run (boot l) evs0 in
  let st1 := step st0 (RelaunchSettled sid) in
  let st2 := step (run st1 evs) (Advance t) in
  sid ∈ inflight st0 →
  RelaunchNeeded sid ∉ evs →
  (now st0 + RELAUNCH_COOLDOWN_MS ≤ t)%N →
  (sid ∉ relaunchingSet st2)
  ∧ (sid ∉ inflight st2)
  ∧ (sid ∉ clears (timers st2))
  ∧ ∀ info, getSession sid (launcher st2) = Some info →
      archived info = false → state info ≠ starting →
      callsBy OnDemand sid (step st2 (RelaunchNeeded sid))
      = callsBy OnDemand sid st2
        ++ [{| call_path := OnDemand; call_sid := sid; call_time := now st2 |}].
Proof.
  intros st0 st1 st2 Hfl Hevs Ht.
  assert (guarded st0) as Hg0 by apply guarded_run, guarded_boot.
  assert (settled sid (now st0 + RELAUNCH_COOLDOWN_MS) st1) as Hs1.
  { split; [by apply guarded_step|].
    destruct Hg0 as (Hin & _ & _). destruct (Hin sid Hfl) as [Hset Hnc].
    unfold st1. simpl. unfold relaunchSettled. rewrite bool_decide_eq_true_2 by done.
    simpl. split; [set_solver|]. left. split; [done|].
    split; [apply elem_of_addTimer; by left|].
    intros d [[= ->]|Hd]%elem_of_addTimer; [done|].
    exfalso. apply Hnc, elem_of_clears. eauto. }
  pose proof (settled_run sid _ st1 evs Hs1 Hevs) as Hs2.
  destruct (settled_advance sid _ t _ Hs2 Ht) as (Hset & Hin & Hcl).
  split; [done|]. split; [done|]. split; [done|].
  intros info Hinfo Harch Hstate. simpl. unfold relaunchNeeded.
  rewrite bool_decide_eq_false_2 by done. rewrite Hinfo, Harch.
  rewrite bool_decide_eq_true_2 by done.
  change (callsBy OnDemand sid
            (relaunch OnDemand sid (with_relaunchingSet ({[sid]} ∪ relaunchingSet st2) st2))
          = callsBy OnDemand sid st2
            ++ [{| call_path := OnDemand; call_sid := sid; call_time := now st2 |}]).
  rewrite callsBy_relaunch. by rewrite decide_True.
Qed.

Lemma guard_released_witness :
  let st0 := run (boot oneExited) [Advance 100; RelaunchNeeded "s1"; Advance 3000] in
  let st1 := step st0 (RelaunchSettled "s1") in
  let st2 := step (run st1 [Advance 7999]) (Advance 8000) in
  ("s1" ∉ relaunchingSet st2)
  ∧ ("s1" ∉ inflight st2)
  ∧ ("s1" ∉ clears (timers st2))
  ∧ ∀ info, getSession "s1" (launcher st2) = Some info →
      archived info = false → state info ≠ starting →
      callsBy OnDemand "s1" (step st2 (RelaunchNeeded "s1"))
      = callsBy OnDemand "s1" st2
        ++ [{| call_path := OnDemand; call_sid := "s1"; call_time := now st2 |}].
Proof.
  refine (guard_released oneExited [Advance 100; RelaunchNeeded "s1"; Advance 3000]
            [Advance 7999] "s1" 8000%N _ _ _).
  - compute_done.
  - compute_done.
  - vm_compute. discriminate.
Defined.

(** *** The watchdog, whatever happens *)

Lemma callsBy_Boot_relaunch_OnDemand s sid st :
  callsBy BootWatchdog sid (relaunch OnDemand s st) = callsBy BootWatchdog sid st.
Proof. rewrite callsBy_relaunch, decide_False, app_nil_r; [done|]. by intros [? _]. Qed.

Lemma watchdogLoop_inv rest st :
  (RECONNECT_GRACE_MS ≤ now st)%N →
  NoDup rest →
  (∀ s, s ∈ rest → callsBy BootWatchdog s st = []) →
  (∀ c, c ∈ relaunchCalls st → call_path c = BootWatchdog →
     (RECONNECT_GRACE_MS ≤ call_time c)%N) →
  (∀ s, (length (callsBy BootWatchdog s st) ≤ 1)%nat) →
  let st' := watchdogLoop rest st in
  (∀ rest', watchdog st' = Some rest' →
     (RECONNECT_GRACE_MS ≤ now st')%N
     ∧ NoDup rest'
     ∧ ∀ s, s ∈ rest' → callsBy BootWatchdog s st' = [])
  ∧ (∀ c, c ∈ relaunchCalls st' → call_path c = BootWatchdog →
       (RECONNECT_GRACE_MS ≤ call_time c)%N)
  ∧ (∀ s, (length (callsBy BootWatchdog s st') ≤ 1)%nat).
Proof.
  intros Hnow Hnd Hnone HC HD. induction rest as [|s rest IH]; cbn zeta; simpl.
  { done. }
  apply NoDup_cons in Hnd as [Hs Hnd].
  destruct (isArchived s (launcher st)).
  { apply IH; [done|]. intros x Hx. apply Hnone. by right. }
  split; [|split].
  - intros rest' [= <-]. split; [done|]. split; [done|].
    intros x Hx.
    change (callsBy BootWatchdog x (relaunch BootWatchdog s st) = []).
    rewrite callsBy_relaunch, decide_False, app_nil_r; [apply Hnone; by right|].
    intros [_ ->]. done.
  - simpl. intros c [Hc|Hc%list_elem_of_singleton]%elem_of_app Hp; [by apply HC|].
    by subst c.
  - intros x.
    change (length (callsBy BootWatchdog x (relaunch BootWatchdog s st)) ≤ 1)%nat.
    rewrite callsBy_relaunch. destruct (decide (BootWatchdog = BootWatchdog ∧ s = x)) as [[_ <-]|].
    + rewrite (Hnone s) by left. simpl. lia.
    + rewrite app_nil_r. apply HD.
Qed.

Lemma watchdogInv_boot l : watchdogInv (boot l).
Proof.
  unfold watchdogInv, boot, callsBy. simpl. split; [|by repeat split; intros; set_solver].
  destruct (getStartingSessions l); [done|]. simpl.
  repeat split; intros; set_solver.
Qed.

Lemma watchdogInv_advance t st : watchdogInv st → watchdogInv (advance t st).
Proof.
  intros (HA & HB & HC & HD). unfold advance.
  set (due := filter (λ x, (x.1 ≤ t)%N) (timers st)).
  set (rest := filter (λ x, ¬ (x.1 ≤ t)%N) (timers st)).
  set (a0 := with_now (N.max (now st) t) (with_timers rest st)).
  assert (watchdogTimers due = filter (λ x, (x.1 ≤ t)%N) (watchdogTimers (timers st)))
    as Hdue by apply watchdogTimers_filter.
  assert (watchdogTimers rest = filter (λ x, ¬ (x.1 ≤ t)%N) (watchdogTimers (timers st)))
    as Hrest by apply watchdogTimers_filter.
  destruct (foldl_runTimer_frame due a0) as (_ & Htm & Hnw & _).
  destruct (watchdogTimers due) as [|x xs] eqn:Hwd.
  - (* no watchdog timer is due *)
    destruct (foldl_runTimer_no_watchdog due a0 Hwd) as (_ & Hw & Hcalls).
    unfold watchdogInv, callsBy. rewrite Htm, Hnw, Hw, Hcalls. simpl.
    split; [|split; [|split; [done|apply HD]]].
    + rewrite Hrest. destruct (watchdogTimers (timers st)) as [|y ys]; [done|].
      destruct HA as (-> & ? & ?). rewrite filter_cons, filter_nil.
      case_decide; [done|]. simpl. done.
    + intros rest' Hr. destruct (HB rest' Hr) as (? & ? & ?). split; [lia|done].
  - (* the watchdog timer is due *)
    destruct (watchdogTimers (timers st)) as [|y ys] eqn:Hall.
    { by rewrite filter_nil in Hdue. }
    destruct HA as (Heq & Hnone & Hod). injection Heq as -> ->.
    rewrite filter_cons, filter_nil in Hdue, Hrest. simpl in Hdue, Hrest.
    destruct (decide (RECONNECT_GRACE_MS ≤ t)%N) as [Hle|Hgt].
    2:{ done. }
    injection Hdue as -> ->.
    rewrite decide_False in Hrest by (by intros ?).
    destruct (filter_singleton_split _ due _ Hwd) as (pre & post & Hsplit & Hpre & Hpost).
    rewrite Hsplit, foldl_app in *. cbn [foldl] in *.
    destruct (foldl_runTimer_no_watchdog pre a0 Hpre) as (_ & Hw1 & Hc1).
    destruct (foldl_runTimer_frame pre a0) as (_ & _ & Hn1 & _).
    set (a1 := foldl (λ st x, runTimer x.2 st) a0 pre) in *.
    pose proof (foldl_runTimer_no_watchdog post
                  (runTimer (RECONNECT_GRACE_MS, Watchdog).2 a1) Hpost) as (_ & Hw2 & Hc2).
    set (a2 := runTimer (RECONNECT_GRACE_MS, Watchdog).2 a1) in *.
    destruct (watchdogLoop_inv (getStartingSessions (launcher a1)) a1) as (HB' & HC' & HD').
    + rewrite Hn1. simpl. lia.
    + apply NoDup_getStartingSessions.
    + intros s _. unfold callsBy. rewrite Hc1. simpl. apply filter_none.
      intros c Hc [Hp _]. by rewrite (Hod c Hc) in Hp.
    + intros c Hc Hp. rewrite Hc1 in Hc. simpl in Hc. by rewrite (Hod c Hc) in Hp.
    + intros s. unfold callsBy. rewrite Hc1. simpl. apply HD.
    + unfold watchdogInv, callsBy. rewrite Htm, Hnw, Hw2, Hc2. simpl.
      rewrite Hrest. split; [done|]. split; [|split; [done|apply HD']].
      intros rest' Hr. destruct (HB' rest' Hr) as (Hn & ? & ?).
      split; [|done].
      destruct (watchdogLoop_frame (getStartingSessions (launcher a1)) a1)
        as (_ & _ & Hn2 & _).
      rewrite Hn2, Hn1 in Hn. done.
Qed.

Lemma watchdogInv_step st e : watchdogInv st → watchdogInv (step st e).
Proof.
  intros Hinv. destruct e as [s|s|s|ok|t|s b|s]; simpl.
  - done.
  - pose proof Hinv as (HA & HB & HC & HD).
    unfold relaunchNeeded, getSession. case_bool_decide as Hs; [done|].
    destruct (launcher st !! s) as [i|]; [|done].
    destruct (archived i); [done|]. case_bool_decide; [|done].
    set (st1 := with_relaunchingSet ({[s]} ∪ relaunchingSet st) st).
    assert (∀ x, callsBy BootWatchdog x
                   (with_inflight ({[s]} ∪ inflight st) (relaunch OnDemand s st1))
                 = callsBy BootWatchdog x st) as Hcb.
    { intros x.
      change (callsBy BootWatchdog x (relaunch OnDemand s st1) = callsBy BootWatchdog x st).
      by rewrite callsBy_Boot_relaunch_OnDemand. }
    unfold watchdogInv. split; [|split; [|split]].
    + simpl. destruct (watchdogTimers (timers st)); [done|].
      destruct HA as (? & ? & Hod). repeat split; try done.
      intros c [Hc|Hc%list_elem_of_singleton]%elem_of_app; [by apply Hod|by subst c].
    + intros rest Hr. destruct (HB rest Hr) as (? & ? & Hn). repeat split; try done.
      intros x Hx. rewrite Hcb. by apply Hn.
    + simpl. intros c [Hc|Hc%list_elem_of_singleton]%elem_of_app Hp; [by apply HC|].
      by subst c.
    + intros x. rewrite Hcb. apply HD.
  - pose proof Hinv as (HA & HB & HC & HD).
    unfold relaunchSettled. case_bool_decide as Hs; [|done].
    unfold watchdogInv, callsBy. simpl. by rewrite watchdogTimers_addTimer.
  - unfold watchdogResumed. destruct (watchdog st) as [rest|] eqn:Hw; [|done].
    destruct Hinv as (HA & HB & HC & HD).
    assert (watchdogTimers (timers st) = []) as Hnone'.
    { destruct (watchdogTimers (timers st)); [done|].
      destruct HA as (_ & Hnw & _). by rewrite Hnw in Hw. }
    destruct ok.
    + destruct (HB rest Hw) as (Hn & Hnd & Hnone).
      destruct (watchdogLoop_inv rest st Hn Hnd Hnone HC HD) as (HB' & HC' & HD').
      split; [|done].
      destruct (watchdogLoop_frame rest st) as (_ & -> & _ & _).
      by rewrite Hnone'.
    + unfold watchdogInv, callsBy. simpl. rewrite Hnone'. by repeat split.
  - by apply watchdogInv_advance.
  - done.
  - done.
Qed.

Lemma watchdogInv_run st evs : watchdogInv st → watchdogInv (run st evs).
Proof.
  revert st. induction evs as [|e evs IH]; intros st Hinv; [done|].
  apply IH. by apply watchdogInv_step.
Qed.

Lemma unarmed_step st e : unarmed st → unarmed (step st e).
Proof.
  intros (Ht & Hw & Hod). destruct e as [s|s|s|ok|t|s b|s]; simpl.
  - done.
  - unfold relaunchNeeded, getSession. case_bool_decide as Hs; [done|].
    destruct (launcher st !! s) as [i|]; [|done].
    destruct (archived i); [done|]. case_bool_decide; [|done].
    unfold unarmed. simpl. repeat split; try done.
    intros c [Hc|Hc%list_elem_of_singleton]%elem_of_app; [by apply Hod|by subst c].
  - unfold relaunchSettled. case_bool_decide as Hs; [|done].
    unfold unarmed. simpl. by rewrite watchdogTimers_addTimer.
  - unfold watchdogResumed. by rewrite Hw.
  - unfold advance.
    set (due := filter (λ x, (x.1 ≤ t)%N) (timers st)).
    set (rest := filter (λ x, ¬ (x.1 ≤ t)%N) (timers st)).
    set (a0 := with_now (N.max (now st) t) (with_timers rest st)).
    assert (watchdogTimers due = []) as Hdue.
    { unfold due. by rewrite watchdogTimers_filter, Ht. }
    destruct (foldl_runTimer_no_watchdog due a0 Hdue) as (_ & Hw' & Hc').
    destruct (foldl_runTimer_frame due a0) as (_ & Htm & _ & _).
    unfold unarmed. rewrite Htm, Hw', Hc'. simpl.
    unfold rest. by rewrite watchdogTimers_filter, Ht.
  - done.
  - done.
Qed.

Lemma unarmed_run st evs : unarmed st → unarmed (run st evs).
Proof.
  revert st. induction evs as [|e evs IH]; intros st Hinv; [done|].
  apply IH. by apply unarmed_step.
Qed.

(** X18. Whatever happens to the server after boot, the watchdog relaunches a
    session at most once and never before the grace period of 10000 ms is
    over; when no session was [starting] at boot it never relaunches
    anything. *)
Theorem watchdog_bounds (l : gmap string SdkSessionInfo) (evs : list Event) :
  let st := run (boot l) evs in
  (∀ c, c ∈ relaunchCalls st → call_path c = BootWatchdog →
     (RECONNECT_GRACE_MS ≤ call_time c)%N)
  ∧ (∀ sid, (length (callsBy BootWatchdog sid st) ≤ 1)%nat)
  ∧ (getStartingSessions l = [] →
     ∀ c, c ∈ relaunchCalls st → call_path c = OnDemand).
Proof.
  cbn zeta.
  destruct (watchdogInv_run (boot l) evs (watchdogInv_boot l)) as (_ & _ & HC & HD).
  split; [done|]. split; [done|].
  intros Hnone. apply (unarmed_run (boot l) evs).
  unfold unarmed, boot. simpl. rewrite Hnone. repeat split. intros c Hc. set_solver.
Qed.

Lemma watchdog_bounds_witness :
  let st := run (boot restored) [Advance 10000; WatchdogResumed true; Advance 20000] in
  (length (callsBy BootWatchdog "s1" st) ≤ 1)%nat
  ∧ ∀ c, c ∈ relaunchCalls (run (boot oneExited) [RelaunchNeeded "s1"; Advance 10000]) →
      call_path c = OnDemand.
Proof.
  split.
  - apply (proj1 (proj2 (watchdog_bounds restored
                           [Advance 10000; WatchdogResumed true; Advance 20000]))).
  - apply (proj2 (proj2 (watchdog_bounds oneExited [RelaunchNeeded "s1"; Advance 10000]))).
    vm_compute. reflexivity.
Defined.

End RecoveryFacts.

(** ** The grace window and the relaunch window *)

Section WindowFacts.

Import Server ServerObs RecoveryObs.
Implicit Types (st : State) (sid s : string) (l : gmap string SdkSessionInfo).

(** *** Calls by path *)

Lemma callsFor_length sid st :
  length (callsFor sid st)
  = (length (callsBy OnDemand sid st) + length (callsBy BootWatchdog sid st))%nat.
Proof.
  unfold callsFor, callsBy. induction (relaunchCalls st) as [|c cs IH]; [done|].
  rewrite !filter_cons.
  destruct (decide (call_sid c = sid)) as [Hs|Hs], (call_path c) eqn:Hp.
  - rewrite decide_True, decide_False by naive_solver. simpl. lia.
  - rewrite decide_False, decide_True by naive_solver. simpl. lia.
  - rewrite !decide_False by naive_solver. done.
  - rewrite !decide_False by naive_solver. done.
Qed.

Lemma callsFor_no_OnDemand sid st :
  callsBy OnDemand sid st = [] → callsFor sid st = callsBy BootWatchdog sid st.
Proof.
  unfold callsFor, callsBy. induction (relaunchCalls st) as [|c cs IH]; [done|].
  rewrite !filter_cons.
  destruct (decide (call_sid c = sid)) as [Hs|Hs], (call_path c) eqn:Hp.
  - by rewrite decide_True by naive_solver.
  - rewrite decide_False, decide_True by naive_solver. intros Hn. by rewrite IH.
  - rewrite !decide_False by naive_solver. done.
  - rewrite !decide_False by naive_solver. done.
Qed.

Lemma callsBy_callsFor_nil p sid st : callsFor sid st = [] → callsBy p sid st = [].
Proof.
  unfold callsFor, callsBy. intros Hnil. apply filter_none.
  intros c Hc [_ Hs].
  assert (c ∈ filter (λ c, call_sid c = sid) (relaunchCalls st)) as Hin
    by by apply list_elem_of_filter.
  rewrite Hnil in Hin. by apply elem_of_nil in Hin.
Qed.

Lemma callsBy_Boot_relaunchNeeded s sid st :
  callsBy BootWatchdog sid (relaunchNeeded s st) = callsBy BootWatchdog sid st.
Proof.
  unfold relaunchNeeded, getSession. case_bool_decide; [done|].
  destruct (launcher st !! s) as [i|]; [|done].
  destruct (archived i); [done|]. case_bool_decide; [|done].
  apply (callsBy_Boot_relaunch_OnDemand s sid
           (with_relaunchingSet ({[s]} ∪ relaunchingSet st) st)).
Qed.

Lemma relaunchNeeded_watchdog s st :
  timers (relaunchNeeded s st) = timers st
  ∧ now (relaunchNeeded s st) = now st
  ∧ watchdog (relaunchNeeded s st) = watchdog st
  ∧ ∀ sid, isArchived sid (launcher (relaunchNeeded s st)) = isArchived sid (launcher st).
Proof.
  unfold relaunchNeeded, getSession. case_bool_decide; [done|].
  destruct (launcher st !! s) as [i|]; [|done].
  destruct (archived i); [done|]. case_bool_decide; [|done]. simpl.
  repeat split. intros sid. apply isArchived_relaunched.
Qed.

(** The clock moves with [Advance] only, and never back. *)
Lemma now_step st e :
  now (step st e) = match e with Advance t => N.max (now st) t | _ => now st end.
Proof.
  destruct e as [s|s|s|ok|t|s b|s]; simpl; try done.
  - by destruct (relaunchNeeded_watchdog s st) as (_ & -> & _).
  - unfold relaunchSettled. by case_bool_decide.
  - by destruct (watchdogResumed_frame ok st) as (_ & _ & -> & _).
  - unfold advance.
    match goal with
    | |- context [foldl ?f ?a ?b] =>
        by destruct (foldl_runTimer_frame b a) as (_ & _ & -> & _)
    end.
Qed.

Lemma now_before T st evs :
  Forall (before T) evs → (now st < T)%N → (now (run st evs) < T)%N.
Proof.
  intros Hevs. revert st. induction Hevs as [|e evs He _ IH]; intros st Hnow; [done|].
  apply IH. rewrite now_step. destruct e; simpl in *; lia.
Qed.

(** *** A session that stays [starting] until the watchdog fires *)

Lemma waiting_transfer sid st st' :
  launcher st' !! sid = launcher st !! sid →
  watchdogTimers (timers st') = watchdogTimers (timers st) →
  now st' = now st →
  watchdog st' = watchdog st →
  callsFor sid st' = callsFor sid st →
  waiting sid st → waiting sid st'.
Proof.
  unfold waiting, live, notFired. by intros -> -> -> -> ->.
Qed.

Lemma waiting_step sid st e :
  waiting sid st → quiet sid e → before RECONNECT_GRACE_MS e → waiting sid (step st e).
Proof.
  intros Hw Hq Hb. pose proof Hw as (Hl & (Hwt & Hlt & Hwd) & Hc).
  destruct e as [s|s|s|ok|t|s b|s]; simpl in *.
  - apply (waiting_transfer sid st); try done.
    simpl. by rewrite lookup_markConnected, decide_False.
  - destruct (decide (s = sid)) as [->|Hne].
    + by rewrite relaunchNeeded_starting.
    + destruct (relaunchNeeded_frame s sid st Hne) as (Hl' & Ht & Hn & Hw' & Hc' & _).
      apply (waiting_transfer sid st); try done. by rewrite Ht.
  - unfold relaunchSettled. case_bool_decide; [|done].
    apply (waiting_transfer sid st); try done.
    simpl. apply watchdogTimers_addTimer.
  - unfold watchdogResumed. by rewrite Hwd.
  - unfold advance.
    set (due := filter (λ x, (x.1 ≤ t)%N) (timers st)).
    set (rest := filter (λ x, ¬ (x.1 ≤ t)%N) (timers st)).
    set (st0 := with_now (N.max (now st) t) (with_timers rest st)).
    assert (watchdogTimers due = []) as Hdue.
    { unfold due. rewrite watchdogTimers_filter, Hwt.
      by rewrite filter_cons_False, filter_nil by (simpl; lia). }
    assert (watchdogTimers rest = [(RECONNECT_GRACE_MS, Watchdog)]) as Hrest.
    { unfold rest. rewrite watchdogTimers_filter, Hwt.
      by rewrite filter_cons_True, filter_nil by (simpl; lia). }
    destruct (foldl_runTimer_no_watchdog due st0 Hdue) as (Hl' & Hw' & Hc').
    destruct (foldl_runTimer_frame due st0) as (_ & Htm & Hnow & _).
    unfold waiting, live, notFired, callsFor. rewrite Hl', Hw', Hc', Htm, Hnow. simpl.
    repeat split; try done. lia.
  - apply (waiting_transfer sid st); try done.
    simpl. by rewrite lookup_setArchived, decide_False.
  - apply (waiting_transfer sid st); try done.
    simpl. by rewrite lookup_markExited, decide_False.
Qed.

Lemma waiting_run sid st evs :
  waiting sid st → Forall (quiet sid) evs → Forall (before RECONNECT_GRACE_MS) evs →
  waiting sid (run st evs).
Proof.
  intros Hw Hq. revert st Hw. induction Hq as [|e evs He _ IH]; intros st Hw Hb; [done|].
  apply Forall_cons in Hb as [Hb Hbs]. apply IH; [|done]. by apply waiting_step.
Qed.

Lemma waiting_boot sid l i :
  l !! sid = Some i → state i = starting → archived i = false → waiting sid (boot l).
Proof.
  intros Hi Hst Har. split; [by exists i|]. split; [|done].
  unfold notFired, boot. simpl.
  assert (sid ∈ getStartingSessions l) as Hin
    by (apply elem_of_getStartingSessions; eauto).
  destruct (getStartingSessions l); [by apply elem_of_nil in Hin|]. done.
Qed.

(** *** The watchdog's loop *)

Lemma watchdogLoop_visit sid rest st :
  isArchived sid (launcher st) = false → sid ∈ rest → NoDup rest →
  callsBy BootWatchdog sid st = [] →
  (RECONNECT_GRACE_MS ≤ now st)%N →
  waitingTurn sid (watchdogLoop rest st) ∨ relaunchedOnce sid (watchdogLoop rest st).
Proof.
  intros Har Hin Hnd Hcalls Hnow.
  induction rest as [|s rest IH]; simpl; [by apply elem_of_nil in Hin|].
  apply NoDup_cons in Hnd as [Hs Hnd].
  destruct (isArchived s (launcher st)) eqn:Hars.
  - apply IH; [|done]. apply elem_of_cons in Hin as [->|Hin]; [congruence|done].
  - destruct (decide (s = sid)) as [->|Hne].
    + right. split; [by intros ? [= <-]|].
      exists {| call_path := BootWatchdog; call_sid := sid; call_time := now st |}.
      split; [|done].
      etrans; [apply (callsBy_relaunch BootWatchdog BootWatchdog sid sid st)|].
      by rewrite Hcalls, decide_True.
    + left. exists rest. split; [done|].
      split; [by apply elem_of_cons in Hin as [->|Hin]|]. split; [done|]. split.
      * etrans; [apply (callsBy_relaunch BootWatchdog BootWatchdog s sid st)|].
        rewrite Hcalls, decide_False; [done|]. by intros [_ ?].
      * simpl. by rewrite isArchived_relaunched.
Qed.

Lemma graceInv_transfer sid st st' :
  isArchived sid (launcher st') = isArchived sid (launcher st) →
  watchdogTimers (timers st') = watchdogTimers (timers st) →
  now st' = now st →
  watchdog st' = watchdog st →
  callsBy BootWatchdog sid st' = callsBy BootWatchdog sid st →
  graceInv sid st → graceInv sid st'.
Proof.
  unfold graceInv, fired, waitingTurn, relaunchedOnce. by intros -> -> -> -> ->.
Qed.

(** The watchdog fires. *)
Lemma waiting_fire sid t st :
  waiting sid st → (RECONNECT_GRACE_MS ≤ t)%N →
  live sid (advance t st)
  ∧ graceInv sid (advance t st)
  ∧ callsBy OnDemand sid (advance t st) = [].
Proof.
  intros (Hl & (Hwt & Hlt & Hwd) & Hc) Ht.
  split; [|split].
  { unfold advance. apply foldl_runTimer_ind; [done|]. intros cb st'. apply live_runTimer. }
  2:{ rewrite callsBy_OnDemand_advance. by apply callsBy_callsFor_nil. }
  unfold advance.
  set (due := filter (λ x, (x.1 ≤ t)%N) (timers st)).
  set (rest := filter (λ x, ¬ (x.1 ≤ t)%N) (timers st)).
  set (st0 := with_now (N.max (now st) t) (with_timers rest st)).
  destruct (foldl_runTimer_frame due st0) as (_ & Htm & Hnow & _).
  assert (watchdogTimers due = [(RECONNECT_GRACE_MS, Watchdog)]) as Hdue.
  { unfold due. rewrite watchdogTimers_filter, Hwt.
    by rewrite filter_cons_True, filter_nil by (simpl; lia). }
  assert (watchdogTimers rest = []) as Hrest.
  { unfold rest. rewrite watchdogTimers_filter, Hwt.
    by rewrite filter_cons_False, filter_nil by (simpl; lia). }
  split.
  { unfold fired. rewrite Htm, Hnow. simpl. split; [done|lia]. }
  destruct (filter_singleton_split _ _ _ Hdue) as (d1 & d2 & Hsplit & Hd1 & Hd2).
  rewrite Hsplit, foldl_app. simpl.
  set (mid := foldl (λ st x, runTimer x.2 st) st0 d1).
  destruct (foldl_runTimer_no_watchdog d1 st0 Hd1) as (Hlm & Hwm & Hcm).
  destruct (foldl_runTimer_frame d1 st0) as (_ & _ & Hnm & _).
  fold mid in Hlm, Hwm, Hcm, Hnm.
  set (loop := watchdogLoop (getStartingSessions (launcher mid)) mid).
  destruct (foldl_runTimer_no_watchdog d2 loop Hd2) as (Hl2 & Hw2 & Hc2).
  assert (live sid mid) as Hlmid by (by apply (live_launcher sid st)).
  assert (waitingTurn sid loop ∨ relaunchedOnce sid loop) as Hloop.
  { apply watchdogLoop_visit.
    - by apply live_not_archived.
    - apply elem_of_getStartingSessions. destruct Hlmid as (i & ? & ? & _). eauto.
    - apply NoDup_getStartingSessions.
    - unfold callsBy. rewrite Hcm. simpl. by apply (callsBy_callsFor_nil _ _ st).
    - rewrite Hnm. simpl. lia. }
  unfold waitingTurn, relaunchedOnce, callsBy in *. by rewrite Hl2, Hw2, Hc2.
Qed.

Lemma graceInv_step sid st e : graceInv sid st → steady sid e → graceInv sid (step st e).
Proof.
  intros Hinv Hs. destruct e as [s|s|s|ok|t|s b|s]; simpl in *.
  - apply (graceInv_transfer sid st); try done.
    simpl. apply isArchived_markConnected.
  - destruct (relaunchNeeded_watchdog s st) as (Ht & Hn & Hw & Ha).
    apply (graceInv_transfer sid st); try done; [by rewrite Ht|].
    apply callsBy_Boot_relaunchNeeded.
  - unfold relaunchSettled. case_bool_decide; [|done].
    apply (graceInv_transfer sid st); try done.
    simpl. apply watchdogTimers_addTimer.
  - subst ok. unfold watchdogResumed.
    destruct (watchdog st) as [rest|] eqn:Hwd; [|done].
    destruct Hinv as (Hf & Hdone).
    destruct (watchdogLoop_frame rest st) as (_ & Htm & Hnow & _).
    split; [unfold fired; by rewrite Htm, Hnow|].
    destruct Hdone as [(rest' & Hr & Hin & Hnd & Hc & Ha)|[Hnot Hone]].
    + assert (rest' = rest) as -> by congruence.
      apply watchdogLoop_visit; try done. apply Hf.
    + destruct (watchdogLoop_skip sid rest st (Hnot rest Hwd)) as (_ & _ & Hc & Hrest').
      right. split; [done|]. by rewrite Hc.
  - destruct Hinv as ((Hwt & Hge) & Hdone). unfold advance.
    set (due := filter (λ x, (x.1 ≤ t)%N) (timers st)).
    set (rest := filter (λ x, ¬ (x.1 ≤ t)%N) (timers st)).
    set (st0 := with_now (N.max (now st) t) (with_timers rest st)).
    assert (watchdogTimers due = []) as Hdue
      by (unfold due; by rewrite watchdogTimers_filter, Hwt).
    assert (watchdogTimers rest = []) as Hrest
      by (unfold rest; by rewrite watchdogTimers_filter, Hwt).
    destruct (foldl_runTimer_no_watchdog due st0 Hdue) as (Hl' & Hw' & Hc').
    destruct (foldl_runTimer_frame due st0) as (_ & Htm & Hnow & _).
    unfold graceInv, fired, waitingTurn, relaunchedOnce, callsBy.
    rewrite Hl', Hw', Hc', Htm, Hnow. simpl. split; [split; [done|lia]|done].
  - apply (graceInv_transfer sid st); try done.
    simpl. by apply isArchived_setArchived_ne.
  - apply (graceInv_transfer sid st); try done.
    simpl. apply isArchived_markExited.
Qed.

Lemma graceInv_run sid st evs :
  graceInv sid st → Forall (steady sid) evs → graceInv sid (run st evs).
Proof.
  intros Hinv Hevs. revert st Hinv.
  induction Hevs as [|e evs He _ IH]; intros st Hinv; [done|].
  apply IH. by apply graceInv_step.
Qed.

Lemma steady_resumes sid n : Forall (steady sid) (replicate n (WatchdogResumed true)).
Proof. apply Forall_replicate. done. Qed.

Lemma graceInv_done sid st :
  graceInv sid st → watchdog st = None → ∃ c, callsBy BootWatchdog sid st = [c].
Proof.
  intros (_ & [(rest & Hr & _)|(_ & c & Hc & _)]) Hnone; [congruence|eauto].
Qed.

(** While a session is [starting] and not archived, the callback does not
    relaunch it. *)
Lemma live_step sid st e :
  live sid st → quiet sid e →
  live sid (step st e) ∧ callsBy OnDemand sid (step st e) = callsBy OnDemand sid st.
Proof.
  intros Hl Hq. pose proof Hl as (i & Hi & Hst & Har).
  destruct e as [s|s|s|ok|t|s b|s]; simpl in *.
  - split; [|done]. exists i. simpl. by rewrite lookup_markConnected, decide_False.
  - destruct (decide (s = sid)) as [->|Hne]; [by rewrite relaunchNeeded_starting|].
    destruct (relaunchNeeded_frame s sid st Hne) as (Hl' & _).
    split; [exists i; by rewrite Hl'|].
    unfold relaunchNeeded, getSession. case_bool_decide; [done|].
    destruct (launcher st !! s) as [j|]; [|done].
    destruct (archived j); [done|]. case_bool_decide; [|done].
    etrans; [apply (callsBy_relaunch OnDemand OnDemand s sid
                      (with_relaunchingSet ({[s]} ∪ relaunchingSet st) st))|].
    rewrite decide_False, app_nil_r; [done|]. by intros [_ ?].
  - unfold relaunchSettled. by case_bool_decide.
  - split; [|apply callsBy_OnDemand_watchdogResumed].
    unfold watchdogResumed. destruct (watchdog st) as [rest|]; [|done].
    destruct ok; [by apply live_watchdogLoop|done].
  - split; [|apply callsBy_OnDemand_advance].
    unfold advance. apply foldl_runTimer_ind; [done|]. intros cb st'. apply live_runTimer.
  - split; [|done]. exists i. simpl. by rewrite lookup_setArchived, decide_False.
  - split; [|done]. exists i. simpl. by rewrite lookup_markExited, decide_False.
Qed.

Lemma live_run sid st evs :
  live sid st → Forall (quiet sid) evs →
  live sid (run st evs) ∧ callsBy OnDemand sid (run st evs) = callsBy OnDemand sid st.
Proof.
  intros Hl Hevs. revert st Hl.
  induction Hevs as [|e evs He _ IH]; intros st Hl; [done|].
  destruct (live_step sid st e Hl He) as [Hl' Hc'].
  destruct (IH (step st e) Hl') as [? Hc'']. split; [done|].
  unfold run in *. simpl. by rewrite Hc''.
Qed.

(** *** A session that dialled back *)

Lemma reconnected_runTimer sid cb st : reconnected sid st → reconnected sid (runTimer cb st).
Proof.
  intros (Hst & Hw & Hc). destruct cb as [s|]; simpl; [done|].
  assert (sid ∉ getStartingSessions (launcher st)) as Hnot.
  { intros (i & Hi & Hsi)%elem_of_getStartingSessions. by apply (Hst i). }
  destruct (watchdogLoop_skip sid _ st Hnot) as (Hl & _ & Hcb & Hrest).
  unfold reconnected. by rewrite Hl, Hcb.
Qed.

Lemma reconnected_step sid st e :
  reconnected sid st → e ≠ RelaunchNeeded sid → reconnected sid (step st e).
Proof.
  intros Hrec He. pose proof Hrec as (Hst & Hw & Hc).
  destruct e as [s|s|s|ok|t|s b|s]; simpl.
  - unfold reconnected. simpl. split; [|done]. intros i.
    rewrite lookup_markConnected. destruct (decide (s = sid)); [|by apply Hst].
    destruct (launcher st !! sid); [|done]. by intros [= <-].
  - assert (s ≠ sid) as Hne by congruence.
    destruct (relaunchNeeded_frame s sid st Hne) as (Hl & _ & _ & Hw' & _ & Hc').
    unfold reconnected. by rewrite Hl, Hw', Hc'.
  - unfold relaunchSettled. by case_bool_decide.
  - unfold watchdogResumed. destruct (watchdog st) as [rest|] eqn:Hwd; [|done].
    destruct ok; [|done].
    destruct (watchdogLoop_skip sid rest st (Hw rest eq_refl)) as (Hl & _ & Hcb & Hrest).
    unfold reconnected. by rewrite Hl, Hcb.
  - unfold advance. apply foldl_runTimer_ind; [done|]. intros cb st'.
    apply reconnected_runTimer.
  - unfold reconnected. simpl. split; [|done]. intros i.
    rewrite lookup_setArchived. destruct (decide (s = sid)); [|by apply Hst].
    destruct (launcher st !! sid) as [j|] eqn:Hj; [|done]. intros [= <-]. simpl.
    by apply (Hst j).
  - unfold reconnected. simpl. split; [|done]. intros i.
    rewrite lookup_markExited. destruct (decide (s = sid)); [|by apply Hst].
    destruct (launcher st !! sid); [|done]. by intros [= <-].
Qed.

Lemma reconnected_run sid st evs :
  reconnected sid st → RelaunchNeeded sid ∉ evs → reconnected sid (run st evs).
Proof.
  revert st. induction evs as [|e evs IH]; intros st Hr Hevs; [done|].
  apply not_elem_of_cons in Hevs as [He Hevs].
  apply IH; [|done]. by apply reconnected_step.
Qed.

(** Once the watchdog has fired without [sid] among the sessions to visit,
    nothing makes it relaunch [sid]. *)
Lemma passedOver_step sid st e : passedOver sid st → passedOver sid (step st e).
Proof.
  intros Hp. pose proof Hp as (Hwt & Hw & Hc).
  destruct e as [s|s|s|ok|t|s b|s]; simpl; try done.
  - destruct (relaunchNeeded_watchdog s st) as (Ht & _ & Hw' & _).
    unfold passedOver. by rewrite Ht, Hw', callsBy_Boot_relaunchNeeded.
  - unfold relaunchSettled. case_bool_decide; [|done].
    unfold passedOver. simpl. by rewrite watchdogTimers_addTimer.
  - unfold watchdogResumed. destruct (watchdog st) as [rest|] eqn:Hwd; [|done].
    destruct ok; [|done].
    destruct (watchdogLoop_skip sid rest st (Hw rest eq_refl)) as (_ & _ & Hcb & Hrest).
    destruct (watchdogLoop_frame rest st) as (_ & Htm & _).
    unfold passedOver. by rewrite Htm, Hcb.
  - unfold advance.
    set (due := filter (λ x, (x.1 ≤ t)%N) (timers st)).
    set (rest := filter (λ x, ¬ (x.1 ≤ t)%N) (timers st)).
    set (st0 := with_now (N.max (now st) t) (with_timers rest st)).
    assert (watchdogTimers due = []) as Hdue
      by (unfold due; by rewrite watchdogTimers_filter, Hwt).
    destruct (foldl_runTimer_no_watchdog due st0 Hdue) as (_ & Hw' & Hc').
    destruct (foldl_runTimer_frame due st0) as (_ & Htm & _).
    unfold passedOver, callsBy. rewrite Hw', Hc', Htm. simpl.
    unfold rest. by rewrite watchdogTimers_filter, Hwt.
Qed.

Lemma passedOver_run sid st evs : passedOver sid st → passedOver sid (run st evs).
Proof.
  revert st. induction evs as [|e evs IH]; intros st Hp; [done|].
  apply IH. by apply passedOver_step.
Qed.

Lemma watchdogInv_fired t st :
  watchdogInv st → (RECONNECT_GRACE_MS ≤ t)%N → watchdogTimers (timers (advance t st)) = [].
Proof.
  intros (HA & _) Ht. unfold advance.
  match goal with
  | |- context [foldl ?f ?a ?b] => destruct (foldl_runTimer_frame b a) as (_ & -> & _)
  end. simpl. rewrite watchdogTimers_filter.
  destruct (watchdogTimers (timers st)) as [|x xs]; [done|].
  destruct HA as (-> & _). by rewrite filter_cons_False by (simpl; lia).
Qed.

(** Before the grace period is over the watchdog has done nothing. *)
Lemma early_no_watchdog l evs :
  Forall (before RECONNECT_GRACE_MS) evs →
  watchdog (run (boot l) evs) = None
  ∧ ∀ sid, callsBy BootWatchdog sid (run (boot l) evs) = [].
Proof.
  intros Hevs.
  assert (now (run (boot l) evs) < RECONNECT_GRACE_MS)%N as Hnow
    by (apply now_before; [done|unfold boot, RECONNECT_GRACE_MS; simpl; lia]).
  destruct (watchdogInv_run (boot l) evs (watchdogInv_boot l)) as (_ & HB & HC & _).
  destruct (throttled_run "" (boot l) evs (throttled_boot "" l)) as (_ & Hpast & _).
  split.
  - destruct (watchdog (run (boot l) evs)) as [rest|] eqn:Hw; [|done].
    destruct (HB rest eq_refl) as (? & _). lia.
  - intros sid. apply filter_none. intros c Hc [Hp _].
    specialize (HC c Hc Hp). specialize (Hpast c Hc). lia.
Qed.

Lemma callsBy_OnDemand_step sid st e :
  e ≠ RelaunchNeeded sid → callsBy OnDemand sid (step st e) = callsBy OnDemand sid st.
Proof.
  intros He. destruct e as [s|s|s|ok|t|s b|s]; simpl; try done.
  - assert (s ≠ sid) as Hne by congruence.
    unfold relaunchNeeded, getSession. case_bool_decide; [done|].
    destruct (launcher st !! s) as [j|]; [|done].
    destruct (archived j); [done|]. case_bool_decide; [|done].
    etrans; [apply (callsBy_relaunch OnDemand OnDemand s sid
                      (with_relaunchingSet ({[s]} ∪ relaunchingSet st) st))|].
    rewrite decide_False, app_nil_r; [done|]. by intros [_ ?].
  - unfold relaunchSettled. by case_bool_decide.
  - apply callsBy_OnDemand_watchdogResumed.
  - apply callsBy_OnDemand_advance.
Qed.

Lemma callsBy_OnDemand_run sid st evs :
  RelaunchNeeded sid ∉ evs → callsBy OnDemand sid (run st evs) = callsBy OnDemand sid st.
Proof.
  revert st. induction evs as [|e evs IH]; intros st Hevs; [done|].
  apply not_elem_of_cons in Hevs as [He Hevs].
  unfold run in *. simpl. rewrite IH by done. by apply callsBy_OnDemand_step.
Qed.

(** C4, as amended. The boot-time grace window. Take a session that the
    restored launcher table holds in state [starting]. Suppose that it is
    not archived and that, while the clock is below 10000 ms, its agent does
    not dial back, its process is not seen to exit and its archived flag is
    not touched. Then no call of [launcher.relaunch] is made for it by
    either path before the clock reaches 10000 ms. From then on, whatever
    happens, the watchdog relaunches it at most once and not before
    10000 ms; as long as the agent still does not dial back, no other call
    is made for it; and if no relaunch awaited by the watchdog is rejected
    and the archived flag is left alone, the watchdog has relaunched it
    exactly once when its loop has ended, which it does once the relaunches
    it awaits are fulfilled. If instead the agent dials back while the
    clock is below 10000 ms and the bridge does not ask for a relaunch of
    the session between then and the end of the grace period, the watchdog
    never relaunches the session, whatever happens later, and no call at
    all is made for it in a run without a relaunch-needed event for it. *)
Theorem grace_window_relaunch (l : gmap string SdkSessionInfo) (sid : string)
    (info : SdkSessionInfo) :
  l !! sid = Some info →
  state info = starting →
  (archived info = false →
   ∀ evsA t evsB,
     Forall (before RECONNECT_GRACE_MS) evsA →
     Forall (quiet sid) evsA →
     (RECONNECT_GRACE_MS ≤ t)%N →
     let stA := run (boot l) evsA in
     let st := run (step stA (Advance t)) evsB in
     callsFor sid stA = []
     ∧ (length (callsBy BootWatchdog sid st) ≤ 1)%nat
     ∧ (∀ c, c ∈ callsBy BootWatchdog sid st → (RECONNECT_GRACE_MS ≤ call_time c)%N)
     ∧ (Forall (quiet sid) evsB → callsFor sid st = callsBy BootWatchdog sid st)
     ∧ (Forall (steady sid) evsB →
        (watchdog st = None → ∃ c, callsBy BootWatchdog sid st = [c])
        ∧ ∃ n c,
            watchdog (run st (replicate n (WatchdogResumed true))) = None
            ∧ callsBy BootWatchdog sid (run st (replicate n (WatchdogResumed true))) = [c]))
  ∧ (∀ evs1 evs2 t evs3,
       Forall (before RECONNECT_GRACE_MS) (evs1 ++ CliOpen sid :: evs2) →
       RelaunchNeeded sid ∉ evs2 →
       (RECONNECT_GRACE_MS ≤ t)%N →
       let st := run (boot l) (evs1 ++ CliOpen sid :: evs2 ++ Advance t :: evs3) in
       callsBy BootWatchdog sid (run (boot l) (evs1 ++ CliOpen sid :: evs2)) = []
       ∧ callsBy BootWatchdog sid st = []
       ∧ (RelaunchNeeded sid ∉ evs1 ++ evs2 ++ evs3 → callsFor sid st = [])).
Proof.
  intros Hinfo Hstate. split.
  - intros Harch evsA t evsB HbA HqA Ht stA st.
    assert (waiting sid stA) as HwA.
    { apply waiting_run; [|done|done]. by apply (waiting_boot sid l info). }
    destruct (waiting_fire sid t stA HwA Ht) as (Hlive & Hinv & Hod).
    change (advance t stA) with (step stA (Advance t)) in Hlive, Hinv, Hod.
    destruct (watchdogInv_run (boot l) (evsA ++ Advance t :: evsB) (watchdogInv_boot l))
      as (_ & _ & HC & HD).
    rewrite run_app in HC, HD. change (run (run (boot l) evsA) (Advance t :: evsB))
      with st in HC, HD.
    split; [apply HwA|]. split; [apply HD|]. split.
    { intros c [Hc [Hp _]]%elem_of_callsBy. by apply HC. }
    split.
    { intros HqB. apply callsFor_no_OnDemand. unfold st.
      destruct (live_run sid _ evsB Hlive HqB) as [_ ->]. done. }
    intros HsB.
    assert (graceInv sid st) as Hst by by apply graceInv_run.
    split; [by apply graceInv_done|].
    destruct (watchdog_finishes st) as [n Hn].
    assert (graceInv sid (run st (replicate n (WatchdogResumed true)))) as Hend
      by (apply graceInv_run; [done|apply steady_resumes]).
    destruct (graceInv_done _ _ Hend Hn) as [c Hc]. by exists n, c.
  - intros evs1 evs2 t evs3 Hb Hno Ht st.
    apply Forall_app in Hb as [Hb1 Hb2].
    apply Forall_cons in Hb2 as [_ Hb2].
    destruct (early_no_watchdog l evs1 Hb1) as [Hw1 Hc1].
    set (s1 := run (boot l) evs1) in *.
    assert (reconnected sid (step s1 (CliOpen sid))) as Hrec.
    { unfold reconnected. simpl. rewrite Hw1. split; [|split; [done|apply Hc1]].
      intros i. rewrite lookup_markConnected, decide_True by done.
      destruct (launcher s1 !! sid); [|done]. by intros [= <-]. }
    assert (run (boot l) (evs1 ++ CliOpen sid :: evs2)
            = run (step s1 (CliOpen sid)) evs2) as Hs2 by by rewrite run_app.
    pose proof (reconnected_run sid _ evs2 Hrec Hno) as Hrec2.
    rewrite <- Hs2 in Hrec2.
    set (s2 := run (boot l) (evs1 ++ CliOpen sid :: evs2)) in *.
    assert (st = run (step s2 (Advance t)) evs3) as Hst.
    { unfold st, s2.
      replace (evs1 ++ CliOpen sid :: evs2 ++ Advance t :: evs3)
        with ((evs1 ++ CliOpen sid :: evs2) ++ Advance t :: evs3)
        by (by rewrite <- app_assoc).
      by rewrite run_app. }
    assert (passedOver sid (step s2 (Advance t))) as Hpass.
    { destruct (reconnected_step sid s2 (Advance t) Hrec2) as (_ & Hw & Hc); [done|].
      split; [|done]. apply watchdogInv_fired; [|done].
      apply watchdogInv_run, watchdogInv_boot. }
    pose proof (passedOver_run sid _ evs3 Hpass) as (_ & _ & Hc3). rewrite <- Hst in Hc3.
    split; [apply Hrec2|]. split; [done|].
    intros Hnone. rewrite callsFor_no_OnDemand; [done|].
    unfold st. rewrite callsBy_OnDemand_run; [done|].
    intros Hin. apply Hnone. set_solver.
Qed.

(** The theorem of C4 on a restored table in which ["s1"] is [starting] and
    not archived: no call before 10000 ms although the bridge asks for a
    relaunch, one call by the watchdog and no other at 10000 ms, and none by
    the watchdog when the agent dials back at 4000 ms, whatever the bridge
    asks for after the grace period. *)
Lemma grace_window_relaunch_witness :
  callsFor "s1" (run (boot restored) [RelaunchNeeded "s1"; Advance 9999]) = []
  ∧ (∃ c, callsBy BootWatchdog "s1"
            (run (boot restored)
               [RelaunchNeeded "s1"; Advance 9999; Advance 10000; WatchdogResumed true]) = [c])
  ∧ callsFor "s1"
      (run (boot restored)
         [RelaunchNeeded "s1"; Advance 9999; Advance 10000; WatchdogResumed true])
    = callsBy BootWatchdog "s1"
        (run (boot restored)
           [RelaunchNeeded "s1"; Advance 9999; Advance 10000; WatchdogResumed true])
  ∧ callsBy BootWatchdog "s1"
      (run (boot restored)
         ([Advance 4000] ++ CliOpen "s1" :: [Advance 9000] ++ Advance 12000
            :: [RelaunchNeeded "s1"; WatchdogResumed true])) = [].
Proof.
  assert (restored !! "s1"
          = Some {| sessionId := "s1"; state := starting; archived := false |}) as Hinfo
    by (vm_compute; reflexivity).
  pose proof (grace_window_relaunch restored "s1" _ Hinfo eq_refl) as [Hstay Hback].
  assert (Forall (before RECONNECT_GRACE_MS) [RelaunchNeeded "s1"; Advance 9999%N]) as HbA.
  { constructor; [exact I|]. constructor; [vm_compute; reflexivity|]. constructor. }
  assert (Forall (quiet "s1") [RelaunchNeeded "s1"; Advance 9999%N]) as HqA.
  { repeat (constructor; [exact I|]). constructor. }
  assert (RECONNECT_GRACE_MS ≤ 10000)%N as Ht by (vm_compute; discriminate).
  destruct (Hstay eq_refl [RelaunchNeeded "s1"; Advance 9999%N] 10000%N
              [WatchdogResumed true] HbA HqA Ht) as (H0 & _ & _ & Hq & Hs).
  split; [exact H0|]. split; [|split].
  - refine (proj1 (Hs _) _).
    + constructor; [reflexivity|constructor].
    + vm_compute. reflexivity.
  - apply Hq. constructor; [exact I|constructor].
  - refine (proj1 (proj2 (Hback [Advance 4000%N] [Advance 9000%N] 12000%N
                            [RelaunchNeeded "s1"; WatchdogResumed true] _ _ _))).
    + repeat (constructor; [vm_compute; try reflexivity; exact I|]). constructor.
    + compute_done.
    + vm_compute. discriminate.
Defined.

(** C4 as stated fails in both directions. With two sessions restored as
    [starting] and not archived, neither of which dials back, the watchdog
    relaunches ["s1"] first; when that relaunch is rejected the loop is
    abandoned and ["s4"] is never relaunched. And a session whose agent
    dialled back within the grace period is relaunched by the watchdog all
    the same when the callback has relaunched it before the period ends. *)
Lemma grace_window_misfires :
  (let st := run (boot twoStarting)
               [Advance 10000; WatchdogResumed false; Advance 60000; WatchdogResumed true] in
   twoStarting !! "s4" = Some {| sessionId := "s4"; state := starting; archived := false |}
   ∧ callsFor "s4" st = []
   ∧ watchdog st = None
   ∧ watchdogTimers (timers st) = [])
  ∧ (let st := run (boot restored)
                 [Advance 2000; CliOpen "s1"; Advance 5000; RelaunchNeeded "s1";
                  Advance 10000] in
     callsFor "s1" st
     = [{| call_path := OnDemand; call_sid := "s1"; call_time := 5000 |};
        {| call_path := BootWatchdog; call_sid := "s1"; call_time := 10000 |}]).
Proof. split; vm_compute; repeat split; reflexivity. Qed.

(** *** The relaunch window and the watchdog *)

Lemma watchdogLoop_extend rest st :
  ∃ new, relaunchCalls (watchdogLoop rest st) = relaunchCalls st ++ new.
Proof.
  induction rest as [|s rest IH]; simpl; [exists []; by rewrite app_nil_r|].
  destruct (isArchived s (launcher st)); [done|]. simpl. eauto.
Qed.

Lemma step_extend st e : ∃ new, relaunchCalls (step st e) = relaunchCalls st ++ new.
Proof.
  assert (∃ new, relaunchCalls st = relaunchCalls st ++ new) as Hsame
    by (exists []; by rewrite app_nil_r).
  destruct e as [s|s|s|ok|t|s b|s]; simpl; try done.
  - unfold relaunchNeeded, getSession. case_bool_decide; [done|].
    destruct (launcher st !! s) as [j|]; [|done].
    destruct (archived j); [done|]. case_bool_decide; [|done]. simpl. eauto.
  - unfold relaunchSettled. by case_bool_decide.
  - unfold watchdogResumed. destruct (watchdog st) as [rest|]; [|done].
    destruct ok; [apply watchdogLoop_extend|done].
  - unfold advance. apply foldl_runTimer_ind; [done|].
    intros cb st' [new Hnew]. destruct cb as [s|]; simpl; [eauto|].
    destruct (watchdogLoop_extend (getStartingSessions (launcher st')) st') as [new' ->].
    rewrite Hnew, <- app_assoc. eauto.
Qed.

Lemma run_extend st evs : ∃ new, relaunchCalls (run st evs) = relaunchCalls st ++ new.
Proof.
  revert st. induction evs as [|e evs IH]; intros st; [exists []; by rewrite app_nil_r|].
  destruct (IH (step st e)) as [new Hnew]. destruct (step_extend st e) as [new' Hnew'].
  exists (new' ++ new). unfold run in *. simpl. by rewrite Hnew, Hnew', app_assoc.
Qed.

(** With the watchdog out of the way, the guard set is the only gate. *)
Lemma watchdogIdle_step sid st e :
  watchdogIdle st → sid ∈ relaunchingSet st →
  watchdogIdle (step st e) ∧ callsFor sid (step st e) = callsFor sid st.
Proof.
  intros Hidle Hin. pose proof Hidle as [Hwt Hw].
  destruct e as [s|s|s|ok|t|s b|s]; simpl; try done.
  - destruct (decide (s = sid)) as [->|Hne]; [by rewrite relaunchNeeded_guarded|].
    destruct (relaunchNeeded_watchdog s st) as (Ht & _ & Hw' & _).
    destruct (relaunchNeeded_other s sid st Hne) as [Hc _].
    split; [|done]. unfold watchdogIdle. by rewrite Ht, Hw'.
  - unfold relaunchSettled. case_bool_decide; [|done].
    split; [|done]. unfold watchdogIdle. simpl. by rewrite watchdogTimers_addTimer.
  - unfold watchdogResumed. by rewrite Hw.
  - unfold advance.
    set (due := filter (λ x, (x.1 ≤ t)%N) (timers st)).
    set (rest := filter (λ x, ¬ (x.1 ≤ t)%N) (timers st)).
    set (st0 := with_now (N.max (now st) t) (with_timers rest st)).
    assert (watchdogTimers due = []) as Hdue
      by (unfold due; by rewrite watchdogTimers_filter, Hwt).
    destruct (foldl_runTimer_no_watchdog due st0 Hdue) as (_ & Hw' & Hc').
    destruct (foldl_runTimer_frame due st0) as (_ & Htm & _).
    unfold watchdogIdle, callsFor. rewrite Hw', Hc', Htm. simpl.
    unfold rest. by rewrite watchdogTimers_filter, Hwt.
Qed.

Lemma inFlight_run_idle sid st evs :
  inFlight sid st → RelaunchSettled sid ∉ evs → watchdogIdle st →
  watchdogIdle (run st evs) ∧ callsFor sid (run st evs) = callsFor sid st.
Proof.
  revert st. induction evs as [|e evs IH]; intros st Hfl Hevs Hidle; [done|].
  apply not_elem_of_cons in Hevs as [He Hevs].
  destruct (watchdogIdle_step sid st e Hidle (proj1 Hfl)) as [Hidle' Hc'].
  destruct (IH (step st e)) as [? Hc'']; [by apply inFlight_step|done|done|].
  split; [done|]. unfold run in *. simpl. by rewrite Hc''.
Qed.

Lemma coolingDown_run_idle sid T st evs :
  coolingDown sid T st → Forall (before T) evs → watchdogIdle st →
  watchdogIdle (run st evs) ∧ callsFor sid (run st evs) = callsFor sid st.
Proof.
  intros Hcd Hevs. revert st Hcd.
  induction Hevs as [|e evs He _ IH]; intros st Hcd Hidle; [done|].
  destruct (watchdogIdle_step sid st e Hidle (proj1 Hcd)) as [Hidle' Hc'].
  destruct (IH (step st e)) as [? Hc'']; [by apply coolingDown_step|done|].
  split; [done|]. unfold run in *. simpl. by rewrite Hc''.
Qed.

Lemma filter_path_all (sid : string) (cs : list RelaunchCall) :
  filter (λ c, call_path c = OnDemand ∧ call_sid c = sid) cs = [] →
  filter (λ c, call_sid c = sid) cs
  = filter (λ c, call_path c = BootWatchdog ∧ call_sid c = sid) cs.
Proof.
  induction cs as [|c cs IH]; [done|]. rewrite !filter_cons.
  destruct (decide (call_sid c = sid)) as [Hs|Hs], (call_path c) eqn:Hp.
  - by rewrite decide_True by naive_solver.
  - rewrite decide_False, decide_True by naive_solver. intros Hn. by rewrite IH.
  - rewrite !decide_False by naive_solver. done.
  - rewrite !decide_False by naive_solver. done.
Qed.

(** What a stretch of the run adds to the calls for a session when the
    callback makes none: at most one call, by the watchdog. *)
Lemma window_extra l evs sid st st' :
  st' = run (boot l) evs →
  (∃ new, relaunchCalls st' = relaunchCalls st ++ new) →
  callsBy OnDemand sid st' = callsBy OnDemand sid st →
  ∃ extra, callsFor sid st' = callsFor sid st ++ extra
    ∧ (length extra ≤ 1)%nat
    ∧ ∀ c, c ∈ extra → call_path c = BootWatchdog ∧ (RECONNECT_GRACE_MS ≤ call_time c)%N.
Proof.
  intros -> [new Hnew] Hod.
  destruct (watchdogInv_run (boot l) evs (watchdogInv_boot l)) as (_ & _ & HC & HD).
  specialize (HD sid). revert Hod HD. unfold callsFor, callsBy. rewrite Hnew, !filter_app.
  intros Hod HD.
  assert (filter (λ c, call_path c = OnDemand ∧ call_sid c = sid) new = []) as Hnone.
  { apply (f_equal length) in Hod. rewrite length_app in Hod.
    apply length_zero_iff_nil. lia. }
  exists (filter (λ c, call_sid c = sid) new). split; [done|].
  rewrite (filter_path_all sid new Hnone). split.
  - rewrite length_app in HD. lia.
  - intros c [[Hp _] Hc]%list_elem_of_filter. split; [done|].
    apply HC; [|done]. rewrite Hnew. apply elem_of_app. by right.
Qed.

(** C5, as amended. Relaunch is idempotent under overlapping triggers, as
    far as the callback goes. On a running server, a relaunch-needed event
    for a session that is known, not archived, not [starting] and not in
    the guard set makes one call of [launcher.relaunch]. From then on,
    however long the relaunch is in flight and whatever else happens, and
    after it has settled for as long as the clock stays below the settling
    time plus 5000 ms, the calls made by the callback for that session
    remain that one call, and a further relaunch-needed event for it
    changes nothing. The watchdog does not read the guard set: during the
    window it can add one call for the session, not before 10000 ms, and
    nothing else can; when the watchdog is neither pending nor running, the
    one call of the callback is the only call for the session during the
    window. *)
Theorem relaunch_window (l : gmap string SdkSessionInfo) (evs0 evs1 evs2 : list Event)
    (sid : string) (info : SdkSessionInfo) :
  let st0 := run (boot l) evs0 in
  let st1 := step st0 (RelaunchNeeded sid) in
  let st2 := run st1 evs1 in
  let st3 := step st2 (RelaunchSettled sid) in
  let st4 := run st3 evs2 in
  let call := {| call_path := OnDemand; call_sid := sid; call_time := now st0 |} in
  sid ∉ relaunchingSet st0 →
  getSession sid (launcher st0) = Some info →
  archived info = false →
  state info ≠ starting →
  RelaunchSettled sid ∉ evs1 →
  Forall (before (now st3 + RELAUNCH_COOLDOWN_MS)) evs2 →
  callsBy OnDemand sid st1 = callsBy OnDemand sid st0 ++ [call]
  ∧ callsBy OnDemand sid st2 = callsBy OnDemand sid st1
  ∧ step st2 (RelaunchNeeded sid) = st2
  ∧ callsBy OnDemand sid st4 = callsBy OnDemand sid st1
  ∧ step st4 (RelaunchNeeded sid) = st4
  ∧ callsFor sid st1 = callsFor sid st0 ++ [call]
  ∧ (∃ extra, callsFor sid st2 = callsFor sid st1 ++ extra
       ∧ (length extra ≤ 1)%nat
       ∧ ∀ c, c ∈ extra → call_path c = BootWatchdog ∧ (RECONNECT_GRACE_MS ≤ call_time c)%N)
  ∧ (∃ extra, callsFor sid st4 = callsFor sid st1 ++ extra
       ∧ (length extra ≤ 1)%nat
       ∧ ∀ c, c ∈ extra → call_path c = BootWatchdog ∧ (RECONNECT_GRACE_MS ≤ call_time c)%N)
  ∧ (watchdogIdle st0 →
     callsFor sid st2 = callsFor sid st1 ∧ callsFor sid st4 = callsFor sid st1).
Proof.
  intros st0 st1 st2 st3 st4 call Hout Hinfo Harch Hstate Hevs1 Hevs2.
  assert (guarded st0) as (_ & Hcl & _) by apply guarded_run, guarded_boot.
  assert (st1 = with_inflight ({[sid]} ∪ inflight st0)
                  (relaunch OnDemand sid
                     (with_relaunchingSet ({[sid]} ∪ relaunchingSet st0) st0))) as Hst1.
  { unfold st1. simpl. unfold relaunchNeeded.
    rewrite bool_decide_eq_false_2, Hinfo, Harch by done.
    by rewrite bool_decide_eq_true_2. }
  assert (inFlight sid st1) as Hfl1.
  { rewrite Hst1. unfold inFlight. simpl.
    split; [set_solver|]. split; [set_solver|]. intros Hc. by apply Hout, Hcl. }
  assert (callsBy OnDemand sid st1 = callsBy OnDemand sid st0 ++ [call]) as Hcall1.
  { rewrite Hst1.
    etrans; [apply (callsBy_relaunch OnDemand OnDemand sid sid
                      (with_relaunchingSet ({[sid]} ∪ relaunchingSet st0) st0))|].
    by rewrite decide_True. }
  assert (callsFor sid st1 = callsFor sid st0 ++ [call]) as Hfor1.
  { rewrite Hst1.
    etrans; [apply (callsFor_relaunch OnDemand sid sid
                      (with_relaunchingSet ({[sid]} ∪ relaunchingSet st0) st0))|].
    by rewrite decide_True. }
  destruct (inFlight_run sid st1 evs1 Hfl1 Hevs1) as [Hfl2 Hcall2]. fold st2 in Hfl2, Hcall2.
  pose proof Hfl2 as (Hset2 & Hin2 & Hnc2).
  assert (coolingDown sid (now st3 + RELAUNCH_COOLDOWN_MS) st3) as Hcd3.
  { unfold st3. simpl. unfold relaunchSettled.
    rewrite bool_decide_eq_true_2 by done. unfold coolingDown. simpl.
    split; [done|]. split; [set_solver|].
    intros d [[= -> ]|Hd]%elem_of_addTimer; [done|].
    exfalso. apply Hnc2, elem_of_clears. eauto. }
  destruct (coolingDown_run sid _ st3 evs2 Hcd3 Hevs2) as [Hcd4 Hcall4].
  fold st4 in Hcd4, Hcall4.
  assert (callsBy OnDemand sid st3 = callsBy OnDemand sid st2) as Hcall3.
  { apply callsBy_OnDemand_guarded, Hset2. }
  assert (st2 = run (boot l) (evs0 ++ RelaunchNeeded sid :: evs1)) as Hrun2
    by (by rewrite run_app).
  assert (st4 = run (boot l)
                  ((evs0 ++ RelaunchNeeded sid :: evs1) ++ RelaunchSettled sid :: evs2))
    as Hrun4 by (rewrite run_app; by rewrite <- Hrun2).
  split; [done|]. split; [done|].
  split; [by apply relaunchNeeded_guarded|].
  split; [by rewrite Hcall4, Hcall3|].
  split; [apply relaunchNeeded_guarded, Hcd4|].
  split; [done|]. split; [|split].
  - apply (window_extra l _ sid st1 st2 Hrun2); [apply run_extend|done].
  - apply (window_extra l _ sid st1 st4 Hrun4); [|by rewrite Hcall4, Hcall3].
    destruct (run_extend st1 evs1) as [n1 Hn1]. fold st2 in Hn1.
    destruct (step_extend st2 (RelaunchSettled sid)) as [n2 Hn2]. fold st3 in Hn2.
    destruct (run_extend st3 evs2) as [n3 Hn3]. fold st4 in Hn3.
    exists (n1 ++ n2 ++ n3). by rewrite Hn3, Hn2, Hn1, <- !app_assoc.
  - intros Hidle0.
    assert (watchdogIdle st1) as Hidle1.
    { rewrite Hst1. exact Hidle0. }
    destruct (inFlight_run_idle sid st1 evs1 Hfl1 Hevs1 Hidle1) as [Hidle2 Hfor2].
    fold st2 in Hidle2, Hfor2.
    destruct (watchdogIdle_step sid st2 (RelaunchSettled sid) Hidle2 Hset2)
      as [Hidle3 Hfor3]. fold st3 in Hidle3, Hfor3.
    destruct (coolingDown_run_idle sid _ st3 evs2 Hcd3 Hevs2 Hidle3) as [_ Hfor4].
    fold st4 in Hfor4. split; [done|]. by rewrite Hfor4, Hfor3.
Qed.

(** The theorem of C5 on a server with one session whose agent is gone and
    no watchdog armed: a second and a third request while the relaunch is
    in flight, it settles at 3000 ms, and two more requests before
    8000 ms. *)
Lemma relaunch_window_witness :
  let st0 := run (boot oneExited) [] in
  let st1 := step st0 (RelaunchNeeded "s1") in
  let st2 := run st1 [RelaunchNeeded "s1"; Advance 3000; RelaunchNeeded "s1"] in
  let st3 := step st2 (RelaunchSettled "s1") in
  let st4 := run st3 [RelaunchNeeded "s1"; Advance 7999; RelaunchNeeded "s1"] in
  callsFor "s1" st1 = [{| call_path := OnDemand; call_sid := "s1"; call_time := 0 |}]
  ∧ callsFor "s1" st2 = callsFor "s1" st1
  ∧ step st2 (RelaunchNeeded "s1") = st2
  ∧ callsFor "s1" st4 = callsFor "s1" st1
  ∧ step st4 (RelaunchNeeded "s1") = st4.
Proof.
  destruct (relaunch_window oneExited []
              [RelaunchNeeded "s1"; Advance 3000%N; RelaunchNeeded "s1"]
              [RelaunchNeeded "s1"; Advance 7999%N; RelaunchNeeded "s1"] "s1"
              {| sessionId := "s1"; state := exited; archived := false |})
    as (_ & _ & Hno2 & _ & Hno4 & Hfor1 & _ & _ & Hidle).
  - compute_done.
  - vm_compute. reflexivity.
  - reflexivity.
  - discriminate.
  - compute_done.
  - constructor; [exact I|]. constructor; [vm_compute; reflexivity|].
    constructor; [exact I|]. constructor.
  - destruct Hidle as [Hfor2 Hfor4]; [split; vm_compute; reflexivity|].
    split; [exact Hfor1|]. split; [exact Hfor2|]. split; [exact Hno2|].
    split; [exact Hfor4|exact Hno4].
Defined.

(** C5 as stated fails when the watchdog fires during the window. The agent
    of ["s1"], restored as [starting], dials back; at 9000 ms the bridge
    asks for a relaunch and the callback relaunches the session; at
    10000 ms, with that relaunch still in flight, the watchdog finds the
    session [starting] and relaunches it again. *)
Lemma relaunch_window_second_call :
  let st0 := run (boot restored) [CliOpen "s1"; Advance 9000] in
  let st1 := step st0 (RelaunchNeeded "s1") in
  let st2 := run st1 [Advance 10000] in
  ("s1" ∉ relaunchingSet st0)
  ∧ getSession "s1" (launcher st0)
    = Some {| sessionId := "s1"; state := connected; archived := false |}
  ∧ ("s1" ∈ inflight st2)
  ∧ ("s1" ∈ relaunchingSet st2)
  ∧ callsFor "s1" st2
    = [{| call_path := OnDemand; call_sid := "s1"; call_time := 9000 |};
       {| call_path := BootWatchdog; call_sid := "s1"; call_time := 10000 |}].
Proof.
  cbn zeta. split; [compute_done|]. split; [vm_compute; reflexivity|].
  split; [compute_done|]. split; [compute_done|]. vm_compute. reflexivity.
Qed.

End WindowFacts.

(** ** Socket routes and access checks *)

Section FetchFacts.

Import TunnelConfig CfAccess Fetch FetchObs.
(** *** Routes *)

Lemma afterPrefix_Some prefix s rest :
  afterPrefix prefix s = Some rest ↔ s = prefix +:+ rest.
Proof.
  revert s. induction prefix as [|c prefix IH]; intros s; simpl.
  - split; [by intros [= ->]|by intros ->].
  - destruct s as [|d s].
    + split; [done|]. intros Heq. discriminate Heq.
    + case_bool_decide as Hc.
      * subst d. rewrite IH. split; [by intros ->|].
        intros Heq. by injection Heq.
      * split; [done|]. intros Heq. injection Heq as ? ?. done.
Qed.

Lemma matchRoute_Some prefix pathname i :
  matchRoute prefix pathname = Some i ↔ pathname = prefix +:+ i ∧ validId i.
Proof.
  unfold matchRoute, validId. destruct (afterPrefix prefix pathname) as [rest|] eqn:Hp.
  - apply afterPrefix_Some in Hp as ->.
    destruct (bool_decide (rest ≠ "") && allIdChars rest) eqn:Hv.
    + apply andb_true_iff in Hv as [Hne%bool_decide_eq_true Hall]. split.
      * by intros [= <-].
      * intros [Heq _]. by apply (inj (String.append prefix)) in Heq as ->.
    + split; [done|]. intros [Heq [Hne Hall]].
      apply (inj (String.append prefix)) in Heq as ->.
      by rewrite Hall, bool_decide_eq_true_2 in Hv.
  - split; [done|]. intros [Heq _]. apply afterPrefix_Some in Heq. congruence.
Qed.

Lemma matchRoute_routePath k i :
  validId i →
  matchRoute "/ws/cli/" (routePath k i) = (if decide (k = cli) then Some i else None)
  ∧ matchRoute "/ws/browser/" (routePath k i) = (if decide (k = browser) then Some i else None)
  ∧ matchRoute "/ws/terminal/" (routePath k i)
    = (if decide (k = terminal) then Some i else None).
Proof.
  intros Hv.
  destruct k; repeat split;
    first [ apply matchRoute_Some; by split | reflexivity ].
Qed.

Section Serve.

Variable newURL : string → Completion string.
Variable jwtVerify : string → JWKS → VerifyOptions → Completion (option string).
Variable upgrade : SocketData → bool.

Abbreviation serve := (fetch newURL jwtVerify upgrade).
Abbreviation middleware := (cfAccessMiddleware newURL jwtVerify).
Abbreviation denies := (rejects newURL jwtVerify).

Lemma rejects_dec now now' file jwt c :
  denies now now' file jwt c ∨ ¬ denies now now' file jwt c.
Proof.
  unfold rejects. destruct (loadConfig file) as [config|]; [|right; by intros (? & ? & _)].
  destruct (truthy (teamDomain config)) eqn:Ht;
    [|right; intros (? & [= <-] & ? & _); congruence].
  destruct (truthy jwt) eqn:Hj; [|right; intros (? & _ & _ & ? & _); congruence].
  destruct (verifyAccessJwt newURL jwtVerify now now' (default "" jwt)
              (default "" (teamDomain config)) (audienceTag config) c) as [[e|] c'] eqn:Hv.
  - right. intros (? & [= <-] & _ & _ & Hthrow). by rewrite Hv in Hthrow.
  - left. exists config. by rewrite Hv.
Qed.

Lemma fetch_denied now now' file pathname jwt c :
  denies now now' file jwt c → (serve now now' file pathname jwt c).1 = Forbidden.
Proof.
  intros (config & Hc & Ht & Hj & Hv). unfold fetch. rewrite Hj, Hc, Ht.
  by destruct (verifyAccessJwt _ _ _ _ _ _ _ _) as [[e|] c'].
Qed.

Lemma fetch_allowed now now' file pathname jwt c :
  ¬ denies now now' file jwt c →
  (serve now now' file pathname jwt c).1
  = route upgrade pathname.
Proof.
  intros Hnot. unfold fetch.
  destruct (truthy jwt) eqn:Hj; [|done].
  destruct (loadConfig file) as [config|] eqn:Hc; [|done].
  destruct (truthy (teamDomain config)) eqn:Ht; [|done].
  destruct (verifyAccessJwt _ _ _ _ _ _ _ _) as [[e|] c'] eqn:Hv; [done|].
  exfalso. apply Hnot. exists config. by rewrite Hv.
Qed.

Lemma route_Forbidden pathname : route upgrade pathname ≠ Forbidden.
Proof. unfold route, tryUpgrade. by repeat case_match. Qed.

(** X19. A request is upgraded to a socket of kind [k] for the id [i] exactly
    when its token is not rejected, its path is [/ws/<k>/<i>] with [i] a
    non-empty string of lower-case hexadecimal digits and dashes, and
    [server.upgrade] succeeds; it is answered 400 exactly when such a request
    fails to upgrade, and handed to the application exactly when its token
    is not rejected and its path is no such path. *)
Theorem fetch_routes (now now' : Z) (file : ConfigFile) (pathname : string)
    (jwt : option string) (c : Cache) :
  (∀ k i,
     (serve now now' file pathname jwt c).1 = Upgraded (dataOf k i)
     ↔ ¬ denies now now' file jwt c
       ∧ pathname = routePath k i ∧ validId i
       ∧ upgrade (dataOf k i) = true)
  ∧ ((serve now now' file pathname jwt c).1 = FromApp
     ↔ ¬ denies now now' file jwt c
       ∧ ∀ k i, validId i → pathname ≠ routePath k i)
  ∧ ((serve now now' file pathname jwt c).1 = BadRequest
     ↔ ¬ denies now now' file jwt c
       ∧ ∃ k i, pathname = routePath k i ∧ validId i
                ∧ upgrade (dataOf k i) = false).
Proof.
  destruct (rejects_dec now now' file jwt c) as [Hden|Hok].
  { rewrite (fetch_denied _ _ _ pathname _ _ Hden).
    split; [|split]; try (intros k i); (split; [done|by intros [? _]]). }
  rewrite (fetch_allowed _ _ _ pathname _ _ Hok).
  assert (∀ k i, validId i → pathname = routePath k i →
            route upgrade pathname = tryUpgrade upgrade (dataOf k i)) as Hroute.
  { intros k i Hv ->. unfold route.
    destruct (matchRoute_routePath k i Hv) as (-> & -> & ->). by destruct k. }
  assert ((∃ k i, validId i ∧ pathname = routePath k i)
          ∨ (matchRoute "/ws/cli/" pathname = None
             ∧ matchRoute "/ws/browser/" pathname = None
             ∧ matchRoute "/ws/terminal/" pathname = None)) as [(k0 & i0 & Hv0 & Hp0)|Hnone].
  { destruct (matchRoute "/ws/cli/" pathname) as [i|] eqn:H1.
    { left. exists cli, i. apply matchRoute_Some in H1 as [-> ?]. done. }
    destruct (matchRoute "/ws/browser/" pathname) as [i|] eqn:H2.
    { left. exists browser, i. apply matchRoute_Some in H2 as [-> ?]. done. }
    destruct (matchRoute "/ws/terminal/" pathname) as [i|] eqn:H3.
    { left. exists terminal, i. apply matchRoute_Some in H3 as [-> ?]. done. }
    by right. }
  - rewrite (Hroute k0 i0 Hv0 Hp0). unfold tryUpgrade.
    assert (∀ k i, validId i → pathname = routePath k i → k = k0 ∧ i = i0) as Huniq.
    { intros k i Hv Hp. rewrite Hp0 in Hp.
      destruct k, k0; cbv [routePath kindName String.append] in Hp;
        try discriminate Hp; by simplify_eq. }
    split; [|split].
    + intros k i. split.
      * destruct (upgrade (dataOf k0 i0)) eqn:Hup; [|done].
        intros [= Hdata].
        assert (k = k0 ∧ i = i0) as [-> ->]
          by (destruct k, k0; simpl in Hdata; by simplify_eq).
        done.
      * intros (_ & Hp & Hv & Hup). destruct (Huniq k i Hv Hp) as [-> ->].
        by rewrite Hup.
    + split.
      * by destruct (upgrade (dataOf k0 i0)).
      * intros [_ Hno]. by destruct (Hno k0 i0 Hv0).
    + split.
      * destruct (upgrade (dataOf k0 i0)) eqn:Hup; [done|].
        intros _. split; [done|]. by exists k0, i0.
      * intros (_ & k & i & Hp & Hv & Hup). destruct (Huniq k i Hv Hp) as [-> ->].
        by rewrite Hup.
  - destruct Hnone as (N1 & N2 & N3). unfold route. rewrite N1, N2, N3.
    assert (∀ k i, validId i → pathname ≠ routePath k i) as Hno.
    { intros k i Hv ->. destruct (matchRoute_routePath k i Hv) as (H1 & H2 & H3).
      destruct k; rewrite ?decide_True in * by done; congruence. }
    split; [|split].
    + intros k i. split; [done|]. intros (_ & Hp & Hv & _). by destruct (Hno k i Hv).
    + split; [done|]. done.
    + split; [done|]. intros (_ & k & i & Hp & Hv & _). by destruct (Hno k i Hv).
Qed.

(** *** The two access checks *)

(** X20. The request handler and the middleware reject the same requests: those
    that carry a token, on a server whose tunnel configuration names a team
    domain, for which the verification throws; and both leave the cache of
    key sets in the same state. A request without the header is never
    rejected, nor is any request when no team domain is configured. *)
Theorem access_checks_agree (now now' : Z) (file : ConfigFile) (pathname : string)
    (jwt : option string) (c : Cache) :
  ((serve now now' file pathname jwt c).1 = Forbidden
   ↔ (middleware now now' file jwt c).1 = Denied)
  ∧ ((middleware now now' file jwt c).1 = Denied ↔ denies now now' file jwt c)
  ∧ (serve now now' file pathname jwt c).2 = (middleware now now' file jwt c).2
  ∧ (truthy jwt = false → (middleware now now' file jwt c) = (Next None, c))
  ∧ (from_option (λ config, truthy (teamDomain config)) false (loadConfig file) = false →
     (middleware now now' file jwt c) = (Next None, c)).
Proof.
  assert ((middleware now now' file jwt c).1 = Denied ↔ denies now now' file jwt c) as Hmid.
  { unfold cfAccessMiddleware, rejects.
    destruct (loadConfig file) as [config|]; [|split; [done|by intros (? & ? & _)]].
    destruct (truthy (teamDomain config)) eqn:Ht;
      [|split; [done|intros (? & [= <-] & ? & _); congruence]].
    destruct (truthy jwt) eqn:Hj; [|split; [done|intros (? & _ & _ & ? & _); congruence]].
    destruct (verifyAccessJwt _ _ _ _ _ _ _ _) as [[e|] c'] eqn:Hv.
    - split; [done|]. intros (? & [= <-] & _ & _ & Hthrow). by rewrite Hv in Hthrow.
    - split; [|done]. intros _. exists config. by rewrite Hv. }
  split; [|split; [done|split; [|split]]].
  - rewrite Hmid. split.
    + intros Hf. destruct (rejects_dec now now' file jwt c) as [|Hok]; [done|].
      rewrite (fetch_allowed _ _ _ pathname _ _ Hok) in Hf. by apply route_Forbidden in Hf.
    + apply fetch_denied.
  - unfold fetch, cfAccessMiddleware.
    destruct (loadConfig file) as [config|]; [|by destruct (truthy jwt)].
    destruct (truthy (teamDomain config)); [|by destruct (truthy jwt)].
    destruct (truthy jwt); [|done].
    by destruct (verifyAccessJwt _ _ _ _ _ _ _ _) as [[e|] c'].
  - intros Hj. unfold cfAccessMiddleware. rewrite Hj.
    destruct (loadConfig file) as [config|]; [|done]. by destruct (truthy (teamDomain config)).
  - intros Hc. unfold cfAccessMiddleware.
    destruct (loadConfig file) as [config|]; [|done]. simpl in Hc. by rewrite Hc.
Qed.

(** *** The cache of key sets *)

(** X21. Once [getJWKS] has returned a key set for a team domain, every call
    for that domain less than an hour after the entry was made returns the
    same key set and leaves the cache as it is; the entries of the other
    domains are those from before the call. *)
Theorem getJWKS_cached (now now' : Z) (teamDomain : string) (c c' : Cache) (j : JWKS) :
  getJWKS newURL now now' teamDomain c = Normal (j, c') →
  (∃ cached, jwksCache c' !! teamDomain = Some cached
     ∧ jwks cached = j
     ∧ ∀ later later', later - cachedAt cached < CACHE_TTL_MS →
         getJWKS newURL later later' teamDomain c' = Normal (j, c'))
  ∧ (∀ other, other ≠ teamDomain → jwksCache c' !! other = jwksCache c !! other)
  ∧ (c' = c
     ∨ (created c' = S (created c) ∧ serial j = created c
        ∧ cachedAt <$> jwksCache c' !! teamDomain = Some now')).
Proof.
  unfold getJWKS.
  set (fresh := match newURL _ with Normal url => _ | Throws => Throws end).
  assert (fresh = Normal (j, c') →
          (∃ cached, jwksCache c' !! teamDomain = Some cached
             ∧ jwks cached = j
             ∧ ∀ later later', later - cachedAt cached < CACHE_TTL_MS →
                 getJWKS newURL later later' teamDomain c' = Normal (j, c'))
          ∧ (∀ other, other ≠ teamDomain → jwksCache c' !! other = jwksCache c !! other)
          ∧ (c' = c ∨ (created c' = S (created c) ∧ serial j = created c
                       ∧ cachedAt <$> jwksCache c' !! teamDomain = Some now'))) as Hfresh.
  { unfold fresh. destruct (newURL _) as [url|]; [|done]. intros [= <- <-]. simpl.
    split; [|split].
    - eexists. split; [apply lookup_insert_eq|]. split; [done|].
      intros later later' Hlt. unfold getJWKS. simpl. rewrite lookup_insert_eq. simpl.
      by rewrite bool_decide_eq_true_2.
    - intros other Hne. by rewrite lookup_insert_ne.
    - right. by rewrite lookup_insert_eq. }
  destruct (jwksCache c !! teamDomain) as [cached|] eqn:Hc; [|done].
  case_bool_decide as Hlt; [|done].
  intros [= <- <-]. split; [|split; [done|by left]].
  exists cached. split; [done|]. split; [done|].
  intros later later' Hlater. unfold getJWKS. rewrite Hc. by rewrite bool_decide_eq_true_2.
Qed.

End Serve.

Lemma fetch_routes_witness :
  (fetch sampleURL sampleVerify (λ _, true) 0 0 (Json sampleConfig)
     "/ws/browser/3f2a-77" (Some "good") emptyCache).1
  = Upgraded (BrowserData "3f2a-77").
Proof.
  apply (proj1 (fetch_routes sampleURL sampleVerify (λ _, true) 0 0 (Json sampleConfig)
                  "/ws/browser/3f2a-77" (Some "good") emptyCache) browser "3f2a-77").
  split; [|split; [reflexivity|split; [split; [done|reflexivity]|reflexivity]]].
  intros (config & Hc & _ & _ & Hv). injection Hc as <-.
  vm_compute in Hv. discriminate Hv.
Defined.

Lemma access_checks_agree_witness :
  (cfAccessMiddleware sampleURL sampleVerify 0 0 (Json sampleConfig) (Some "bad")
     emptyCache).1 = Denied
  ∧ cfAccessMiddleware sampleURL sampleVerify 0 0 (Json sampleConfig) None emptyCache
    = (Next None, emptyCache).
Proof.
  destruct (access_checks_agree sampleURL sampleVerify (λ _, true) 0 0 (Json sampleConfig)
              "/" (Some "bad") emptyCache) as (H1 & _).
  destruct (access_checks_agree sampleURL sampleVerify (λ _, true) 0 0 (Json sampleConfig)
              "/" None emptyCache) as (_ & _ & _ & H4 & _).
  split; [apply H1; vm_compute; reflexivity|apply H4; reflexivity].
Defined.

Lemma getJWKS_cached_witness :
  let first := getJWKS sampleURL 1000 1001 "team" emptyCache in
  ∃ j c', first = Normal (j, c')
    ∧ getJWKS sampleURL 3601000 3601000 "team" c' = Normal (j, c')
    ∧ jwksCache c' !! "other" = None.
Proof.
  destruct (getJWKS sampleURL 1000 1001 "team" emptyCache) as [[j c']|] eqn:Hfirst;
    [|vm_compute in Hfirst; discriminate Hfirst].
  destruct (getJWKS_cached sampleURL 1000 1001 "team" emptyCache c' j Hfirst)
    as ((cached & Hc & Hj & Hhit) & Hother & _).
  exists j, c'. split; [done|]. split.
  - apply Hhit. vm_compute in Hfirst. injection Hfirst as <- <-.
    vm_compute in Hc. injection Hc as <-. vm_compute. reflexivity.
  - rewrite Hother by done. vm_compute. reflexivity.
Defined.

End FetchFacts.

(** ** The keys and the subscriptions of the push manager *)

Section KeyFacts.

Import PushManager PushObs PushOps.
Section Sending.

Variable generateVAPIDKeys : VapidKeys.
Variable setVapidDetails : string → string → string → Completion unit.
Variable sendNotification : nat → PushSubscriptionData → PushPayload → SendOutcome.

Abbreviation loadKeys := (loadVapidKeys generateVAPIDKeys).
Abbreviation calls := (foldl (call generateVAPIDKeys setVapidDetails sendNotification)).
Abbreviation sendAll := (sendPushToAll generateVAPIDKeys setVapidDetails sendNotification).

(** *** The VAPID keys *)

Lemma keyed_load k st : keyed k st → loadKeys st = Normal (k, st).
Proof. intros [_ Hk]. unfold loadVapidKeys. by rewrite Hk. Qed.

Lemma keyed_cleanUp k expired st : keyed k st → keyed k (cleanUp expired st).
Proof. by destruct expired. Qed.

Lemma keyed_call k st c :
  keyed k st → keyed k (call generateVAPIDKeys setVapidDetails sendNotification st c).
Proof.
  intros Hk. destruct c as [|sub|ep| |payload]; simpl.
  - unfold getVapidPublicKey. by rewrite (keyed_load k st Hk).
  - unfold addSubscription. by destruct (findIndex _ _).
  - unfold removeSubscription. by case_bool_decide.
  - done.
  - unfold sendPushToAll. destruct (loadSubscriptions st); [done|].
    rewrite (keyed_load k st Hk). destruct (setVapidDetails _ _ _); [|done].
    by apply keyed_cleanUp.
Qed.

Lemma keyed_run k st cs : keyed k st → keyed k (calls st cs).
Proof.
  revert st. induction cs as [|c cs IH]; intros st Hk; [done|].
  simpl. by apply IH, keyed_call.
Qed.

(** X22. The VAPID keys are made once: when a process that has no keys cached
    loads them, it takes them from the key file if there is one and
    generates them otherwise; whatever calls follow, the same keys are
    returned, and a process started later reads the same keys from the
    file. *)
Theorem vapid_keys_stable (st st1 : State) (k : VapidKeys) (cs : list Call) :
  vapidKeys st = None →
  loadKeys st = Normal (k, st1) →
  let st2 := calls st1 cs in
  match vapidFile st with
  | Content k0 => k = k0
  | _ => vapidFile st = Missing ∧ k = generateVAPIDKeys
  end
  ∧ loadKeys st2 = Normal (k, st2)
  ∧ getVapidPublicKey generateVAPIDKeys st2 = Normal (publicKey k, st2)
  ∧ loadKeys (restart st2) = Normal (k, st2).
Proof.
  intros Hnone Hload. cbn zeta.
  assert (keyed k st1
          ∧ match vapidFile st with
            | Content k0 => k = k0
            | _ => vapidFile st = Missing ∧ k = generateVAPIDKeys
            end) as [Hk Hsrc].
  { unfold loadVapidKeys in Hload. rewrite Hnone in Hload.
    destruct (vapidFile st) as [| |k0]; [|done|]; by injection Hload as <- <-. }
  pose proof (keyed_run k st1 cs Hk) as Hk2.
  split; [done|]. split; [by apply keyed_load|]. split.
  - unfold getVapidPublicKey. by rewrite (keyed_load k _ Hk2).
  - destruct Hk2 as [Hf Hc]. unfold loadVapidKeys, restart. simpl. rewrite Hf.
    do 2 f_equal. destruct (calls st1 cs) as [f s c]. simpl in *. by subst.
Qed.

(** *** Removing a subscription *)

Lemma filter_length_lt {A} (P : A → Prop) `{∀ x, Decision (P x)} (l : list A) x :
  x ∈ l → ¬ P x → (length (filter P l) < length l)%nat.
Proof.
  intros Hx Hn. induction l as [|y l IH]; [by apply elem_of_nil in Hx|].
  rewrite filter_cons. simpl. apply elem_of_cons in Hx as [<-|Hx].
  - rewrite decide_False by done. pose proof (length_filter P l). lia.
  - specialize (IH Hx). case_decide; simpl; lia.
Qed.

(** X23. [removeSubscription] answers whether the endpoint was stored; it
    removes every subscription with that endpoint and keeps the others in
    their order; removing a subscription that was just added for a new
    endpoint gives back the list from before. *)
Theorem removeSubscription_spec (ep : string) (sub : PushSubscriptionData) (st : State) :
  ((removeSubscription ep st).1 = true ↔ ep ∈ endpoints st)
  ∧ getAllSubscriptions (removeSubscription ep st).2
    = filter (λ s, endpoint s ≠ ep) (getAllSubscriptions st)
  ∧ (ep ∉ endpoints (removeSubscription ep st).2)
  ∧ (endpoint sub ∉ endpoints st →
     removeSubscription (endpoint sub) (addSubscription sub st)
     = (true, saveSubscriptions (getAllSubscriptions st) st)).
Proof.
  split; [|split; [|split]].
  - unfold removeSubscription, endpoints. case_bool_decide as Hlen; simpl.
    + split; [done|]. intros Hin. exfalso.
      apply list_elem_of_fmap in Hin as (s & -> & Hs).
      pose proof (filter_length_lt (λ s', endpoint s' ≠ endpoint s) _ s Hs) as Hlt.
      rewrite Hlen in Hlt. apply (Nat.lt_irrefl (length (loadSubscriptions st))).
      apply Hlt. by intros ?.
    + split; [|done]. intros _. apply dec_stable. intros Hnot. apply Hlen.
      by rewrite filter_all_of_not_elem.
  - apply removeSubscription_load.
  - unfold endpoints. rewrite removeSubscription_load.
    intros (s & -> & [Hne _]%list_elem_of_filter)%list_elem_of_fmap. done.
  - intros Hnew. unfold endpoints in Hnew.
    assert (findIndex (endpoint sub) (loadSubscriptions st) = None) as Hfind
      by by apply findIndex_None.
    unfold removeSubscription.
    assert (loadSubscriptions (addSubscription sub st) = loadSubscriptions st ++ [sub]) as ->
      by by apply addSubscription_push.
    rewrite filter_app, filter_all_of_not_elem by done.
    rewrite filter_cons, decide_False, filter_nil, app_nil_r by (by intros ?).
    rewrite bool_decide_eq_false_2 by (rewrite length_app; simpl; lia).
    unfold addSubscription. by rewrite Hfind.
Qed.

(** *** Sending never adds *)

Lemma sublist_filter {A} (P : A → Prop) `{∀ x, Decision (P x)} (l : list A) :
  sublist (filter P l) l.
Proof.
  induction l as [|x l IH]; [done|]. rewrite filter_cons.
  case_decide; [by apply sublist_skip|by apply sublist_cons].
Qed.

(** X24. [sendPushToAll] never adds or reorders subscriptions and never
    touches the keys of a state that has them; with no subscription stored
    it does nothing at all, whatever the state of the key file; and when
    no send is rejected with 410 or 404 the subscriptions file is left as
    it is. *)
Theorem sendPushToAll_keeps (payload : PushPayload) (st : State) :
  (getAllSubscriptions st = [] → sendAll payload st = (Normal (), st))
  ∧ (∀ st', sendAll payload st = (Normal (), st') →
       sublist (getAllSubscriptions st') (getAllSubscriptions st)
       ∧ (expiredEndpoints sendNotification payload (getAllSubscriptions st) = [] →
          subscriptionsFile st' = subscriptionsFile st)
       ∧ (∀ k, vapidKeys st = Some k → vapidKeys st' = Some k ∧ vapidFile st' = vapidFile st)).
Proof.
  unfold getAllSubscriptions, sendPushToAll. split.
  - by intros ->.
  - intros st'. destruct (loadSubscriptions st) as [|s subs] eqn:Hsubs.
    { intros [= <-]. rewrite Hsubs. split; [done|]. by split; [|intros k ->]. }
    destruct (loadVapidKeys generateVAPIDKeys st) as [[k0 st0]|] eqn:Hload; [|done].
    destruct (setVapidDetails _ _ _); [|done].
    intros [= <-]. rewrite load_cleanUp.
    rewrite (loadVapidKeys_subscriptions generateVAPIDKeys st k0 st0 Hload), Hsubs.
    split; [apply sublist_filter|]. split.
    + intros ->. simpl. unfold loadVapidKeys in Hload.
      destruct (vapidKeys st); [by injection Hload as _ <-|].
      destruct (vapidFile st); [|done|]; by injection Hload as _ <-.
    + intros k Hk. unfold loadVapidKeys in Hload. rewrite Hk in Hload.
      injection Hload as _ <-. by destruct (expiredEndpoints _ _ _).
Qed.

End Sending.

Lemma vapid_keys_stable_witness :
  let st1 := {| vapidFile := Content sampleKeys;
                subscriptionsFile := subscriptionsFile threeSubs;
                vapidKeys := Some sampleKeys |} in
  let st2 := foldl (call sampleKeys sampleCheck sampleSend) st1
               [SendPushToAll samplePayload; RemoveSubscription "https://push.example.com/sub"] in
  loadVapidKeys sampleKeys st2 = Normal (sampleKeys, st2)
  ∧ getVapidPublicKey sampleKeys st2 = Normal ("BPublic", st2)
  ∧ loadVapidKeys sampleKeys (restart st2) = Normal (sampleKeys, st2).
Proof.
  refine (proj2 (vapid_keys_stable sampleKeys sampleCheck sampleSend threeSubs _ sampleKeys
                   [SendPushToAll samplePayload;
                    RemoveSubscription "https://push.example.com/sub"] _ _)).
  - reflexivity.
  - reflexivity.
Defined.

Lemma removeSubscription_spec_witness :
  let sub := sampleSub "https://push.example.com/new" "k4" in
  (removeSubscription "https://push.example.com/sub" threeSubs).1 = true
  ∧ removeSubscription (endpoint sub) (addSubscription sub threeSubs)
    = (true, saveSubscriptions (getAllSubscriptions threeSubs) threeSubs).
Proof.
  destruct (removeSubscription_spec "https://push.example.com/sub"
              (sampleSub "https://push.example.com/new" "k4") threeSubs)
    as (H1 & _ & _ & H4).
  split; [apply H1; compute_done|apply H4; compute_done].
Defined.

Lemma sendPushToAll_keeps_witness :
  sendPushToAll sampleKeys sampleCheck sampleSend samplePayload brokenKeys
  = (Normal (), brokenKeys).
Proof.
  apply (proj1 (sendPushToAll_keeps sampleKeys sampleCheck sampleSend samplePayload
                  brokenKeys)).
  reflexivity.
Defined.

End KeyFacts.
